(** * agenticSeek browser core: a shallow embedding of [sources/browser.py]

    The development follows the class [Browser]: the URL sanitizer
    ([clean_url], [is_link_valid], [get_navigable]), the content extractor
    ([is_sentence], [get_text]), the navigation controller ([go_to]) and the
    form automation engine ([click_element], [get_buttons_xpath],
    [find_and_click_btn], [find_and_click_submission], [fill_form_inputs]).

    Python strings are lists of Unicode code points.  Calls into Selenium are
    operations of a [Driver] interface over an explicit browser state; they
    return a value or raise a Python exception.  Calls to the logger and to
    [time.sleep] are left out: they return nothing the methods use.  The
    argument of [fill_form_inputs] is a list by its type, so the
    [isinstance] guard of the method has no counterpart. *)

From Stdlib Require Import String Ascii.
From Stdlib Require Import List NArith Bool Arith Lia.
From Stdlib Require Import Sorted Permutation.
From Stdlib Require DecimalString.
Import ListNotations.

(* ================================================================== *)
(** * Part I: definitions                                             *)
(* ================================================================== *)

(** ** Python strings *)

Definition char := N.
Bind Scope N_scope with char.
Definition str := list char.

(** An ASCII literal as a Python string. *)
Definition py (s : string) : str := map N_of_ascii (list_ascii_of_string s).
Arguments py s%_string.

Fixpoint str_eqb (a b : str) : bool :=
  match a, b with
  | [], [] => true
  | x :: a', y :: b' => N.eqb x y && str_eqb a' b'
  | _, _ => false
  end.

(** [s.startswith(p)] *)
Fixpoint startswith (s p : str) {struct p} : bool :=
  match p, s with
  | [], _ => true
  | c :: p', d :: s' => N.eqb d c && startswith s' p'
  | _ :: _, [] => false
  end.

(** [s.endswith(p)] *)
Definition endswith (s p : str) : bool := startswith (rev s) (rev p).

(** [sub in s] *)
Fixpoint contains (s sub : str) : bool :=
  startswith s sub ||
  match s with
  | [] => false
  | _ :: t => contains t sub
  end.

(** [c in s] for a single character. *)
Definition has_char (c : char) (s : str) : bool := existsb (N.eqb c) s.

(** [s.split(sep)] for a one-character separator. *)
Fixpoint split (sep : char) (s : str) : list str :=
  match s with
  | [] => [[]]
  | c :: t =>
      if N.eqb c sep then [] :: split sep t
      else match split sep t with
           | h :: r => (c :: h) :: r
           | [] => [[c]]
           end
  end.

(** [s.split(sep, 1)] for a one-character separator. *)
Fixpoint split1 (sep : char) (s : str) : list str :=
  match s with
  | [] => [[]]
  | c :: t =>
      if N.eqb c sep then [[]; t]
      else match split1 sep t with
           | h :: r => (c :: h) :: r
           | [] => [[c]]
           end
  end.

(** [sep.join(l)] *)
Fixpoint join (sep : str) (l : list str) : str :=
  match l with
  | [] => []
  | [x] => x
  | x :: r => x ++ sep ++ join sep r
  end.

(** [s.replace(c, '')] for a single character [c]. *)
Definition remove_char (c : char) (s : str) : str :=
  filter (fun d => negb (N.eqb d c)) s.

(** The decimal rendering of a natural number, as an f-string prints it. *)
Definition str_of_nat (n : nat) : str :=
  py (DecimalString.NilZero.string_of_uint (Nat.to_uint n)).

(** Code points the source names. *)
Definition c_hash : char := 35.      (* '#' *)
Definition c_quest : char := 63.     (* '?' *)
Definition c_amp : char := 38.       (* '&' *)
Definition c_space : char := 32.     (* ' ' *)
Definition c_newline : char := 10.   (* '\n' *)
Definition c_cr : char := 13.        (* '\r' *)
Definition c_bang : char := 33.      (* '!' *)
Definition c_lbrack : char := 91.    (* '[' *)
Definition c_rbrack : char := 93.    (* ']' *)
Definition c_lparen : char := 40.    (* '(' *)
Definition c_rparen : char := 41.    (* ')' *)
Definition c_slash : char := 47.     (* '/' *)
Definition c_colon : char := 58.     (* ':' *)
Definition c_semi : char := 59.      (* ';' *)
Definition c_underscore : char := 95. (* '_' *)

(** ** The Unicode character database

    [str.isdigit], [str.isspace], [str.lower] and the regular expression
    classes [\w] and [\d] read CPython's Unicode tables, which are not part
    of the repository: they are the fields of an interface.  [UnicodeLaws]
    records what the tables do on ASCII and that lowercasing neither creates
    nor removes a space. *)

Class Unicode := {
  isdigit : char -> bool;     (* str.isdigit *)
  isdecimal : char -> bool;   (* regex \d *)
  isalnum : char -> bool;     (* str.isalnum; \w is isalnum or '_' *)
  isspace : char -> bool;     (* str.isspace, used by strip() and split() *)
  lower : str -> str          (* str.lower *)
}.

Definition in_range (lo hi c : N) : bool := N.leb lo c && N.leb c hi.

Definition ascii_isdigit (c : char) : bool := in_range 48 57 c.
Definition ascii_isupper (c : char) : bool := in_range 65 90 c.
Definition ascii_isalpha (c : char) : bool := in_range 65 90 c || in_range 97 122 c.
Definition ascii_isalnum (c : char) : bool := ascii_isalpha c || ascii_isdigit c.
Definition ascii_isspace (c : char) : bool := in_range 9 13 c || in_range 28 32 c.
Definition ascii_lower_char (c : char) : char :=
  if ascii_isupper c then (c + 32)%N else c.
Definition is_ascii (c : char) : bool := N.ltb c 128.

Record UnicodeLaws (U : Unicode) : Prop := {
  isdigit_ascii : forall c, is_ascii c = true -> isdigit c = ascii_isdigit c;
  isdecimal_ascii : forall c, is_ascii c = true -> isdecimal c = ascii_isdigit c;
  isalnum_ascii : forall c, is_ascii c = true -> isalnum c = ascii_isalnum c;
  isspace_ascii : forall c, is_ascii c = true -> isspace c = ascii_isspace c;
  lower_ascii : forall s, forallb is_ascii s = true -> lower s = map ascii_lower_char s;
  lower_space : forall s, has_char c_space (lower s) = has_char c_space s
}.
Arguments isdigit_ascii {U}.
Arguments isdecimal_ascii {U}.
Arguments isalnum_ascii {U}.
Arguments isspace_ascii {U}.
Arguments lower_ascii {U}.
Arguments lower_space {U}.

(** Two tables agree on a character. *)
Definition agree (U1 U2 : Unicode) (c : char) : Prop :=
  @isdigit U1 c = @isdigit U2 c /\ @isalnum U1 c = @isalnum U2 c /\
  @isspace U1 c = @isspace U2 c.

(** The tables cut down to ASCII: every other code point is caseless and
    neither a digit, a letter nor a space. *)
Definition ascii_tables : Unicode := {|
  isdigit c := is_ascii c && ascii_isdigit c;
  isdecimal c := is_ascii c && ascii_isdigit c;
  isalnum c := is_ascii c && ascii_isalnum c;
  isspace c := is_ascii c && ascii_isspace c;
  lower s := map ascii_lower_char s
|}.

(** ** URL sanitizer *)

Definition is_essential_param (param : str) : bool :=
  startswith param (py "_skw=") || startswith param (py "q=") ||
  startswith param (py "s=").

Definition is_noise_param (param : str) : bool :=
  startswith param (py "_") || startswith param (py "hash=") ||
  startswith param (py "itmmeta=").

(** The loop of [clean_url] over [query.split('&')]: an essential parameter
    is appended, a noise parameter breaks the loop, anything else is skipped. *)
Fixpoint essential_params (params : list str) : list str :=
  match params with
  | [] => []
  | param :: rest =>
      if is_essential_param param then param :: essential_params rest
      else if is_noise_param param then []
      else essential_params rest
  end.

Definition clean_url (url : str) : str :=
  let clean := hd [] (split c_hash url) in
  let parts := split1 c_quest clean in
  let base_url := hd [] parts in
  match tl parts with
  | query :: _ =>
      match essential_params (split c_amp query) with
      | [] => base_url
      | ps => base_url ++ py "?" ++ join (py "&") ps
      end
  | [] => base_url
  end.

(** The scan as the specification words it: it stops at the first parameter
    whose key starts with '_', 'hash=' or 'itmmeta=', and keeps the
    parameters seen before that whose key is _skw, q or s. *)
Fixpoint essential_params_spec (params : list str) : list str :=
  match params with
  | [] => []
  | param :: rest =>
      if is_noise_param param then []
      else if is_essential_param param then param :: essential_params_spec rest
      else essential_params_spec rest
  end.

Definition clean_url_spec (url : str) : str :=
  let clean := hd [] (split c_hash url) in
  let parts := split1 c_quest clean in
  let base_url := hd [] parts in
  match tl parts with
  | query :: _ =>
      match essential_params_spec (split c_amp query) with
      | [] => base_url
      | ps => base_url ++ py "?" ++ join (py "&") ps
      end
  | [] => base_url
  end.

(** [url.split(c)[0]] and the two parts of [url.split(c, 1)], said
    directly: the text before the first [c], and the text after it. *)
Fixpoint before (c : char) (s : str) : str :=
  match s with
  | [] => []
  | d :: t => if N.eqb d c then [] else d :: before c t
  end.

Fixpoint after (c : char) (s : str) : option str :=
  match s with
  | [] => None
  | d :: t => if N.eqb d c then Some t else after c t
  end.

(** A parameter ends the scan when it is a noise parameter and not a
    retained one ([_skw=...] starts with '_' and is retained). *)
Definition stops_scan (param : str) : bool :=
  negb (is_essential_param param) && is_noise_param param.

Fixpoint scanned (params : list str) : list str :=
  match params with
  | [] => []
  | param :: rest => if stops_scan param then [] else param :: scanned rest
  end.

(** ** Python exceptions *)

Inductive exn :=
| BaseException
| KeyboardInterrupt
| Exception
| NameError
| ValueError
| TypeError
| OSError
| FileNotFoundError
| WebDriverException
| TimeoutException
| NoSuchElementException
| StaleElementReferenceException
| InvalidElementStateException
| ElementNotInteractableException
| ElementClickInterceptedException.

(** The base class of each exception class ([None] for the root). *)
Definition base_class (e : exn) : option exn :=
  match e with
  | BaseException => None
  | KeyboardInterrupt | Exception => Some BaseException
  | NameError | ValueError | TypeError | OSError | WebDriverException => Some Exception
  | FileNotFoundError => Some OSError
  | TimeoutException | NoSuchElementException | StaleElementReferenceException
  | InvalidElementStateException => Some WebDriverException
  | ElementNotInteractableException => Some InvalidElementStateException
  | ElementClickInterceptedException => Some WebDriverException
  end.

Definition exn_eqb (a b : exn) : bool :=
  match a, b with
  | BaseException, BaseException | KeyboardInterrupt, KeyboardInterrupt
  | Exception, Exception | NameError, NameError | ValueError, ValueError
  | TypeError, TypeError | OSError, OSError
  | FileNotFoundError, FileNotFoundError
  | WebDriverException, WebDriverException
  | TimeoutException, TimeoutException
  | NoSuchElementException, NoSuchElementException
  | StaleElementReferenceException, StaleElementReferenceException
  | InvalidElementStateException, InvalidElementStateException
  | ElementNotInteractableException, ElementNotInteractableException
  | ElementClickInterceptedException, ElementClickInterceptedException => true
  | _, _ => false
  end.

Fixpoint isinstance_fuel (fuel : nat) (e cls : exn) : bool :=
  exn_eqb e cls ||
  match fuel, base_class e with
  | S f, Some b => isinstance_fuel f b cls
  | _, _ => false
  end.

(** [isinstance(e, cls)], which an [except cls] clause tests. *)
Definition isinstance (e cls : exn) : bool := isinstance_fuel 4 e cls.
Arguments isinstance : simpl never.

(** What a call yields: a value, or a raised exception. *)
Inductive outcome (A : Type) :=
| Ret (a : A)
| Raise (e : exn).
Arguments Ret {A} a.
Arguments Raise {A} e.

(** ** urllib.parse.urlparse

    [is_link_valid] calls the standard library's [urlparse].  This is its
    algorithm (CPython 3.12, Lib/urllib/parse.py: [urlsplit], [_splitnetloc],
    [_splitparams]): leading control characters and spaces are stripped,
    tabs and line breaks removed; then come the scheme, the network
    location after "//", the fragment, the query and the parameters of the
    last path segment.  An unbalanced '[' or ']' in the network location
    raises ValueError.  Two more checks raise ValueError; they read other
    libraries, and are the fields of an interface: the check of a host in
    brackets ([_check_bracketed_netloc], which calls [ipaddress]) and the
    check of a network location that is not ASCII ([_checknetloc], which
    normalizes it with [unicodedata]). *)

Class NetlocChecks := {
  (* a network location with '[' and ']' passes the check of its host *)
  bracketed_host_allowed : str -> bool;
  (* a network location that is not ASCII passes the check of its NFKC form *)
  normalized_netloc_allowed : str -> bool
}.

Record ParseResult := {
  scheme : str;
  netloc : str;
  path : str;
  params : str;
  query : str;
  fragment : str
}.

Fixpoint index_of (c : char) (s : str) : option nat :=
  match s with
  | [] => None
  | d :: t => if N.eqb d c then Some 0
              else match index_of c t with Some i => Some (S i) | None => None end
  end.

Definition scheme_chars (c : char) : bool :=
  ascii_isalnum c || N.eqb c 43 || N.eqb c 45 || N.eqb c 46.

Definition uses_params : list str :=
  [[]; py "ftp"; py "hdl"; py "prospero"; py "http"; py "imap"; py "https";
   py "shttp"; py "rtsp"; py "rtspu"; py "sip"; py "sips"; py "mms";
   py "sftp"; py "tel"].

Definition split_scheme (url : str) : str * str :=
  match index_of c_colon url, url with
  | Some (S i), c0 :: _ =>
      if ascii_isalpha c0 && forallb scheme_chars (firstn (S i) url)
      then (map ascii_lower_char (firstn (S i) url), skipn (S (S i)) url)
      else ([], url)
  | _, _ => ([], url)
  end.

Definition is_netloc_delim (c : char) : bool :=
  N.eqb c c_slash || N.eqb c c_quest || N.eqb c c_hash.

Fixpoint splitnetloc (s : str) : str * str :=
  match s with
  | [] => ([], [])
  | c :: t => if is_netloc_delim c then ([], s)
              else let (a, b) := splitnetloc t in (c :: a, b)
  end.

(** [url, rest = url.split(c, 1)] when [c in url]. *)
Definition cut (c : char) (url : str) : str * str :=
  match split1 c url with
  | [a; b] => (a, b)
  | _ => (url, [])
  end.

Definition splitparams (url : str) : str * str :=
  if has_char c_slash url then
    match index_of c_slash (rev url) with
    | Some k =>
        let last_slash := length url - 1 - k in
        let tail := skipn last_slash url in
        if has_char c_semi tail
        then let (a, b) := cut c_semi tail in (firstn last_slash url ++ a, b)
        else (url, [])
    | None => (url, [])
    end
  else cut c_semi url.

(** [url.lstrip(_WHATWG_C0_CONTROL_OR_SPACE)]: the code points 0 to 32. *)
Definition is_c0_or_space (c : char) : bool := N.leb c 32.

Fixpoint lstrip_c0 (url : str) : str :=
  match url with
  | [] => []
  | c :: t => if is_c0_or_space c then lstrip_c0 t else url
  end.

(** [_UNSAFE_URL_BYTES_TO_REMOVE]: tab, carriage return, line feed. *)
Definition is_unsafe (c : char) : bool := N.eqb c 9 || N.eqb c 13 || N.eqb c 10.

(** The URL as [urlsplit] reads it. *)
Definition url_sanitized (url : str) : str :=
  filter (fun c => negb (is_unsafe c)) (lstrip_c0 url).

Definition urlparse {K : NetlocChecks} (url : str) : outcome ParseResult :=
  let (sch, url1) := split_scheme (url_sanitized url) in
  let (loc, url2) :=
    if startswith url1 (py "//") then splitnetloc (skipn 2 url1) else ([], url1) in
  if xorb (has_char c_lbrack loc) (has_char c_rbrack loc) then Raise ValueError
  else if has_char c_lbrack loc && has_char c_rbrack loc
          && negb (bracketed_host_allowed loc) then Raise ValueError
  else
    let (url3, frag) := if has_char c_hash url2 then cut c_hash url2 else (url2, []) in
    let (url4, qry) := if has_char c_quest url3 then cut c_quest url3 else (url3, []) in
    if negb (forallb is_ascii loc) && negb (normalized_netloc_allowed loc)
    then Raise ValueError
    else
      let (pth, prm) :=
        if existsb (str_eqb sch) uses_params && has_char c_semi url4
        then splitparams url4 else (url4, []) in
      Ret {| scheme := sch; netloc := loc; path := pth; params := prm;
             query := qry; fragment := frag |}.

(** ** Whitespace, lines and words *)

Section Text.
Context {U : Unicode}.

Fixpoint lstrip (s : str) : str :=
  match s with
  | [] => []
  | c :: t => if isspace c then lstrip t else s
  end.

Definition rstrip (s : str) : str := rev (lstrip (rev s)).

(** [s.strip()] *)
Definition strip (s : str) : str := rstrip (lstrip s).

(** The maximal runs of characters that satisfy [p], left to right. *)
Fixpoint runs (p : char -> bool) (cur : str) (s : str) : list str :=
  match s with
  | [] => match cur with [] => [] | _ => [rev cur] end
  | c :: t =>
      if p c then runs p (c :: cur) t
      else match cur with
           | [] => runs p [] t
           | _ => rev cur :: runs p [] t
           end
  end.

(** [s.split()] *)
Definition split_ws (s : str) : list str := runs (fun c => negb (isspace c)) [] s.

(** [re.findall(r'\w+', s, re.UNICODE)] *)
Definition isword (c : char) : bool := isalnum c || N.eqb c c_underscore.
Definition findall_words (s : str) : list str := runs isword [] s.

(** The line boundaries of [str.splitlines]. *)
Definition is_linebreak (c : char) : bool :=
  in_range 10 13 c || in_range 28 30 c || N.eqb c 133 || N.eqb c 8232 || N.eqb c 8233.

(** [s.splitlines()]: "\r\n" is one boundary, and a final boundary opens no
    empty last line. *)
Fixpoint splitlines_from (cur : str) (s : str) : list str :=
  match s with
  | [] => match cur with [] => [] | _ => [rev cur] end
  | c :: t =>
      if N.eqb c c_cr then
        match t with
        | d :: t' => if N.eqb d c_newline then rev cur :: splitlines_from [] t'
                     else rev cur :: splitlines_from [] t
        | [] => [rev cur]
        end
      else if is_linebreak c then rev cur :: splitlines_from [] t
      else splitlines_from (c :: cur) t
  end.

Definition splitlines (s : str) : list str := splitlines_from [] s.

(** ** Content extractor *)

Definition sentence_punctuation : list str :=
  [[46]; [65292]; [44]; [33]; [63]; [12290]; [65281]; [65311]; [2404]; [1748]]%N.

Definition is_sentence (text : str) : bool :=
  let text := strip text in
  if existsb isdigit text then true
  else
    let words := findall_words text in
    let word_count := length words in
    let has_punctuation := existsb (endswith text) sentence_punctuation in
    let is_long_enough := 4 <? word_count in
    (5 <=? word_count) && (has_punctuation || is_long_enough).

(** The regular expression [\((.*?)\)] continued from inside the
    parentheses: the shortest text without a newline up to a ')'. *)
Fixpoint lazy_to_rparen (s : str) : option (str * str) :=
  match s with
  | [] => None
  | c :: t =>
      if N.eqb c c_rparen then Some ([], t)
      else if N.eqb c c_newline then None
      else match lazy_to_rparen t with
           | Some (g, rest) => Some (c :: g, rest)
           | None => None
           end
  end.

(** [(.*?)\]\((.*?)\)] continued from inside the brackets.  The first group
    is tried shortest first and grows by one character (never a newline)
    whenever the rest of the pattern fails.  The answer is the two groups
    and the text after the match. *)
Fixpoint lazy_bracket_paren (s : str) : option (str * str * str) :=
  match s with
  | [] => None
  | c :: t =>
      let here :=
        if N.eqb c c_rbrack then
          match t with
          | d :: t' => if N.eqb d c_lparen then lazy_to_rparen t' else None
          | [] => None
          end
        else None in
      match here with
      | Some (g2, rest) => Some ([], g2, rest)
      | None =>
          if N.eqb c c_newline then None
          else match lazy_bracket_paren t with
               | Some (g1, g2, rest) => Some (c :: g1, g2, rest)
               | None => None
               end
      end
  end.

(** A match of [!\[(.*?)\]\(.*?\)] at the start of [s]. *)
Definition match_image (s : str) : option (str * str) :=
  match s with
  | c :: d :: t =>
      if N.eqb c c_bang && N.eqb d c_lbrack then
        match lazy_bracket_paren t with
        | Some (alt, _, rest) => Some (alt, rest)
        | None => None
        end
      else None
  | _ => None
  end.

(** [re.sub(r'!\[(.*?)\]\(.*?\)', r'[IMAGE: \1]', s)]: the leftmost matches,
    one after the other. *)
Fixpoint image_sub_fuel (fuel : nat) (s : str) : str :=
  match fuel with
  | 0 => s
  | S f =>
      match s with
      | [] => []
      | c :: t =>
          match match_image s with
          | Some (alt, rest) => py "[IMAGE: " ++ alt ++ py "]" ++ image_sub_fuel f rest
          | None => c :: image_sub_fuel f t
          end
      end
  end.

Definition image_sub (s : str) : str := image_sub_fuel (length s) s.

(** A match of [re.match(r'\[(.*?)\]\((.*?)\)', s)]: the two groups. *)
Definition match_fill_command (s : str) : option (str * str) :=
  match s with
  | c :: t =>
      if N.eqb c c_lbrack then
        match lazy_bracket_paren t with
        | Some (name, value, _) => Some (name, value)
        | None => None
        end
      else None
  | [] => None
  end.

Definition blank_line : str := [c_newline; c_newline].

(** The loop of [get_text] over the lines of the Markdown text. *)
Fixpoint page_lines (lines : list str) : list str :=
  match lines with
  | [] => []
  | line :: rest =>
      let stripped := strip line in
      match stripped with
      | [] => page_lines rest
      | _ => if is_sentence stripped
             then join (py " ") (split_ws stripped) :: page_lines rest
             else page_lines rest
      end
  end.

(** [result] of [get_text] before the slice [result[:8192]]. *)
Definition page_text (markdown_text : str) : str :=
  let lines := page_lines (splitlines markdown_text) in
  let result := py "[Start of page]" ++ blank_line ++ join blank_line lines
                ++ blank_line ++ py "[End of page]" in
  image_sub result.

Definition max_page_chars : nat := N.to_nat 8192.

(** ** Link validation *)

(** [re.search(r'/\d+$', path)]: '$' is the end of the text or the place
    before a final newline. *)
Definition ends_slash_digits (s : str) : bool :=
  let fix digits (seen : bool) (r : str) : bool :=
    match r with
    | [] => false
    | c :: t => if isdecimal c then digits true t
                else seen && N.eqb c c_slash
    end in
  digits false (rev s).

Definition search_numeric_tail (pth : str) : bool :=
  ends_slash_digits pth ||
  match rev pth with
  | c :: r => N.eqb c c_newline && ends_slash_digits (rev r)
  | [] => false
  end.

Definition image_extensions : list str :=
  [py ".jpg"; py ".jpeg"; py ".png"; py ".gif"; py ".bmp"; py ".tiff"; py ".webp"].
Definition metadata_extensions : list str :=
  [py ".ico"; py ".xml"; py ".json"; py ".rss"; py ".atom"].

Definition has_blocked_extension (url : str) : bool :=
  existsb (fun ext => endswith (lower url) ext)
          (image_extensions ++ metadata_extensions).

Context {K : NetlocChecks}.

Definition is_link_valid (url : str) : outcome bool :=
  if 64 <? length url then Ret false
  else
    match urlparse url with
    | Raise e => Raise e
    | Ret parsed_url =>
        match scheme parsed_url, netloc parsed_url with
        | [], _ | _, [] => Ret false
        | _, _ =>
            if search_numeric_tail (path parsed_url) then Ret false
            else if has_blocked_extension url then Ret false
            else Ret true
        end
    end.

End Text.

(** ** Effects: browser state and exceptions

    A method of [Browser] runs against the live browser: it reads and changes
    a state [W] and either returns or raises. *)

Definition M (W A : Type) : Type := W -> outcome A * W.

Definition ret {W A} (a : A) : M W A := fun w => (Ret a, w).
Definition raise {W A} (e : exn) : M W A := fun w => (Raise e, w).
Definition lift {W A} (o : outcome A) : M W A := fun w => (o, w).

Definition bind {W A B} (m : M W A) (k : A -> M W B) : M W B :=
  fun w =>
    match m w with
    | (Ret a, w') => k a w'
    | (Raise e, w') => (Raise e, w')
    end.

Notation "x <- m ;; k" := (bind m (fun x => k))
  (at level 61, m at next level, right associativity).
Notation "m ;;; k" := (bind m (fun _ => k))
  (at level 61, right associativity).

(** An [except] clause.  [ExceptUnbound] is a clause whose class name is not
    bound in the module: testing it raises NameError in place of the
    exception being handled. *)
Inductive clause (W A : Type) :=
| Except (cls : exn) (handler : exn -> M W A)
| ExceptUnbound.
Arguments Except {W A} cls handler.
Arguments ExceptUnbound {W A}.

Fixpoint select_clause {W A} (clauses : list (clause W A)) (e : exn)
  : option (M W A) :=
  match clauses with
  | [] => None
  | Except cls handler :: rest =>
      if isinstance e cls then Some (handler e) else select_clause rest e
  | ExceptUnbound :: _ => Some (raise NameError)
  end.

(** [try: body  except ...: ...] *)
Definition try_ {W A} (body : M W A) (clauses : list (clause W A)) : M W A :=
  fun w =>
    match body w with
    | (Ret a, w') => (Ret a, w')
    | (Raise e, w') =>
        match select_clause clauses e with
        | Some handler => handler w'
        | None => (Raise e, w')
        end
    end.

(** ** The Selenium driver *)

Inductive by_ := TAG_NAME | XPATH.

(** A WebElement handle. *)
Definition elem := nat.

(** One entry of the list the injected script find_inputs.js returns. *)
Record input_field := {
  field_text : str;
  field_xpath : str;
  field_type : option str;
  field_displayed : bool
}.

(** What [execute_script] hands back. *)
Inductive js_value :=
| JsNone
| JsString (s : str)
| JsInputs (l : list input_field).

Class Driver (W : Type) := {
  (* attribute of the Browser object *)
  js_scripts_folder : str;
  (* driver *)
  window_handles : M W unit;
  get : str -> M W unit;
  page_source : M W str;
  execute_script : str -> list elem -> M W js_value;
  find_elements : by_ -> str -> M W (list elem);
  find_element : by_ -> str -> M W elem;
  (* expected conditions, one evaluation *)
  element_to_be_clickable : by_ -> str -> M W (option elem);
  presence_of_element_located : by_ -> str -> M W (option elem);
  (* elements *)
  is_displayed : elem -> M W bool;
  is_enabled : elem -> M W bool;
  is_selected : elem -> M W bool;
  text : elem -> M W str;
  get_attribute : elem -> str -> M W (option str);
  click : elem -> M W unit;
  clear : elem -> M W unit;
  send_keys : elem -> str -> M W unit;
  (* open(path).read() *)
  read_file : str -> M W str;
  (* how many more polls of a WebDriverWait fit into a timeout *)
  polls : nat -> nat
}.

(** BeautifulSoup and markdownify: the page source with the script, style,
    noscript, meta and link elements removed, its body converted to
    Markdown.  Both are libraries; the conversion can raise. *)
Class Converter := {
  markdown_of_source : str -> outcome str
}.

Section Browser.
Context {U : Unicode} {K : NetlocChecks} {C : Converter} {W : Type} {D : Driver W}.

(** [WebDriverWait(driver, timeout).until(method)]: the condition is polled
    until it is truthy; NoSuchElementException is ignored; when the time is
    up TimeoutException is raised. *)
Fixpoint until_loop {A} (more : nat) (method : M W (option A)) : M W A :=
  fun w =>
    let again w' :=
      match more with
      | 0 => (Raise TimeoutException, w')
      | S n => until_loop n method w'
      end in
    match method w with
    | (Ret (Some a), w') => (Ret a, w')
    | (Ret None, w') => again w'
    | (Raise e, w') =>
        if isinstance e NoSuchElementException then again w' else (Raise e, w')
    end.

Definition until {A} (timeout : nat) (method : M W (option A)) : M W A :=
  until_loop (polls timeout) method.

(** *** load_js, apply_web_safety *)

Definition load_js (file_name : str) : M W str :=
  let path := js_scripts_folder ++ file_name in
  try_ (read_file path)
       [Except FileNotFoundError (fun _ => raise Exception);
        Except Exception (fun e => raise e)].

Definition apply_web_safety : M W unit :=
  script <- load_js (py "inject_safety_script.js") ;;
  execute_script script [] ;;;
  ret tt.

(** *** go_to *)

Definition challenge_keywords : list str :=
  [py "checking your browser"; py "verifying"; py "captcha"].

(** [any(keyword in driver.page_source.lower() for keyword in ...)]: the
    page source is read again for every keyword tried. *)
Fixpoint any_keyword (keywords : list str) : M W bool :=
  match keywords with
  | [] => ret false
  | keyword :: rest =>
      source <- page_source ;;
      if contains (lower source) keyword then ret true else any_keyword rest
  end.

Definition js_is_string (v : js_value) (s : str) : bool :=
  match v with
  | JsString t => str_eqb t s
  | _ => false
  end.

(** The condition [go_to] waits for. *)
Definition page_settled : M W (option unit) :=
  state <- execute_script (py "return document.readyState") [] ;;
  if js_is_string state (py "complete") then
    challenged <- any_keyword challenge_keywords ;;
    ret (if challenged then None else Some tt)
  else ret None.

Definition go_to_body (url : str) : M W bool :=
  window_handles ;;;
  get url ;;;
  until 30 page_settled ;;;
  apply_web_safety ;;;
  ret true.

Definition go_to (url : str) : M W bool :=
  try_ (go_to_body url)
       [Except TimeoutException (fun _ => ret false);
        Except WebDriverException (fun _ => ret false);
        Except Exception (fun e => raise e)].

(** *** get_text *)

Definition get_text : M W (option str) :=
  try_ (source <- page_source ;;
        markdown_text <- lift (markdown_of_source source) ;;
        ret (Some (firstn max_page_chars (page_text markdown_text))))
       [Except Exception (fun _ => ret None)].

(** *** get_navigable *)

Record link := {
  link_url : str;
  link_text : str;
  link_is_displayed : bool
}.

Definition nonempty (s : str) : bool :=
  match s with [] => false | _ => true end.

Fixpoint collect_links (elements : list elem) : M W (list link) :=
  match elements with
  | [] => ret []
  | element :: rest =>
      href <- get_attribute element (py "href") ;;
      match href with
      | Some h =>
          if nonempty h && (startswith h (py "http") || startswith h (py "https"))
          then
            t <- text element ;;
            d <- is_displayed element ;;
            links <- collect_links rest ;;
            ret ({| link_url := h; link_text := strip t;
                    link_is_displayed := d |} :: links)
          else collect_links rest
      | None => collect_links rest
      end
  end.

(** The list comprehension that ends [get_navigable]. *)
Fixpoint navigable_of (links : list link) : outcome (list str) :=
  match links with
  | [] => Ret []
  | l :: rest =>
      if link_is_displayed l then
        match is_link_valid (link_url l) with
        | Raise e => Raise e
        | Ret valid =>
            match navigable_of rest with
            | Raise e => Raise e
            | Ret urls => Ret (if valid then clean_url (link_url l) :: urls else urls)
            end
        end
      else navigable_of rest
  end.

Definition get_navigable : M W (list str) :=
  try_ (elements <- find_elements TAG_NAME (py "a") ;;
        links <- collect_links elements ;;
        lift (navigable_of links))
       [Except Exception (fun _ => ret [])].

(** *** click_element

    [self.wait] is [WebDriverWait(self.driver, 10)].  The module imports
    TimeoutException and WebDriverException only, so the inner clause
    [except ElementClickInterceptedException] names an unbound class. *)

Definition click_element (xpath : str) : M W bool :=
  try_ (element <- until 10 (element_to_be_clickable XPATH xpath) ;;
        displayed <- is_displayed element ;;
        if negb displayed then ret false
        else
          enabled <- is_enabled element ;;
          if negb enabled then ret false
          else
            try_ (execute_script
                    (py "arguments[0].scrollIntoView({block: 'center', behavior: 'smooth'});")
                    [element] ;;;
                  click element ;;;
                  ret true)
                 [ExceptUnbound])
       [Except TimeoutException (fun _ => ret false);
        Except Exception (fun _ => ret false)].

(** *** get_buttons_xpath *)

Definition button_xpath (i : nat) : str :=
  py "(//button | //input[@type='submit'])[" ++ str_of_nat (i + 1) ++ py "]".

(** The label of a button: its raw text, lowercased, every space removed
    ([.lower().replace(' ', '')]). *)
Definition button_label (raw : str) : str := remove_char c_space (lower raw).

Fixpoint scan_buttons (i : nat) (buttons : list elem) : M W (list (str * str)) :=
  match buttons with
  | [] => ret []
  | button :: rest =>
      displayed <- is_displayed button ;;
      enabled <- (if displayed then is_enabled button else ret false) ;;
      if negb displayed || negb enabled then scan_buttons (S i) rest
      else
        t <- text button ;;
        raw <- (if nonempty t then ret t
                else v <- get_attribute button (py "value") ;;
                     ret (match v with Some s => s | None => [] end)) ;;
        result <- scan_buttons (S i) rest ;;
        ret ((button_label raw, button_xpath i) :: result)
  end.

(** The raw label of a button as [scan_buttons] reads it off the page: its
    text, or its value attribute when the text is empty. *)
Definition reads_label (button : elem) (raw : str) : Prop :=
  exists w1 w2,
    (text button w1 = (Ret raw, w2) /\ nonempty raw = true) \/
    (text button w1 = (Ret [], w2) /\
     exists v w3, get_attribute button (py "value") w2 = (Ret v, w3) /\
                  raw = match v with Some s => s | None => [] end).

(** [button.text or button.get_attribute("value") or ""], as a step of the
    scan. *)
Definition raw_label (button : elem) : M W str :=
  t <- text button ;;
  if nonempty t then ret t
  else v <- get_attribute button (py "value") ;;
       ret (match v with Some s => s | None => [] end).

(** [result.sort(key=lambda x: len(x[0]))]: a stable sort. *)
Fixpoint insert_by_len (x : str * str) (l : list (str * str)) : list (str * str) :=
  match l with
  | [] => [x]
  | y :: r => if length (fst x) <=? length (fst y) then x :: y :: r
              else y :: insert_by_len x r
  end.

Definition sort_by_len (l : list (str * str)) : list (str * str) :=
  fold_right insert_by_len [] l.

Definition get_buttons_xpath : M W (list (str * str)) :=
  buttons <- find_elements TAG_NAME (py "button") ;;
  submits <- find_elements XPATH (py "//input[@type='submit']") ;;
  result <- scan_buttons 0 (buttons ++ submits) ;;
  ret (sort_by_len result).

(** *** find_and_click_btn, find_and_click_submission *)

Definition btn_matches (btn_type button_text : str) : bool :=
  contains (lower button_text) (lower btn_type).

Fixpoint click_first_match (btn_type : str) (timeout : nat)
  (buttons : list (str * str)) : M W bool :=
  match buttons with
  | [] => ret false
  | (button_text, xpath) :: rest =>
      if btn_matches btn_type button_text then
        try_ (until timeout (element_to_be_clickable XPATH xpath) ;;;
              clicked <- click_element xpath ;;
              if clicked then ret true else ret false)
             [Except TimeoutException (fun _ => ret false);
              Except Exception (fun _ => ret false)]
      else click_first_match btn_type timeout rest
  end.

Definition find_and_click_btn (btn_type : str) (timeout : nat) : M W bool :=
  buttons <- get_buttons_xpath ;;
  match buttons with
  | [] => ret false
  | _ => click_first_match btn_type timeout buttons
  end.

Definition possible_submissions : list str :=
  [py "login"; py "submit"; py "register"; py "calculate"; py "login";
   py "submit"; py "register"; py "calculate"; py "save"; py "send";
   py "continue"; py "apply"; py "ok"; py "confirm"; py "next"; py "proceed";
   py "accept"; py "agree"; py "yes"; py "no"; py "cancel";
   py "close"; py "done"; py "finish"; py "start"; py "calculate"].

(** [for submission in ...: if self.find_and_click_btn(submission, timeout):
    return True] and, after the loop, [return False]. *)
Fixpoint click_any (submissions : list str) (timeout : nat) : M W bool :=
  match submissions with
  | [] => ret false
  | submission :: rest =>
      clicked <- find_and_click_btn submission timeout ;;
      if clicked then ret true else click_any rest timeout
  end.

Definition find_and_click_submission (timeout : nat) : M W bool :=
  click_any possible_submissions timeout.

(** The vocabulary as the specification lists it. *)
Definition submission_vocabulary : list str :=
  [py "login"; py "submit"; py "register"; py "calculate"; py "save";
   py "send"; py "continue"; py "apply"; py "ok"; py "confirm"; py "next";
   py "proceed"; py "accept"; py "agree"; py "yes"; py "no"; py "cancel";
   py "close"; py "done"; py "finish"; py "start"].

(** [submitBestGuess] as the specification words it: each label of the
    vocabulary is tried once, in order. *)
Definition submit_best_guess_spec (timeout : nat) : M W bool :=
  click_any submission_vocabulary timeout.

(** *** find_all_inputs, find_input_xpath_by_name, fill_form_inputs *)

Definition find_all_inputs (timeout : nat) : M W js_value :=
  present <- try_ (until timeout (presence_of_element_located TAG_NAME (py "body")) ;;;
                   ret true)
                  [Except Exception (fun _ => ret false)] ;;
  if present then
    script <- load_js (py "find_inputs.js") ;;
    execute_script script []
  else ret (JsInputs []).

Fixpoint first_field (fields : list input_field) (name : str) : option str :=
  match fields with
  | [] => None
  | field :: rest =>
      if contains (field_text field) name then Some (field_xpath field)
      else first_field rest name
  end.

(** Iterating over something that is not the list of fields raises
    TypeError (an empty string has nothing to iterate over). *)
Definition find_input_xpath_by_name (inputs : js_value) (name : str)
  : outcome (option str) :=
  match inputs with
  | JsInputs fields => Ret (first_field fields name)
  | JsString [] => Ret None
  | _ => Raise TypeError
  end.

(** The body of the loop of [fill_form_inputs] for one instruction. *)
Definition fill_one (inputs : js_value) (input_str : str) : M W unit :=
  match match_fill_command input_str with
  | None => ret tt
  | Some (name, value) =>
      let name := strip name in
      let value := strip value in
      xpath <- lift (find_input_xpath_by_name inputs name) ;;
      match xpath with
      | None | Some [] => ret tt
      | Some xpath =>
          element <- find_element XPATH xpath ;;
          type_attr <- get_attribute element (py "type") ;;
          let input_type :=
            lower (match type_attr with
                   | Some (c :: t) => c :: t
                   | _ => py "text"
                   end) in
          if str_eqb input_type (py "checkbox") || str_eqb input_type (py "radio")
          then
            is_checked <- is_selected element ;;
            let should_be_checked := str_eqb (lower value) (py "checked") in
            if negb (Bool.eqb is_checked should_be_checked)
            then click element
            else ret tt
          else
            clear element ;;;
            send_keys element value
      end
  end.

Fixpoint fill_all (inputs : js_value) (input_list : list str) : M W unit :=
  match input_list with
  | [] => ret tt
  | input_str :: rest => fill_one inputs input_str ;;; fill_all inputs rest
  end.

Definition fill_form_inputs (input_list : list str) : M W bool :=
  inputs <- find_all_inputs 3 ;;
  try_ (fill_all inputs input_list ;;; ret true)
       [Except Exception (fun _ => ret false)].

End Browser.

(** ** A small browser

    An instance of the driver interface on which the methods run: a page is
    a list of elements in document order, a handle is a position in it, and
    one unit of time passes with every poll.  Clicking a checkbox toggles it,
    clicking a radio button selects it; [clear] empties the value of a
    control and [send_keys] appends to it. *)

Module Sim.

Record element := {
  el_tag : str;
  el_type : option str;        (* the type attribute *)
  el_href : option str;        (* the href attribute *)
  el_text : str;
  el_value : str;              (* the value property *)
  el_label : str;              (* the text find_inputs.js reports *)
  el_xpath : str;              (* the xpath find_inputs.js reports *)
  el_displayed : bool;
  el_enabled : bool;
  el_selected : bool;
  el_click_raises : option exn (* what a click on it raises *)
}.

Inductive event :=
| Loaded (url : str)
| Ran (script : str)
| Clicked (e : elem)
| Cleared (e : elem)
| Typed (e : elem) (keys : str).

Record world := {
  page : list element;
  source : str;
  clock : nat;
  ready_at : nat;              (* the time from which readyState is complete *)
  get_raises : option exn;     (* what driver.get raises *)
  files : list (str * str);
  events : list event
}.

Definition find_inputs_js : str := py "return findInputs(document);".
Definition safety_js : str := py "applySafety(window);".

Definition scripts : list (str * str) :=
  [(py "./sources/web_scripts/find_inputs.js", find_inputs_js);
   (py "./sources/web_scripts/inject_safety_script.js", safety_js)].

Definition with_page (w : world) (p : list element) : world :=
  {| page := p; source := source w; clock := clock w; ready_at := ready_at w;
     get_raises := get_raises w; files := files w; events := events w |}.

Definition tick (w : world) : world :=
  {| page := page w; source := source w; clock := S (clock w);
     ready_at := ready_at w; get_raises := get_raises w; files := files w;
     events := events w |}.

Definition record (ev : event) (w : world) : world :=
  {| page := page w; source := source w; clock := clock w;
     ready_at := ready_at w; get_raises := get_raises w; files := files w;
     events := events w ++ [ev] |}.

Definition with_selected (b : bool) (e : element) : element :=
  {| el_tag := el_tag e; el_type := el_type e; el_href := el_href e;
     el_text := el_text e; el_value := el_value e; el_label := el_label e;
     el_xpath := el_xpath e; el_displayed := el_displayed e;
     el_enabled := el_enabled e; el_selected := b;
     el_click_raises := el_click_raises e |}.

Definition with_value (v : str) (e : element) : element :=
  {| el_tag := el_tag e; el_type := el_type e; el_href := el_href e;
     el_text := el_text e; el_value := v; el_label := el_label e;
     el_xpath := el_xpath e; el_displayed := el_displayed e;
     el_enabled := el_enabled e; el_selected := el_selected e;
     el_click_raises := el_click_raises e |}.

Fixpoint update (i : nat) (f : element -> element) (p : list element)
  : list element :=
  match p, i with
  | [], _ => []
  | e :: r, 0 => f e :: r
  | e :: r, S j => e :: update j f r
  end.

(** The type attribute, lowercased: HTML reads it without regard to case. *)
Definition kind (e : element) : str :=
  match el_type e with
  | Some t => map ascii_lower_char t
  | None => []
  end.

Definition is_button (e : element) : bool := str_eqb (el_tag e) (py "button").
Definition is_submit (e : element) : bool :=
  str_eqb (el_tag e) (py "input") && str_eqb (kind e) (py "submit").

(** The positions of the elements that satisfy [p], in document order. *)
Fixpoint positions (p : element -> bool) (i : nat) (l : list element) : list elem :=
  match l with
  | [] => []
  | e :: r => if p e then i :: positions p (S i) r else positions p (S i) r
  end.

(** The element an XPath expression selects: the k-th of the buttons and
    submit inputs for [(//button | //input[@type='submit'])[k]], otherwise
    the first element that reports the expression as its own. *)
Fixpoint nth_button (xpath : str) (k : nat) (l : list elem) : option elem :=
  match l with
  | [] => None
  | i :: r => if str_eqb xpath (button_xpath k) then Some i
              else nth_button xpath (S k) r
  end.

Definition resolve (p : list element) (xpath : str) : option elem :=
  match nth_button xpath 0 (positions (fun e => is_button e || is_submit e) 0 p) with
  | Some i => Some i
  | None => hd_error (positions (fun e => str_eqb (el_xpath e) xpath) 0 p)
  end.

(** An operation on the element behind a handle; a handle that points at
    nothing is stale. *)
Definition on_element {A} (i : elem) (f : element -> M world A) : M world A :=
  fun w =>
    match nth_error (page w) i with
    | Some e => f e w
    | None => (Raise StaleElementReferenceException, w)
    end.

(** The page after a click on the element [e] at position [i]. *)
Definition toggled (i : elem) (e : element) (p : list element) : list element :=
  if str_eqb (kind e) (py "checkbox")
  then update i (with_selected (negb (el_selected e))) p
  else if str_eqb (kind e) (py "radio")
  then update i (with_selected true) p
  else p.

Definition do_click (i : elem) : M world unit :=
  on_element i (fun e w =>
    match el_click_raises e with
    | Some x => (Raise x, w)
    | None =>
        if negb (el_displayed e) then (Raise ElementNotInteractableException, w)
        else (Ret tt, record (Clicked i) (with_page w (toggled i e (page w))))
    end).

Definition editable (e : element) : bool := el_displayed e && el_enabled e.

Definition do_clear (i : elem) : M world unit :=
  on_element i (fun e w =>
    if editable e
    then (Ret tt, record (Cleared i) (with_page w (update i (with_value []) (page w))))
    else (Raise InvalidElementStateException, w)).

Definition do_send_keys (i : elem) (keys : str) : M world unit :=
  on_element i (fun e w =>
    if editable e
    then (Ret tt, record (Typed i keys)
                    (with_page w (update i (with_value (el_value e ++ keys)) (page w))))
    else (Raise ElementNotInteractableException, w)).

Definition field_of (e : element) : input_field :=
  {| field_text := el_label e; field_xpath := el_xpath e;
     field_type := el_type e; field_displayed := el_displayed e |}.

Definition fields_of (p : list element) : list input_field :=
  map field_of (filter (fun e => str_eqb (el_tag e) (py "input")) p).

Definition do_execute_script (script : str) (args : list elem) : M world js_value :=
  fun w =>
    if str_eqb script (py "return document.readyState") then
      (Ret (JsString (if ready_at w <=? clock w then py "complete" else py "loading")),
       tick w)
    else if str_eqb script find_inputs_js then
      (Ret (JsInputs (fields_of (page w))), record (Ran script) w)
    else (Ret JsNone, record (Ran script) w).

Definition do_find_elements (how : by_) (what : str) : M world (list elem) :=
  fun w =>
    match how with
    | TAG_NAME => (Ret (positions (fun e => str_eqb (el_tag e) what) 0 (page w)), w)
    | XPATH =>
        if str_eqb what (py "//input[@type='submit']")
        then (Ret (positions is_submit 0 (page w)), w)
        else (Ret (match resolve (page w) what with Some i => [i] | None => [] end), w)
    end.

Definition do_find_element (how : by_) (what : str) : M world elem :=
  fun w =>
    let found :=
      match how with
      | TAG_NAME => hd_error (positions (fun e => str_eqb (el_tag e) what) 0 (page w))
      | XPATH => resolve (page w) what
      end in
    match found with
    | Some i => (Ret i, w)
    | None => (Raise NoSuchElementException, w)
    end.

(** Selenium's condition: the element is located, displayed and enabled. *)
Definition do_clickable (how : by_) (what : str) : M world (option elem) :=
  fun w =>
    match do_find_element how what w with
    | (Ret i, _) =>
        match nth_error (page w) i with
        | Some e =>
            (Ret (if el_displayed e && el_enabled e then Some i else None), tick w)
        | None => (Ret None, tick w)
        end
    | (Raise x, _) => (Raise x, tick w)
    end.

(** The document always has a body; its handle lies past the listed
    elements. *)
Definition do_presence (how : by_) (what : str) : M world (option elem) :=
  fun w =>
    if str_eqb what (py "body") then (Ret (Some (length (page w))), tick w)
    else match do_find_element how what w with
         | (Ret i, _) => (Ret (Some i), tick w)
         | (Raise x, _) => (Raise x, tick w)
         end.

Definition do_get (url : str) : M world unit :=
  fun w =>
    match get_raises w with
    | Some x => (Raise x, w)
    | None => (Ret tt, record (Loaded url) w)
    end.

Definition do_get_attribute (i : elem) (name : str) : M world (option str) :=
  on_element i (fun e =>
    ret (if str_eqb name (py "href") then el_href e
         else if str_eqb name (py "type") then el_type e
         else if str_eqb name (py "value") then Some (el_value e)
         else None)).

Fixpoint lookup (k : str) (l : list (str * str)) : option str :=
  match l with
  | [] => None
  | (k', v) :: r => if str_eqb k k' then Some v else lookup k r
  end.

Definition do_read_file (path : str) : M world str :=
  fun w =>
    match lookup path (files w) with
    | Some content => (Ret content, w)
    | None => (Raise FileNotFoundError, w)
    end.

#[export] Instance driver : Driver world := {|
  js_scripts_folder := py "./sources/web_scripts/";
  window_handles := ret tt;
  get := do_get;
  page_source := fun w => (Ret (source w), w);
  execute_script := do_execute_script;
  find_elements := do_find_elements;
  find_element := do_find_element;
  element_to_be_clickable := do_clickable;
  presence_of_element_located := do_presence;
  is_displayed := fun i => on_element i (fun e => ret (el_displayed e));
  is_enabled := fun i => on_element i (fun e => ret (el_enabled e));
  is_selected := fun i => on_element i (fun e => ret (el_selected e));
  text := fun i => on_element i (fun e => ret (el_text e));
  get_attribute := do_get_attribute;
  click := do_click;
  clear := do_clear;
  send_keys := do_send_keys;
  read_file := do_read_file;
  polls := fun timeout => timeout
|}.

(** Markdown conversion of a source that is already plain text. *)
#[export] Instance plain_text : Converter := {|
  markdown_of_source := fun s => Ret s
|}.

(** A displayed, enabled element with nothing set. *)
Definition blank (tag : str) : element :=
  {| el_tag := tag; el_type := None; el_href := None; el_text := [];
     el_value := []; el_label := []; el_xpath := []; el_displayed := true;
     el_enabled := true; el_selected := false;
     el_click_raises := None |}.

Definition anchor (href : str) (txt : str) : element :=
  {| el_tag := py "a"; el_type := None; el_href := Some href; el_text := txt;
     el_value := []; el_label := []; el_xpath := []; el_displayed := true;
     el_enabled := true; el_selected := false;
     el_click_raises := None |}.

Definition button (txt : str) (raises : option exn) : element :=
  {| el_tag := py "button"; el_type := None; el_href := None; el_text := txt;
     el_value := []; el_label := []; el_xpath := []; el_displayed := true;
     el_enabled := true; el_selected := false;
     el_click_raises := raises |}.

Definition input (ty label xpath : str) (selected : bool) (value : str) : element :=
  {| el_tag := py "input"; el_type := Some ty; el_href := None; el_text := [];
     el_value := value; el_label := label; el_xpath := xpath;
     el_displayed := true; el_enabled := true; el_selected := selected;
     el_click_raises := None |}.

(** A loaded page with the two script files in place. *)
Definition loaded (p : list element) (src : str) : world :=
  {| page := p; source := src; clock := 0; ready_at := 0; get_raises := None;
     files := scripts; events := [] |}.

(** The browser after a step that leaves the page as [p] and records
    [evs]. *)
Definition advance (w : world) (p : list element) (evs : list event) : world :=
  {| page := p; source := source w; clock := clock w; ready_at := ready_at w;
     get_raises := get_raises w; files := files w; events := events w ++ evs |}.

(** A change to an element that leaves everything but its state alone. *)
Definition keeps_skeleton (f : element -> element) : Prop :=
  forall e, el_tag (f e) = el_tag e /\ el_type (f e) = el_type e /\
            el_label (f e) = el_label e /\ el_xpath (f e) = el_xpath e /\
            el_displayed (f e) = el_displayed e.

(** *** What one fill instruction does to a page

    The run of [fill_one] on this browser, as a function of the page alone:
    the outcome, the page afterwards and the events recorded. *)

Definition clicked (i : elem) (e : element) (p : list element)
  : outcome unit * list element * list event :=
  match el_click_raises e with
  | Some x => (Raise x, p, [])
  | None =>
      if negb (el_displayed e) then (Raise ElementNotInteractableException, p, [])
      else (Ret tt, toggled i e p, [Clicked i])
  end.

Definition typed (i : elem) (e : element) (value : str) (p : list element)
  : outcome unit * list element * list event :=
  if editable e
  then (Ret tt, update i (with_value value) p, [Cleared i; Typed i value])
  else (Raise InvalidElementStateException, p, []).

(** The type of a control as [fill_one] reads it. *)
Definition input_type_of {U : Unicode} (e : element) : str :=
  lower (match el_type e with
         | Some (c :: t) => c :: t
         | _ => py "text"
         end).

Definition is_boolean_control {U : Unicode} (e : element) : bool :=
  str_eqb (input_type_of e) (py "checkbox") || str_eqb (input_type_of e) (py "radio").

(** The state a fill value asks of a boolean control. *)
Definition requested {U : Unicode} (value : str) : bool :=
  str_eqb (lower value) (py "checked").

(** The control a label resolves to. *)
Definition target {U : Unicode} (name : str) (p : list element) : option (str * option elem) :=
  match first_field (fields_of p) name with
  | None | Some [] => None
  | Some xpath => Some (xpath, resolve p xpath)
  end.

Definition fill_run {U : Unicode} (input_str : str) (p : list element)
  : outcome unit * list element * list event :=
  match match_fill_command input_str with
  | None => (Ret tt, p, [])
  | Some (name, value) =>
      match target (strip name) p with
      | None => (Ret tt, p, [])
      | Some (_, None) => (Raise NoSuchElementException, p, [])
      | Some (_, Some i) =>
          match nth_error p i with
          | None => (Raise StaleElementReferenceException, p, [])
          | Some e =>
              if is_boolean_control e then
                if Bool.eqb (el_selected e) (requested (strip value))
                then (Ret tt, p, [])
                else clicked i e p
              else typed i e (strip value) p
          end
      end
  end.

(** What [fill_form_inputs] answers when its loop ends with [o]. *)
Definition answer (o : outcome unit) : outcome bool :=
  match o with
  | Ret _ => Ret true
  | Raise e => if isinstance e Exception then Ret false else Raise e
  end.

(** *** Pages used as examples *)

(** A form with a text field and a checkbox. *)
Definition signup_form : world :=
  loaded [input (py "email") (py "email") (py "//input[@id='email']") false (py "old");
          input (py "checkbox") (py "subscribe") (py "//input[@id='news']") false []]
         [].


(** A page whose text is one sentence with an image. *)
Definition image_page : world :=
  loaded [] (py "one two three four five ![logo](l.png)").

Definition image_page_text : str :=
  py "[Start of page]" ++ blank_line
  ++ py "one two three four five [IMAGE: logo]"
  ++ blank_line ++ py "[End of page]".

(** A page stuck on a verification screen. *)
Definition challenge_page : world :=
  loaded [] (py "<body><h1>Verifying you are human</h1></body>").

(** A browser whose [get] fails at the transport level. *)
Definition offline : world :=
  {| page := []; source := []; clock := 0; ready_at := 0;
     get_raises := Some WebDriverException; files := scripts; events := [] |}.

(** A loaded page, the script files missing. *)
Definition no_scripts : world :=
  {| page := []; source := py "<body>hello</body>"; clock := 0; ready_at := 0;
     get_raises := None; files := []; events := [] |}.

(** One button, hidden. *)
Definition hidden_button_page : world :=
  loaded [{| el_tag := py "button"; el_type := None; el_href := None;
             el_text := py "OK"; el_value := []; el_label := []; el_xpath := [];
             el_displayed := false; el_enabled := true; el_selected := false;
             el_click_raises := None |}] [].

(** One button; another element would receive the click. *)
Definition covered_button_page : world :=
  loaded [button (py "OK") (Some ElementClickInterceptedException)] [].

(** One button; the driver fails on the click. *)
Definition crashing_button_page : world :=
  loaded [button (py "OK") (Some WebDriverException)] [].

Definition register_page : world := loaded [button (py "Register Now") None] [].

Definition sign_up_page : world := loaded [button (py "Sign Up") None] [].

(** One displayed link to an image, with a fragment. *)
Definition gallery_page : world :=
  loaded [anchor (py "http://a.com/x.png#a") (py "picture")] [].

End Sim.

(** ** The rest of the browser module *)

(** *** get_form_inputs

    The method reads each entry of the list of find_inputs.js as a dict.
    The key "id" is not among the fields of [input_field]: [field_id] is
    that lookup.  [get_form_inputs] can raise one class the methods above
    never name, AttributeError. *)

Inductive raised :=
| Exn (e : exn)
| AttributeError.

Definition is_exception (r : raised) : bool :=
  match r with
  | Exn e => isinstance e Exception
  | AttributeError => true
  end.

(** [element.is_selected()] where [element] is a dict: a dict has no such
    attribute, the call raises AttributeError. *)
Definition dict_is_selected (element : input_field) : bool + raised :=
  inr AttributeError.

Definition unlisted_types : list str :=
  [py "hidden"; py "submit"; py "button"; py "image"].

Section Forms.
Context {U : Unicode} {W : Type} {D : Driver W}.
Variable field_id : input_field -> option str.

(** [element.get("type") or "text"] *)
Definition input_type_or_text (element : input_field) : str :=
  match field_type element with
  | Some (c :: t) => c :: t
  | _ => py "text"
  end.

(** [element.get("text") or element.get("id") or input_type] *)
Definition input_name_of (element : input_field) : str :=
  match field_text element with
  | c :: t => c :: t
  | [] =>
      match field_id element with
      | Some (c :: t) => c :: t
      | _ => input_type_or_text element
      end
  end.

(** The loop of [get_form_inputs]. *)
Fixpoint form_strings (input_elements : list input_field) : list str + raised :=
  match input_elements with
  | [] => inl []
  | element :: rest =>
      let input_type := input_type_or_text element in
      if existsb (str_eqb input_type) unlisted_types || negb (field_displayed element)
      then form_strings rest
      else
        let input_name := input_name_of element in
        let append (s : str) :=
          match form_strings rest with
          | inl l => inl (s :: l)
          | inr r => inr r
          end in
        if str_eqb input_type (py "checkbox") || str_eqb input_type (py "radio")
        then
          match dict_is_selected element with
          | inl selected =>
              append (py "[" ++ input_name ++ py "]("
                      ++ (if selected then py "checked" else py "unchecked")
                      ++ py ")")
          | inr r => if is_exception r then form_strings rest else inr r
          end
        else append (py "[" ++ input_name ++ py "]()")
  end.

Definition no_forms_message : str := py "No input forms found on the page.".

(** Iterating over a non-empty string gives strings, which have no [get]:
    AttributeError.  The outer clause [except Exception as e: raise e]
    hands on what it catches. *)
Definition get_form_inputs : W -> (list str + raised) * W :=
  fun w =>
    match find_all_inputs 3 w with
    | (Raise e, w') => (inr (Exn e), w')
    | (Ret input_elements, w') =>
        match input_elements with
        | JsNone | JsInputs [] | JsString [] => (inl [no_forms_message], w')
        | JsInputs (element :: rest) => (form_strings (element :: rest), w')
        | JsString (_ :: _) => (inr AttributeError, w')
        end
    end.

End Forms.

(** *** get_chrome_path, create_driver

    What the two functions read of the machine: [sys.platform], the
    environment variable LOCALAPPDATA, [os.path.join], [os.path.exists],
    [os.access(path, os.X_OK)] and [shutil.which("chromedriver")]; and the
    library calls of [create_driver], each of which can raise:
    [chrome_options.add_extension], [chromedriver_autoinstaller.install],
    [Service], [uc.Chrome], [stealth] and [webdriver.Chrome]. *)

(** A value of a Chrome option. *)
Inductive pref_value :=
| PInt (n : nat)
| PBool (b : bool).

Inductive option_value :=
| OBool (b : bool)
| OSwitches (l : list str)
| OPrefs (l : list (str * pref_value)).

(** The driver [create_driver] hands back, by what it was built from. *)
Record chrome := {
  binary_location : str;
  arguments : list str;
  extensions : list str;
  experimental_options : list (str * option_value);
  service_path : str;
  stealth_applied : bool
}.

Record host := {
  platform : str;
  localappdata : option str;
  path_join : str -> str -> str;
  path_exists : str -> bool;
  access_x : str -> bool;
  which_chromedriver : option str;
  autoinstall : outcome (option str);
  add_extension : str -> outcome unit;
  new_service : str -> outcome unit;
  start_undetected : chrome -> outcome unit;
  apply_stealth : chrome -> outcome unit;
  start_chrome : chrome -> outcome unit
}.

Definition chrome_candidates (h : host) : list str :=
  if startswith (platform h) (py "win") then
    [py "C:\Program Files\Google\Chrome\Application\chrome.exe";
     py "C:\Program Files (x86)\Google\Chrome\Application\chrome.exe";
     path_join h (match localappdata h with Some s => s | None => [] end)
                 (py "Google\Chrome\Application\chrome.exe")]
  else if startswith (platform h) (py "darwin") then
    [py "/Applications/Google Chrome.app/Contents/MacOS/Google Chrome";
     py "/Applications/Google Chrome Beta.app/Contents/MacOS/Google Chrome Beta"]
  else
    [py "/usr/bin/google-chrome"; py "/usr/bin/chromium-browser"; py "/usr/bin/chromium"].

Definition usable (h : host) (path : str) : bool :=
  path_exists h path && access_x h path.

Fixpoint first_usable (h : host) (paths : list str) : option str :=
  match paths with
  | [] => None
  | path :: rest => if usable h path then Some path else first_usable h rest
  end.

Definition get_chrome_path (h : host) : option str :=
  first_usable h (chrome_candidates h).

Definition security_prefs : option_value :=
  OPrefs [(py "profile.default_content_setting_values.media_stream", PInt 2);
          (py "profile.default_content_setting_values.geolocation", PInt 2);
          (py "safebrowsing.enabled", PBool true)].

Definition nonempty_path (o : option str) : option str :=
  match o with
  | Some (c :: t) => Some (c :: t)
  | _ => None
  end.

(** One statement after the other, the first exception ending the run. *)
Definition and_then {A B} (o : outcome A) (k : A -> outcome B) : outcome B :=
  match o with
  | Ret a => k a
  | Raise e => Raise e
  end.

Definition crx_path : str := py "./crx/nopecha.crx".

Definition chrome_arguments (headless : bool) : list str :=
  (if headless
   then [py "--headless"; py "--disable-gpu"; py "--disable-webgl"] else [])
  ++ [py "--no-sandbox"; py "--disable-dev-shm-usage";
      py "--autoplay-policy=user-gesture-required"; py "--mute-audio";
      py "--disable-notifications"; py "--window-size=1080,560"].

Definition create_driver (h : host) (headless stealth_mode : bool) : outcome chrome :=
  match nonempty_path (get_chrome_path h) with
  | None => Raise FileNotFoundError
  | Some chrome_path =>
      and_then
        (if negb stealth_mode then
           if negb (path_exists h crx_path) then Raise FileNotFoundError
           else and_then (add_extension h crx_path) (fun _ => Ret [crx_path])
         else Ret [])
        (fun exts =>
      and_then
        (match nonempty_path (which_chromedriver h) with
         | Some pth => Ret (Some pth)
         | None => and_then (autoinstall h) (fun o => Ret (nonempty_path o))
         end)
        (fun chromedriver_path =>
      match chromedriver_path with
      | None => Raise FileNotFoundError
      | Some pth =>
          and_then (new_service h pth) (fun _ =>
          if stealth_mode then
            let options :=
              {| binary_location := chrome_path;
                 arguments := chrome_arguments headless;
                 extensions := exts; experimental_options := [];
                 service_path := pth; stealth_applied := false |} in
            and_then (start_undetected h options) (fun _ =>
            and_then (apply_stealth h options) (fun _ =>
            Ret {| binary_location := chrome_path;
                   arguments := chrome_arguments headless;
                   extensions := exts; experimental_options := [];
                   service_path := pth; stealth_applied := true |}))
          else
            let options :=
              {| binary_location := chrome_path;
                 arguments := chrome_arguments headless;
                 extensions := exts;
                 experimental_options :=
                   [(py "prefs", security_prefs);
                    (py "excludeSwitches", OSwitches [py "enable-automation"]);
                    (py "useAutomationExtension", OBool false)];
                 service_path := pth; stealth_applied := false |} in
            and_then (start_chrome h options) (fun _ => Ret options))
      end))
  end.

(** [e] is what one of the library calls of [create_driver] raised. *)
Definition raised_by_library (h : host) (e : exn) : Prop :=
  add_extension h crx_path = Raise e \/ autoinstall h = Raise e \/
  (exists pth, new_service h pth = Raise e) \/
  (exists options, start_undetected h options = Raise e \/
                   apply_stealth h options = Raise e \/
                   start_chrome h options = Raise e).

(** ** The provider module ([sources/llm_provider.py])

    The methods of [Provider] raise and translate exceptions by class and
    read their text, so an exception here is a class with its message. *)

Module Provider.

Inductive cls :=
| BaseException
| KeyboardInterrupt
| Exception
| ValueError
| TypeError
| AttributeError
| LookupError
| KeyError
| IndexError
| RuntimeError
| NotImplementedError
| RecursionError
| OSError
| ConnectionError
| ConnectionResetError
| RemoteDisconnected       (* http.client *)
| RequestException         (* requests.exceptions *)
| TimeoutExpired           (* subprocess *)
| ConnectError             (* httpx *)
| ResponseError            (* ollama *)
| NameError
| UnboundLocalError
| ImportError
| DeepSeekError            (* dsk.api, as the classes below *)
| AuthenticationError
| RateLimitError
| NetworkError
| CloudflareError
| APIError.

Definition base (c : cls) : option cls :=
  match c with
  | BaseException => None
  | KeyboardInterrupt | Exception => Some BaseException
  | ValueError | TypeError | AttributeError | LookupError | RuntimeError
  | OSError | TimeoutExpired | ConnectError | ResponseError
  | NameError | ImportError | DeepSeekError => Some Exception
  | UnboundLocalError => Some NameError
  | AuthenticationError | RateLimitError | NetworkError | CloudflareError
  | APIError => Some DeepSeekError
  | KeyError | IndexError => Some LookupError
  | NotImplementedError | RecursionError => Some RuntimeError
  | ConnectionError | RequestException => Some OSError
  | ConnectionResetError => Some ConnectionError
  | RemoteDisconnected => Some ConnectionResetError
  end.

Definition cls_eqb (a b : cls) : bool :=
  match a, b with
  | BaseException, BaseException | KeyboardInterrupt, KeyboardInterrupt
  | Exception, Exception | ValueError, ValueError | TypeError, TypeError
  | AttributeError, AttributeError | LookupError, LookupError
  | KeyError, KeyError | IndexError, IndexError | RuntimeError, RuntimeError
  | NotImplementedError, NotImplementedError | RecursionError, RecursionError
  | OSError, OSError | ConnectionError, ConnectionError
  | ConnectionResetError, ConnectionResetError
  | RemoteDisconnected, RemoteDisconnected
  | RequestException, RequestException | TimeoutExpired, TimeoutExpired
  | ConnectError, ConnectError | ResponseError, ResponseError
  | NameError, NameError | UnboundLocalError, UnboundLocalError
  | ImportError, ImportError | DeepSeekError, DeepSeekError
  | AuthenticationError, AuthenticationError | RateLimitError, RateLimitError
  | NetworkError, NetworkError | CloudflareError, CloudflareError
  | APIError, APIError => true
  | _, _ => false
  end.

Fixpoint subclass_fuel (fuel : nat) (c sup : cls) : bool :=
  cls_eqb c sup ||
  match fuel, base c with
  | S f, Some b => subclass_fuel f b sup
  | _, _ => false
  end.

Definition issubclass (c sup : cls) : bool := subclass_fuel 5 c sup.
Arguments issubclass : simpl never.

(** A raised exception: its class, [str(e)], and the status code an
    ollama.ResponseError carries. *)
Record error := {
  kind : cls;
  message : str;
  status_code : nat
}.

Definition err (c : cls) (msg : str) : error :=
  {| kind := c; message := msg; status_code := 0 |}.

(** [isinstance(e, sup)] *)
Definition is_a (e : error) (sup : cls) : bool := issubclass (kind e) sup.

Inductive result (A : Type) :=
| Ok (a : A)
| Err (e : error).
Arguments Ok {A} a.
Arguments Err {A} e.

(** [s.replace(old, '')]: the occurrences of [old], left to right and not
    overlapping, are dropped.  [skip] counts the characters of an occurrence
    still to drop. *)
Fixpoint remove_from (old : str) (skip : nat) (s : str) : str :=
  match s with
  | [] => []
  | c :: t =>
      match skip with
      | S k => remove_from old k t
      | 0 => if startswith s old then remove_from old (length old - 1) t
             else c :: remove_from old 0 t
      end
  end.

Definition remove_all (old : str) (s : str) : str := remove_from old 0 s.

(** [s.rsplit(sep, 1)] for a one-character separator. *)
Definition rsplit1 (sep : char) (s : str) : list str :=
  match split1 sep (rev s) with
  | [after_; before_] => [rev before_; rev after_]
  | _ => [s]
  end.

Definition hex_chars : str := py ".:abcdef0123456789".
Definition port_message : str := py "Port must be a number between 0 and 65535.".

Section Address.
Context {U : Unicode}.
(** [ipaddress.ip_address] and [int]: both raise ValueError, or return. *)
Variable ip_address : str -> result unit.
Variable to_int : str -> result N.

(** [s.isdigit()] *)
Definition str_isdigit (s : str) : bool :=
  match s with
  | [] => false
  | _ => forallb isdigit s
  end.

(** The body of the [try] of [check_address_format], for the address with
    "http://" removed. *)
Definition check_parts (address : str) : result unit :=
  match rsplit1 c_colon address with
  | [ip; port] =>
      let checked_ip :=
        if forallb (fun c => contains hex_chars (lower [c])) ip
        then ip_address ip else Ok tt in
      match checked_ip with
      | Err e => Err e
      | Ok _ =>
          if negb (str_isdigit port) then Err (err ValueError port_message)
          else match to_int port with
               | Err e => Err e
               | Ok n => if N.leb n 65535 then Ok tt
                         else Err (err ValueError port_message)
               end
      end
  | _ => Err (err ValueError (py "not enough values to unpack (expected 2, got 1)"))
  end.

Definition check_address_format (address : str) : result str :=
  let address := remove_all (py "http://") address in
  match check_parts address with
  | Ok _ => Ok address
  | Err e =>
      if is_a e ValueError
      then Err (err Exception (py "Invalid address format: " ++ message e
                               ++ py ". Is port specified?"))
      else Err e
  end.

(** *** is_ip_online *)

(** [platform.system()], and the return code of
    [subprocess.run(command, ..., timeout=15)]. *)
Variable system : str.
Variable run : list str -> result nat.

Definition is_ip_online (ip : str) : result bool :=
  if str_eqb ip (py "127.0.0.1") then Ok true
  else
    let param := if str_eqb (lower system) (py "windows") then py "-n" else py "-c" in
    let command := [py "ping"; param; py "1"; ip] in
    match run command with
    | Ok returncode => Ok (Nat.eqb returncode 0)
    | Err e =>
        if is_a e TimeoutExpired then Ok false
        else if is_a e Exception then Ok false
        else Err e
    end.

(** *** Provider.__init__ *)

Record provider := {
  provider_name : str;
  model : str;
  is_local : bool;
  server_ip : str;
  api_key : option str
}.

Definition available_providers : list str :=
  [py "ollama"; py "server"; py "openai"; py "lm-studio"; py "huggingface";
   py "deepseek"; py "dsk_deepseek"; py "test"].

Definition unsafe_providers : list str :=
  [py "openai"; py "deepseek"; py "dsk_deepseek"].

Definition member (s : str) (l : list str) : bool := existsb (str_eqb s) l.

(** [self.get_api_key(provider)]: the environment, the .env file and the
    prompt are outside. *)
Variable get_api_key : str -> result str.

Definition init (name model_ server_address : str) (local : bool) : result provider :=
  let lowered := lower name in
  match check_address_format server_address with
  | Err e => Err e
  | Ok ip =>
      if negb (member lowered available_providers)
      then Err (err ValueError (py "Unknown provider: " ++ name))
      else
        let key :=
          if member lowered unsafe_providers
          then match get_api_key lowered with
               | Ok k => Ok (Some k)
               | Err e => Err e
               end
          else Ok None in
        match key with
        | Err e => Err e
        | Ok k =>
            match check_address_format ip with
            | Err e => Err e
            | Ok _ =>
                match is_ip_online (hd [] (split c_colon ip)) with
                | Err e => Err e
                | Ok true =>
                    Ok {| provider_name := lowered; model := model_;
                          is_local := local; server_ip := ip; api_key := k |}
                | Ok false =>
                    Err (err Exception (py "Server at " ++ ip ++ py " is offline."))
                end
            end
        end
  end.

(** *** respond *)

(** [llm] is what the backend chosen by [provider_name] did with the
    history: it returned a text or raised. *)
Definition respond (self : provider) (llm : result str) : result str :=
  match llm with
  | Ok thought => Ok thought
  | Err e =>
      if is_a e KeyboardInterrupt
      then Ok (py "Operation interrupted by user. REQUEST_EXIT")
      else if is_a e ConnectionError
      then Err (err ConnectionError
                  (message e ++ [c_newline] ++ py "Connection to "
                   ++ server_ip self ++ py " failed."))
      else if is_a e AttributeError
      then Err (err NotImplementedError
                  (message e ++ [c_newline] ++ py "Is " ++ provider_name self
                   ++ py " implemented ?"))
      else if is_a e Exception
      then if contains (message e) (py "RemoteDisconnected")
           then Ok (server_ip self ++ py " seem offline. RemoteDisconnected error.")
           else Err (err Exception (py "Provider " ++ provider_name self
                                    ++ py " failed: " ++ message e))
      else Err e
  end.

(** *** lm_studio_fn *)

(** A decoded JSON document; a dict keeps its entries in order. *)
#[warnings="-register-all"]
Inductive json :=
| JNull
| JBool (b : bool)
| JNum (n : nat)
| JStr (s : str)
| JList (l : list json)
| JDict (d : list (str * json)).

Fixpoint dict_find (key : str) (d : list (str * json)) : option json :=
  match d with
  | [] => None
  | (k, v) :: rest => if str_eqb k key then Some v else dict_find key rest
  end.

(** [v.get(key, default)]: only a dict has [get]. *)
Definition get_or (v : json) (key : str) (default : json) : result json :=
  match v with
  | JDict d => Ok (match dict_find key d with Some x => x | None => default end)
  | _ => Err (err AttributeError (py "object has no attribute 'get'"))
  end.

(** [v[0]] *)
Definition first_item (v : json) : result json :=
  match v with
  | JList (x :: _) => Ok x
  | JList [] => Err (err IndexError (py "list index out of range"))
  | JStr (c :: _) => Ok (JStr [c])
  | JStr [] => Err (err IndexError (py "string index out of range"))
  | JDict _ => Err (err KeyError (py "0"))
  | _ => Err (err TypeError (py "object is not subscriptable"))
  end.

(** [result.get("choices", [{}])[0].get("message", {}).get("content", "")] *)
Definition content_of (response : json) : result json :=
  match get_or response (py "choices") (JList [JDict []]) with
  | Err e => Err e
  | Ok choices =>
      match first_item choices with
      | Err e => Err e
      | Ok choice =>
          match get_or choice (py "message") (JDict []) with
          | Err e => Err e
          | Ok msg => get_or msg (py "content") (JStr [])
          end
      end
  end.

(** [post] is [requests.post(route_start, json=payload)] followed by
    [response.json()]. *)
Definition lm_studio_fn (self : provider) (post : result json) : result json :=
  match is_ip_online (hd [] (split c_colon (server_ip self))) with
  | Err e => Err e
  | Ok false => Err (err Exception (py "Server is offline at " ++ server_ip self))
  | Ok true =>
      let body :=
        match post with
        | Err e => Err e
        | Ok response => content_of response
        end in
      match body with
      | Ok v => Ok v
      | Err e =>
          if is_a e RequestException
          then Err (err Exception (py "HTTP request failed: " ++ message e))
          else if is_a e Exception
          then Err (err Exception (py "An error occurred: " ++ message e))
          else Err e
      end
  end.

(** *** ollama_fn *)

(** [chat k] is the k-th call of [ollama.chat] with its stream read to the
    end: the contents of the chunks, or what was raised.  [pull k] is the
    download that follows a failed k-th call.  [depth] is the room left on
    the call stack. *)
Variable chat : nat -> result (list str).
Variable pull : nat -> result unit.

Fixpoint ollama_fn (depth : nat) (call : nat) : result str :=
  match depth with
  | 0 => Err (err RecursionError (py "maximum recursion depth exceeded"))
  | S d =>
      match chat call with
      | Ok chunks => Ok (concat chunks)
      | Err e =>
          if is_a e ConnectError
          then Err (err Exception
                      ([c_newline] ++ py "Ollama connection failed. provider should not be set to ollama if server address is not localhost"))
          else if is_a e ResponseError
          then
            let retried :=
              if Nat.eqb (status_code e) 404
              then match pull call with
                   | Err e' => Err e'
                   | Ok _ =>
                       match ollama_fn d (S call) with
                       | Err e' => Err e'
                       | Ok _ => Ok tt
                       end
                   end
              else Ok tt in
            match retried with
            | Err e' => Err e'
            | Ok _ =>
                if contains (lower (message e)) (py "refused")
                then Err (err Exception
                            (py "Ollama connection failed. is the server running ?"))
                else Err e
            end
          else Err e
      end
  end.

(** *** server_fn *)

(** [key in v] *)
Definition has_member (key : str) (v : json) : result bool :=
  match v with
  | JDict d => Ok (match dict_find key d with Some _ => true | None => false end)
  | JList l => Ok (existsb (fun x => match x with
                                     | JStr s => str_eqb s key
                                     | _ => false
                                     end) l)
  | JStr s => Ok (contains s key)
  | _ => Err (err TypeError (py "argument is not iterable"))
  end.

(** [v[key]] for a string [key]; the text of a KeyError is the key in
    quotes. *)
Definition subscript (v : json) (key : str) : result json :=
  match v with
  | JDict d =>
      match dict_find key d with
      | Some x => Ok x
      | None => Err (err KeyError (py "'" ++ key ++ py "'"))
      end
  | JList _ => Err (err TypeError (py "list indices must be integers or slices, not str"))
  | JStr _ => Err (err TypeError (py "string indices must be integers, not 'str'"))
  | _ => Err (err TypeError (py "object is not subscriptable"))
  end.

(** [bool(v)] *)
Definition truthy (v : json) : bool :=
  match v with
  | JNull => false
  | JBool b => b
  | JNum n => negb (Nat.eqb n 0)
  | JStr [] | JList [] | JDict [] => false
  | _ => true
  end.

(** The two POST requests, the k-th GET of /get_updated_sentence with its
    body decoded, and [pretty_print] on the value of "error". *)
Variable post_setup : result unit.
Variable post_generate : result unit.
Variable get_update : nat -> result json.
Variable pretty_print : json -> result unit.

(** The [while] loop from its k-th round on; None when [fuel] rounds were
    not enough to leave it. *)
Fixpoint server_loop (fuel : nat) (k : nat) (thought : json) : option (result json) :=
  match fuel with
  | 0 => None
  | S f =>
      match get_update k with
      | Err e => Some (Err e)
      | Ok response =>
          match has_member (py "error") response with
          | Err e => Some (Err e)
          | Ok true =>
              match subscript response (py "error") with
              | Err e => Some (Err e)
              | Ok text =>
                  match pretty_print text with
                  | Err e => Some (Err e)
                  | Ok _ => Some (Ok thought)
                  end
              end
          | Ok false =>
              match subscript response (py "sentence") with
              | Err e => Some (Err e)
              | Ok sentence =>
                  match subscript response (py "is_complete") with
                  | Err e => Some (Err e)
                  | Ok complete =>
                      if truthy complete then Some (Ok sentence)
                      else server_loop f (S k) sentence
                  end
              end
          end
      end
  end.

Definition server_fn (self : provider) (fuel : nat) : option (result json) :=
  match is_ip_online (hd [] (split c_colon (server_ip self))) with
  | Err e => Some (Err e)
  | Ok false => Some (Err (err Exception (py "Server is offline at " ++ server_ip self)))
  | Ok true =>
      let body :=
        match post_setup with
        | Err e => Some (Err e)
        | Ok _ =>
            match post_generate with
            | Err e => Some (Err e)
            | Ok _ => server_loop fuel 0 (JStr [])
            end
        end in
      match body with
      | Some (Err e) =>
          if is_a e KeyError
          then Some (Err (err Exception
                            (message e ++ [c_newline]
                             ++ py "Error occured with server route. Are you using the correct address for the config.ini provider?")))
          else Some (Err e)
      | other => other
      end
  end.

(** *** dsk_deepseek *)

(** The import of dsk.api inside the method, and what creating the API
    object and the chat session and reading the completion of a message to
    its end gave: the chunks, each with its 'type' and its 'content'.
    [unbound_text] is the text of the UnboundLocalError for a local name
    read before it is bound. *)
Variable import_dsk : result unit.
Variable completion : str -> result (list (str * str)).
Variable unbound_text : str.

(** ['\n---\n'.join(f"{msg['role']}: {msg['content']}" for msg in history)] *)
Definition history_message (history : list (str * str)) : str :=
  join ([c_newline] ++ py "---" ++ [c_newline])
       (map (fun msg => fst msg ++ py ": " ++ snd msg) history).

Definition text_of_chunks (chunks : list (str * str)) : str :=
  concat (map snd (filter (fun chunk => str_eqb (fst chunk) (py "text")) chunks)).

(** In the clauses that do not bind [e], [raise ... from e] reads the local
    name [e] unbound. *)
Definition dsk_deepseek (history : list (str * str)) : result str :=
  match import_dsk with
  | Err e => Err e
  | Ok _ =>
      match completion (history_message history) with
      | Ok chunks => Ok (text_of_chunks chunks)
      | Err e =>
          if is_a e AuthenticationError then Err (err UnboundLocalError unbound_text)
          else if is_a e RateLimitError then Err (err UnboundLocalError unbound_text)
          else if is_a e CloudflareError
          then Err (err CloudflareError
                      (py "Cloudflare protection encountered: " ++ message e))
          else if is_a e NetworkError then Err (err UnboundLocalError unbound_text)
          else if is_a e APIError
          then Err (err APIError (py "API error occurred: " ++ message e))
          else Err e
      end
  end.

End Address.

(** *** Instances used as examples *)

(** Decimal value of a string of ASCII digits. *)
Fixpoint decimal (acc : N) (s : str) : N :=
  match s with
  | [] => acc
  | c :: t => decimal (acc * 10 + (c - 48)) t
  end.

Definition ascii_int (s : str) : result N :=
  if forallb ascii_isdigit s && negb (match s with [] => true | _ => false end)
  then Ok (decimal 0 s)
  else Err (err ValueError (py "invalid literal for int() with base 10")).

(** An address checker that knows two addresses. *)
Definition two_addresses (ip : str) : result unit :=
  if str_eqb ip (py "127.0.0.1") || str_eqb ip (py "192.168.1.20") then Ok tt
  else Err (err ValueError (py "does not appear to be an IPv4 or IPv6 address")).

(** A network in which every ping is answered. *)
Definition all_online (command : list str) : result nat := Ok 0.

(** A network in which no ping returns in time. *)
Definition all_silent (command : list str) : result nat :=
  Err (err TimeoutExpired (py "timed out after 15 seconds")).

Definition no_key (name : str) : result str := Ok (py "sk-test").

End Provider.

(** ** More pages and browsers used as examples *)

Module Pages.
Import Sim.

(** The small browser with two of its operations replaced. *)
Definition variant
  (presence : by_ -> str -> M world (option elem))
  (finder : by_ -> str -> M world (list elem)) : Driver world := {|
  js_scripts_folder := @js_scripts_folder _ driver;
  window_handles := @window_handles _ driver;
  get := @get _ driver;
  page_source := @page_source _ driver;
  execute_script := @execute_script _ driver;
  find_elements := finder;
  find_element := @find_element _ driver;
  element_to_be_clickable := @element_to_be_clickable _ driver;
  presence_of_element_located := presence;
  is_displayed := @is_displayed _ driver;
  is_enabled := @is_enabled _ driver;
  is_selected := @is_selected _ driver;
  text := @text _ driver;
  get_attribute := @get_attribute _ driver;
  click := @click _ driver;
  clear := @clear _ driver;
  send_keys := @send_keys _ driver;
  read_file := @read_file _ driver;
  polls := @polls _ driver
|}.

(** A document whose body never shows up. *)
Definition bodyless : Driver world :=
  variant (fun _ _ w => (Ret None, tick w)) do_find_elements.

(** A browser that has crashed: listing elements fails. *)
Definition crashed : Driver world :=
  variant do_presence (fun _ _ w => (Raise WebDriverException, w)).

(** A good link and a link whose host has an unbalanced bracket. *)
Definition bracket_page : world :=
  loaded [anchor (py "http://a.com/page?q=1") (py "page");
          anchor (py "http://[a") (py "broken")] [].

(** A page of several links. *)
Definition links_page : world :=
  loaded [anchor (py "http://a.com/page?q=1&utm=2#top") (py "page");
          anchor (py "mailto:me@a.com") (py "mail");
          anchor (py "https://a.com/item/12") (py "item")] [].

(** A form whose second field is disabled. *)
Definition locked_form : world :=
  loaded [input (py "text") (py "first name") (py "//input[1]") false [];
          {| el_tag := py "input"; el_type := Some (py "text"); el_href := None;
             el_text := []; el_value := py "fixed"; el_label := py "account";
             el_xpath := py "//input[2]"; el_displayed := true;
             el_enabled := false; el_selected := false;
             el_click_raises := None |};
          input (py "text") (py "city") (py "//input[3]") false []] [].

(** Three buttons, the longest label first. *)
Definition buttons_page : world :=
  loaded [button (py "Submit order") None; button (py "Next") None;
          button (py "Back") None] [].

(** A form of a text field, a checkbox, a hidden field and a password. *)
Definition mixed_fields : list input_field :=
  [{| field_text := py "email"; field_xpath := py "//input[1]";
      field_type := Some (py "email"); field_displayed := true |};
   {| field_text := py "subscribe"; field_xpath := py "//input[2]";
      field_type := Some (py "checkbox"); field_displayed := true |};
   {| field_text := py "token"; field_xpath := py "//input[3]";
      field_type := Some (py "hidden"); field_displayed := true |};
   {| field_text := []; field_xpath := py "//input[4]";
      field_type := Some (py "password"); field_displayed := true |}].

(** A Linux machine with Chromium and a chromedriver on the PATH. *)
Definition linux_box : host := {|
  platform := py "linux";
  localappdata := None;
  path_join := fun a b => a ++ py "/" ++ b;
  path_exists := fun p => str_eqb p (py "/usr/bin/chromium")
                          || str_eqb p (py "/usr/bin/google-chrome");
  access_x := fun p => str_eqb p (py "/usr/bin/chromium");
  which_chromedriver := Some (py "/usr/bin/chromedriver");
  autoinstall := Ret None;
  add_extension := fun _ => Ret tt;
  new_service := fun _ => Ret tt;
  start_undetected := fun _ => Ret tt;
  apply_stealth := fun _ => Ret tt;
  start_chrome := fun _ => Ret tt
|}.

(** The same machine with a Chrome that does not start. *)
Definition broken_chrome : host := {|
  platform := platform linux_box;
  localappdata := localappdata linux_box;
  path_join := path_join linux_box;
  path_exists := path_exists linux_box;
  access_x := access_x linux_box;
  which_chromedriver := which_chromedriver linux_box;
  autoinstall := autoinstall linux_box;
  add_extension := add_extension linux_box;
  new_service := new_service linux_box;
  start_undetected := fun _ => Raise WebDriverException;
  apply_stealth := apply_stealth linux_box;
  start_chrome := fun _ => Raise WebDriverException
|}.

(** A hidden submit input ahead of two buttons that both read "login".
    [get_buttons_xpath] numbers the buttons before the submit inputs, the
    XPath expression numbers all of them in document order: the expression
    stored for the first button selects the hidden input. *)
Definition two_logins : world :=
  loaded [{| el_tag := py "input"; el_type := Some (py "submit"); el_href := None;
             el_text := []; el_value := py "Go"; el_label := []; el_xpath := [];
             el_displayed := false; el_enabled := true; el_selected := false;
             el_click_raises := None |};
          button (py "Login") None; button (py "Login now") None] [].


(** Checks that refuse every host in brackets and every network location
    that is not ASCII.  The links of the examples have neither. *)
Definition plain_hosts : NetlocChecks := {|
  bracketed_host_allowed := fun _ => false;
  normalized_netloc_allowed := fun _ => false
|}.

(** A conversion to Markdown that fails on every source. *)
Definition unparsable : Converter := {|
  markdown_of_source := fun _ => Raise Exception
|}.

End Pages.

(** ** Predicates used in the statements *)




(** The order of the candidates of [get_buttons_xpath]: by label length. *)
Definition shorter_label (a b : str * str) : Prop := length (fst a) <= length (fst b).

(** The fields [get_form_inputs] reports: displayed, and of a type that is
    neither left out by name nor read as a checkbox or radio button. *)
Definition is_listed (element : input_field) : bool :=
  negb (existsb (str_eqb (input_type_or_text element))
          (unlisted_types ++ [py "checkbox"; py "radio"]))
  && field_displayed element.


(** An answer of /get_updated_sentence that keeps the loop of [server_fn]
    going, and one that ends it: no "error", a sentence, and "is_complete"
    falsy or truthy. *)
Definition update_with (complete : bool) (v sentence : Provider.json) : Prop :=
  Provider.has_member (py "error") v = Provider.Ok false /\
  Provider.subscript v (py "sentence") = Provider.Ok sentence /\
  exists c, Provider.subscript v (py "is_complete") = Provider.Ok c /\
            Provider.truthy c = complete.

Definition pending_update : Provider.json -> Provider.json -> Prop := update_with false.
Definition final_update : Provider.json -> Provider.json -> Prop := update_with true.

(** A server that answers twice with a part of the text, then with all
    of it. *)
Definition three_updates (k : nat) : Provider.result Provider.json :=
  Provider.Ok
    (Provider.JDict
       [(py "sentence",
         Provider.JStr (match k with
                        | 0 => py "Hel"
                        | 1 => py "Hello wor"
                        | _ => py "Hello world"
                        end));
        (py "is_complete", Provider.JBool (2 <=? k))]).

(** The sentences of [three_updates]. *)
Definition three_sentences (k : nat) : Provider.json :=
  Provider.JStr (match k with
                 | 0 => py "Hel"
                 | 1 => py "Hello wor"
                 | _ => py "Hello world"
                 end).


(* ================================================================== *)
(** * Part II: properties                                             *)
(* ================================================================== *)

(** ** Strings *)

Lemma str_eqb_eq (a b : str) : str_eqb a b = true <-> a = b.
Proof.
  revert b. induction a as [| x a IH]; intros [| y b]; cbn [str_eqb];
    try (split; discriminate); [tauto |].
  rewrite andb_true_iff, N.eqb_eq, IH. split; [intros [-> ->] | intros [= -> ->]]; auto.
Qed.

Lemma has_char_false_iff (c : char) (s : str) :
  has_char c s = false <-> ~ In c s.
Proof.
  unfold has_char. split.
  - intros H Hin. assert (existsb (N.eqb c) s = true) as E.
    { apply existsb_exists. exists c. split; [assumption | apply N.eqb_refl]. }
    congruence.
  - intros H. destruct (existsb (N.eqb c) s) eqn:E; [| reflexivity].
    apply existsb_exists in E. destruct E as [x [Hx Hc]].
    apply N.eqb_eq in Hc. subst. contradiction.
Qed.

Lemma split_nonempty (sep : char) (s : str) : split sep s <> [].
Proof.
  destruct s as [| c t]; simpl; [discriminate |].
  destruct (N.eqb c sep); [discriminate |].
  destruct (split sep t); discriminate.
Qed.

Lemma split1_nonempty (sep : char) (s : str) : split1 sep s <> [].
Proof.
  destruct s as [| c t]; simpl; [discriminate |].
  destruct (N.eqb c sep); [discriminate |].
  destruct (split1 sep t); discriminate.
Qed.

(** No piece of a split holds the separator, and every character of a piece
    comes from the string. *)
Lemma split_pieces (sep : char) (s : str) :
  forall p, In p (split sep s) -> ~ In sep p /\ (forall c, In c p -> In c s).
Proof.
  induction s as [| c t IH]; simpl; intros p Hp.
  - destruct Hp as [<- | []]. split; [intros [] | intros ? []].
  - destruct (N.eqb c sep) eqn:E.
    + destruct Hp as [<- | Hp].
      * split; [intros [] | intros ? []].
      * destruct (IH p Hp) as [H1 H2]. split; [assumption | auto].
    + apply N.eqb_neq in E.
      destruct (split sep t) as [| h r] eqn:Es.
      * exfalso. eapply split_nonempty; eassumption.
      * destruct Hp as [<- | Hp].
        -- destruct (IH h (or_introl eq_refl)) as [H1 H2]. split.
           ++ intros [Hc | Hc]; [congruence | contradiction].
           ++ intros d [-> | Hd]; [now left | right; auto].
        -- destruct (IH p (or_intror Hp)) as [H1 H2]. split; [assumption | auto].
Qed.

Lemma split_absent (sep : char) (s : str) : ~ In sep s -> split sep s = [s].
Proof.
  induction s as [| c t IH]; simpl; intros H; [reflexivity |].
  destruct (N.eqb c sep) eqn:E.
  - apply N.eqb_eq in E. subst. exfalso. apply H. now left.
  - rewrite IH; [reflexivity | intros Hin; apply H; now right].
Qed.

Lemma split1_absent (sep : char) (s : str) : ~ In sep s -> split1 sep s = [s].
Proof.
  induction s as [| c t IH]; simpl; intros H; [reflexivity |].
  destruct (N.eqb c sep) eqn:E.
  - apply N.eqb_eq in E. subst. exfalso. apply H. now left.
  - rewrite IH; [reflexivity | intros Hin; apply H; now right].
Qed.

(** [split1] cuts at the first separator. *)
Lemma split1_app (sep : char) (a b : str) :
  ~ In sep a -> split1 sep (a ++ sep :: b) = [a; b].
Proof.
  induction a as [| c t IH]; simpl; intros H.
  - now rewrite N.eqb_refl.
  - destruct (N.eqb c sep) eqn:E.
    + apply N.eqb_eq in E. subst. exfalso. apply H. now left.
    + rewrite IH; [reflexivity | intros Hin; apply H; now right].
Qed.

(** [split1] yields the text before the first separator and, when there is
    one, the text after it. *)
Lemma split1_shape (sep : char) (s : str) :
  (split1 sep s = [s] /\ ~ In sep s) \/
  (exists a b, split1 sep s = [a; b] /\ s = a ++ sep :: b /\ ~ In sep a).
Proof.
  induction s as [| c t IH]; simpl.
  - left. split; [reflexivity | intros []].
  - destruct (N.eqb c sep) eqn:E.
    + apply N.eqb_eq in E. subst. right. exists [], t.
      repeat split. intros [].
    + apply N.eqb_neq in E. destruct IH as [[-> Hn] | [a [b [-> [-> Hn]]]]].
      * left. split; [reflexivity |]. intros [Hc | Hc]; [congruence | contradiction].
      * right. exists (c :: a), b. repeat split.
        intros [Hc | Hc]; [congruence | contradiction].
Qed.

(** Splitting a join gives the pieces back. *)
Lemma split_join (sep : char) (l : list str) :
  l <> [] -> (forall p, In p l -> ~ In sep p) ->
  split sep (join [sep] l) = l.
Proof.
  induction l as [| x r IH]; intros Hne Hall; [congruence |].
  destruct r as [| y r'].
  - simpl. apply split_absent. apply Hall. now left.
  - assert (~ In sep x) as Hx by (apply Hall; now left).
    assert (split sep (join [sep] (y :: r')) = y :: r') as Hr.
    { apply IH; [discriminate | intros p Hp; apply Hall; now right]. }
    change (join [sep] (x :: y :: r')) with (x ++ [sep] ++ join [sep] (y :: r')).
    clear IH Hall Hne. induction x as [| c t IHx]; simpl.
    + rewrite N.eqb_refl. simpl in Hr. now rewrite Hr.
    + destruct (N.eqb c sep) eqn:E.
      * apply N.eqb_eq in E. subst. exfalso. apply Hx. now left.
      * simpl in IHx. rewrite IHx; [reflexivity | intros Hin; apply Hx; now right].
Qed.

Lemma join_chars (sep : str) (l : list str) (c : char) :
  In c (join sep l) -> In c sep \/ exists p, In p l /\ In c p.
Proof.
  induction l as [| x r IH]; simpl; [intros [] |].
  destruct r as [| y r'].
  - intros H. right. exists x. split; [now left | assumption].
  - intros H. apply in_app_or in H. destruct H as [H | H].
    + right. exists x. split; [now left | assumption].
    + apply in_app_or in H. destruct H as [H | H]; [now left |].
      destruct (IH H) as [Hs | [p [Hp Hc]]]; [now left |].
      right. exists p. split; [now right | assumption].
Qed.

(** ** [clean_url] *)

Lemma essential_params_sound (params : list str) :
  forall p, In p (essential_params params) ->
            In p params /\ is_essential_param p = true.
Proof.
  induction params as [| q rest IH]; simpl; intros p Hp; [contradiction |].
  destruct (is_essential_param q) eqn:E.
  - destruct Hp as [<- | Hp]; [split; [now left | assumption] |].
    destruct (IH p Hp). split; [now right | assumption].
  - destruct (is_noise_param q); [contradiction |].
    destruct (IH p Hp). split; [now right | assumption].
Qed.

Lemma essential_params_fixed (params : list str) :
  (forall p, In p params -> is_essential_param p = true) ->
  essential_params params = params.
Proof.
  induction params as [| q rest IH]; simpl; intros H; [reflexivity |].
  rewrite (H q (or_introl eq_refl)). f_equal. apply IH. intros p Hp. apply H. now right.
Qed.

(** The result of [clean_url], by cases: the text before the first '#' and
    '?', alone or followed by the retained parameters. *)
Lemma clean_url_shape (url : str) :
  exists base,
    ~ In c_hash base /\ ~ In c_quest base /\
    (clean_url url = base \/
     exists ps, ps <> [] /\
       (forall p, In p ps -> is_essential_param p = true /\
                             ~ In c_amp p /\ ~ In c_hash p) /\
       clean_url url = base ++ py "?" ++ join (py "&") ps).
Proof.
  unfold clean_url.
  set (clean := hd [] (split c_hash url)).
  assert (~ In c_hash clean) as Hclean.
  { subst clean. destruct (split c_hash url) as [| h r] eqn:E.
    - intros [].
    - apply (split_pieces c_hash url h). rewrite E. now left. }
  destruct (split1_shape c_quest clean) as [[-> Hq] | [a [b [-> [Eab Ha]]]]]; simpl.
  - exists clean. auto.
  - assert (~ In c_hash a) as Hah.
    { intros Hin. apply Hclean. rewrite Eab. apply in_or_app. now left. }
    assert (~ In c_hash b) as Hbh.
    { intros Hin. apply Hclean. rewrite Eab. apply in_or_app. right. now right. }
    exists a. split; [assumption |]. split; [assumption |].
    destruct (essential_params (split c_amp b)) as [| p ps] eqn:E; [now left |].
    right. exists (p :: ps). split; [discriminate |]. split; [| reflexivity].
    intros q Hq. rewrite <- E in Hq.
    destruct (essential_params_sound _ _ Hq) as [Hin Hess].
    destruct (split_pieces c_amp b q Hin) as [Hamp Hsub].
    split; [assumption |]. split; [assumption |].
    intros Hh. apply Hbh. auto.
Qed.

(** C2: [clean_url] is idempotent: cleaning a cleaned URL changes nothing. *)
Theorem clean_url_idempotent (url : str) :
  clean_url (clean_url url) = clean_url url.
Proof.
  destruct (clean_url_shape url) as [base [Hh [Hq [-> | [ps [Hne [Hps ->]]]]]]].
  - unfold clean_url. rewrite (split_absent _ _ Hh). simpl.
    rewrite (split1_absent _ _ Hq). reflexivity.
  - assert (~ In c_hash (base ++ py "?" ++ join (py "&") ps)) as Hnh.
    { intros Hin. apply in_app_or in Hin. destruct Hin as [Hin | Hin]; [contradiction |].
      simpl in Hin. destruct Hin as [Hin | Hin]; [discriminate |].
      apply join_chars in Hin. destruct Hin as [[Hin | []] | [p [Hp Hc]]]; [discriminate |].
      destruct (Hps p Hp) as [_ [_ Hnp]]. contradiction. }
    unfold clean_url at 1. rewrite (split_absent _ _ Hnh). simpl hd.
    change (base ++ py "?" ++ join (py "&") ps)
      with (base ++ c_quest :: join [c_amp] ps).
    rewrite (split1_app _ _ _ Hq). cbn [hd tl].
    change (py "&") with [c_amp].
    rewrite split_join; [| assumption | intros p Hp; apply (Hps p Hp)].
    rewrite essential_params_fixed; [| intros p Hp; apply (Hps p Hp)].
    destruct ps; [congruence | reflexivity].
Qed.

(** *** What [clean_url] keeps *)

Lemma hd_split_before (c : char) (s : str) : hd [] (split c s) = before c s.
Proof.
  induction s as [| d t IH]; simpl; [reflexivity |].
  destruct (N.eqb d c); [reflexivity |].
  destruct (split c t) as [| h r] eqn:E.
  - exfalso. eapply split_nonempty; eassumption.
  - simpl in *. now rewrite IH.
Qed.

Lemma split1_before_after (c : char) (s : str) :
  split1 c s = before c s :: match after c s with Some r => [r] | None => [] end.
Proof.
  induction s as [| d t IH]; simpl; [reflexivity |].
  destruct (N.eqb d c); [reflexivity |].
  rewrite IH. reflexivity.
Qed.

Lemma essential_params_scanned (params : list str) :
  essential_params params = filter is_essential_param (scanned params).
Proof.
  induction params as [| p rest IH]; simpl; [reflexivity |].
  unfold stops_scan. destruct (is_essential_param p) eqn:E; simpl.
  - rewrite E. now rewrite IH.
  - destruct (is_noise_param p); simpl; [reflexivity |]. now rewrite E.
Qed.

(** C7, as amended: [clean_url] drops everything from the first '#' on; of
    the query (the text after the first '?') it keeps exactly the parameters
    that start with [_skw=], [q=] or [s=] among those scanned, and the scan
    ends at the first parameter that starts with '_', 'hash=' or 'itmmeta='
    and is not itself a retained [_skw=] parameter. *)
Theorem clean_url_retained (url : str) :
  let clean := before c_hash url in
  let base_url := before c_quest clean in
  clean_url url =
    match after c_quest clean with
    | None => base_url
    | Some query =>
        match filter is_essential_param (scanned (split c_amp query)) with
        | [] => base_url
        | kept => base_url ++ py "?" ++ join (py "&") kept
        end
    end.
Proof.
  unfold clean_url. cbv zeta.
  rewrite hd_split_before, split1_before_after.
  destruct (after c_quest (before c_hash url)) as [query |]; cbn [hd tl].
  - now rewrite essential_params_scanned.
  - reflexivity.
Qed.

(** C7, as stated, fails: a retained [_skw=] parameter starts with '_' and
    yet does not end the scan: the parameter [q=b] after it is kept. *)
Lemma clean_url_skw_does_not_stop :
  clean_url (py "u?_skw=a&q=b") <> clean_url_spec (py "u?_skw=a&q=b").
Proof. vm_compute. discriminate. Qed.

(** ** [is_sentence] *)

Section TablesAgree.
Variables U1 U2 : Unicode.

Lemma lstrip_agree (s : str) :
  (forall c, In c s -> agree U1 U2 c) -> @lstrip U1 s = @lstrip U2 s.
Proof.
  induction s as [| c t IH]; simpl; intros H; [reflexivity |].
  destruct (H c (or_introl eq_refl)) as [_ [_ ->]].
  destruct (@isspace U2 c); [| reflexivity].
  apply IH. intros d Hd. apply H. now right.
Qed.

Lemma lstrip_subset (U : Unicode) (s : str) (c : char) :
  In c (@lstrip U s) -> In c s.
Proof.
  induction s as [| d t IH]; simpl; [auto |].
  destruct (isspace d); [intros H; right; auto | auto].
Qed.

Lemma strip_subset (U : Unicode) (s : str) (c : char) :
  In c (@strip U s) -> In c s.
Proof.
  unfold strip, rstrip. intros H.
  apply in_rev in H. apply lstrip_subset in H. apply in_rev in H.
  now apply lstrip_subset in H.
Qed.

Lemma strip_agree (s : str) :
  (forall c, In c s -> agree U1 U2 c) -> @strip U1 s = @strip U2 s.
Proof.
  intros H. unfold strip, rstrip.
  rewrite (lstrip_agree s H). f_equal.
  apply lstrip_agree. intros c Hc. apply H.
  apply in_rev in Hc. exact (lstrip_subset U2 s c Hc).
Qed.

Lemma runs_agree (p q : char -> bool) (s cur : str) :
  (forall c, In c s -> p c = q c) -> runs p cur s = runs q cur s.
Proof.
  revert cur. induction s as [| c t IH]; simpl; intros cur H; [reflexivity |].
  rewrite (H c (or_introl eq_refl)).
  assert (forall d, In d t -> p d = q d) as Ht by (intros d Hd; apply H; now right).
  destruct (q c); [now apply IH |].
  destruct cur; rewrite (IH _ Ht); reflexivity.
Qed.

Lemma existsb_agree {A} (p q : A -> bool) (l : list A) :
  (forall x, In x l -> p x = q x) -> existsb p l = existsb q l.
Proof.
  induction l as [| x r IH]; simpl; intros H; [reflexivity |].
  rewrite (H x (or_introl eq_refl)), IH; [reflexivity |].
  intros y Hy. apply H. now right.
Qed.

Lemma is_sentence_agree (s : str) :
  (forall c, In c s -> agree U1 U2 c) -> @is_sentence U1 s = @is_sentence U2 s.
Proof.
  intros H. unfold is_sentence. cbv zeta.
  rewrite <- (strip_agree s H).
  assert (forall c, In c (@strip U1 s) -> agree U1 U2 c) as Hs.
  { intros c Hc. apply H. exact (strip_subset U1 s c Hc). }
  rewrite (existsb_agree (@isdigit U1) (@isdigit U2)) by (intros c Hc; apply (Hs c Hc)).
  unfold findall_words.
  rewrite (runs_agree (@isword U1) (@isword U2)); [reflexivity |].
  intros c Hc. unfold isword. destruct (Hs c Hc) as [_ [-> _]]. reflexivity.
Qed.

End TablesAgree.

Lemma ascii_lower_keeps_spaces (s : str) :
  has_char c_space (map ascii_lower_char s) = has_char c_space s.
Proof.
  unfold has_char. induction s as [| a t IH]; [reflexivity |].
  cbn [map existsb]. rewrite IH. f_equal.
  unfold ascii_lower_char, ascii_isupper, in_range, c_space.
  destruct (N.leb_spec 65 a); destruct (N.leb_spec a 90); cbn [andb]; try reflexivity.
  transitivity false; [apply N.eqb_neq | symmetry; apply N.eqb_neq]; lia.
Qed.

Lemma ascii_tables_laws : UnicodeLaws ascii_tables.
Proof.
  split; try reflexivity; try exact ascii_lower_keeps_spaces;
    intros c H; unfold ascii_tables; cbn [isdigit isdecimal isalnum isspace];
    now rewrite H.
Qed.

(** On ASCII text any lawful tables decide as the ASCII tables do. *)
Lemma agree_ascii (U : Unicode) (HU : UnicodeLaws U) (s : str) :
  forallb is_ascii s = true -> forall c, In c s -> agree U ascii_tables c.
Proof.
  intros Hs c Hc. rewrite forallb_forall in Hs. specialize (Hs c Hc).
  unfold agree. simpl. rewrite Hs. simpl.
  rewrite (isdigit_ascii HU), (isalnum_ascii HU), (isspace_ascii HU) by assumption.
  auto.
Qed.

Lemma is_sentence_ascii (U : Unicode) (HU : UnicodeLaws U) (s : str) :
  forallb is_ascii s = true -> @is_sentence U s = @is_sentence ascii_tables s.
Proof.
  intros Hs. apply is_sentence_agree. now apply agree_ascii.
Qed.

(** C4: [is_sentence] holds of a line exactly when the stripped line has a
    digit, or at least 5 word tokens, or more than 4 word tokens and a final
    sentence mark; with tables that are right on ASCII,
    "Hello world how are you today" and "Price: 42" are sentences, "OK" and
    "Done." are not. *)
Theorem is_sentence_rule (U : Unicode) :
  (forall text : str,
     let line := strip text in
     let word_count := length (findall_words line) in
     is_sentence text = true <->
     (existsb isdigit line = true \/
      5 <= word_count \/
      (4 < word_count /\ existsb (endswith line) sentence_punctuation = true))) /\
  (UnicodeLaws U ->
   is_sentence (py "Hello world how are you today") = true /\
   is_sentence (py "OK") = false /\
   is_sentence (py "Price: 42") = true /\
   is_sentence (py "Done.") = false).
Proof.
  split.
  - intros text line word_count. unfold is_sentence. cbv zeta.
    fold line. fold word_count.
    destruct (existsb isdigit line); [split; auto |].
    rewrite andb_true_iff, orb_true_iff, Nat.leb_le, Nat.ltb_lt.
    split.
    + intros [H _]. right. now left.
    + intros [H | [H | [H _]]]; [discriminate | |]; split; try lia; right; lia.
  - intros HU.
    repeat split; rewrite (is_sentence_ascii U HU) by reflexivity; reflexivity.
Qed.

(** The rule at the ASCII tables. *)
Lemma is_sentence_rule_witness :
  UnicodeLaws ascii_tables /\
  @is_sentence ascii_tables (py "Hello world how are you today") = true /\
  @is_sentence ascii_tables (py "OK") = false /\
  @is_sentence ascii_tables (py "Price: 42") = true /\
  @is_sentence ascii_tables (py "Done.") = false.
Proof.
  split; [exact ascii_tables_laws |].
  exact (proj2 (is_sentence_rule ascii_tables) ascii_tables_laws).
Defined.

(** ** [get_text] *)

Lemma startswith_app (p s : str) : startswith (p ++ s) p = true.
Proof.
  induction p as [| c p IH]; simpl; [reflexivity |].
  now rewrite N.eqb_refl, IH.
Qed.

Lemma endswith_app (s p : str) : endswith (s ++ p) p = true.
Proof. unfold endswith. rewrite rev_app_distr. apply startswith_app. Qed.

(** *** The image pattern never reaches across a newline *)

Lemma lazy_to_rparen_line (a b : str) :
  lazy_to_rparen (a ++ c_newline :: b) =
  match lazy_to_rparen a with
  | Some (g, rest) => Some (g, rest ++ c_newline :: b)
  | None => None
  end.
Proof.
  induction a as [| c t IH]; [reflexivity |].
  cbn [app lazy_to_rparen].
  destruct (N.eqb c c_rparen); [reflexivity |].
  destruct (N.eqb c c_newline); [reflexivity |].
  rewrite IH. destruct (lazy_to_rparen t) as [[g rest] |]; reflexivity.
Qed.

Lemma lazy_bracket_paren_line (a b : str) :
  lazy_bracket_paren (a ++ c_newline :: b) =
  match lazy_bracket_paren a with
  | Some (g1, g2, rest) => Some (g1, g2, rest ++ c_newline :: b)
  | None => None
  end.
Proof.
  induction a as [| c t IH]; [reflexivity |].
  cbn [app lazy_bracket_paren].
  assert ((if N.eqb c c_rbrack
           then match t ++ c_newline :: b with
                | d :: t' => if N.eqb d c_lparen then lazy_to_rparen t' else None
                | [] => None
                end
           else None)
          = match (if N.eqb c c_rbrack
                   then match t with
                        | d :: t' => if N.eqb d c_lparen then lazy_to_rparen t' else None
                        | [] => None
                        end
                   else None) with
            | Some (g2, rest) => Some (g2, rest ++ c_newline :: b)
            | None => None
            end) as ->.
  { destruct (N.eqb c c_rbrack); [| reflexivity].
    destruct t as [| d t']; [reflexivity |].
    cbn [app]. destruct (N.eqb d c_lparen); [| reflexivity].
    apply lazy_to_rparen_line. }
  destruct (if N.eqb c c_rbrack then _ else None) as [[g2 rest] |]; [reflexivity |].
  destruct (N.eqb c c_newline); [reflexivity |].
  rewrite IH. destruct (lazy_bracket_paren t) as [[[g1 g2] rest] |]; reflexivity.
Qed.

Lemma match_image_line (a b : str) :
  match_image (a ++ c_newline :: b) =
  match match_image a with
  | Some (alt, rest) => Some (alt, rest ++ c_newline :: b)
  | None => None
  end.
Proof.
  destruct a as [| c [| d t]]; [destruct b; reflexivity | |].
  - cbn [app match_image]. change (N.eqb c_newline c_lbrack) with false.
    now rewrite andb_false_r.
  - cbn [app match_image].
    destruct (N.eqb c c_bang && N.eqb d c_lbrack); [| reflexivity].
    rewrite lazy_bracket_paren_line.
    destruct (lazy_bracket_paren t) as [[[g1 g2] rest] |]; reflexivity.
Qed.

(** *** A match consumes text *)

Lemma lazy_to_rparen_shorter (s g rest : str) :
  lazy_to_rparen s = Some (g, rest) -> length rest < length s.
Proof.
  revert g rest. induction s as [| c t IH]; simpl; intros g rest H; [discriminate |].
  destruct (N.eqb c c_rparen).
  - injection H as _ <-. lia.
  - destruct (N.eqb c c_newline); [discriminate |].
    destruct (lazy_to_rparen t) as [[g' rest'] |]; [| discriminate].
    injection H as _ <-. specialize (IH _ _ eq_refl). lia.
Qed.

Lemma lazy_bracket_paren_shorter (s g1 g2 rest : str) :
  lazy_bracket_paren s = Some (g1, g2, rest) -> length rest < length s.
Proof.
  revert g1 g2 rest. induction s as [| c t IH]; intros g1 g2 rest H; [discriminate |].
  cbn [lazy_bracket_paren] in H.
  destruct (if N.eqb c c_rbrack then _ else None) as [[h2 r] |] eqn:E.
  - injection H as _ _ <-.
    destruct (N.eqb c c_rbrack); [| discriminate].
    destruct t as [| d t']; [discriminate |].
    destruct (N.eqb d c_lparen); [| discriminate].
    apply lazy_to_rparen_shorter in E. simpl. lia.
  - destruct (N.eqb c c_newline); [discriminate |].
    destruct (lazy_bracket_paren t) as [[[h1 h2] r] |]; [| discriminate].
    injection H as _ _ <-. specialize (IH _ _ _ eq_refl). simpl. lia.
Qed.

Lemma match_image_shorter (s alt rest : str) :
  match_image s = Some (alt, rest) -> length rest < length s.
Proof.
  destruct s as [| c [| d t]]; simpl; try discriminate.
  destruct (N.eqb c c_bang && N.eqb d c_lbrack); [| discriminate].
  destruct (lazy_bracket_paren t) as [[[g1 g2] r] |] eqn:E; [| discriminate].
  intros H. injection H as _ <-. apply lazy_bracket_paren_shorter in E. lia.
Qed.

Lemma match_image_needs_bang (c : char) (t : str) :
  c <> c_bang -> match_image (c :: t) = None.
Proof.
  intros H. destruct t as [| d t]; [reflexivity |]. simpl.
  apply N.eqb_neq in H. now rewrite H.
Qed.

(** *** The substitution is total: the length of the text is fuel enough *)

Lemma image_sub_fuel_enough (f1 f2 : nat) (s : str) :
  length s <= f1 -> length s <= f2 -> image_sub_fuel f1 s = image_sub_fuel f2 s.
Proof.
  revert f2 s. induction f1 as [| f1 IH]; intros f2 s H1 H2.
  - destruct s; [| simpl in H1; lia]. destruct f2; reflexivity.
  - destruct f2 as [| f2].
    + destruct s; [reflexivity | simpl in H2; lia].
    + destruct s as [| c t]; [reflexivity |].
      cbn [image_sub_fuel].
      destruct (match_image (c :: t)) as [[alt rest] |] eqn:E.
      * apply match_image_shorter in E. simpl in *.
        rewrite (IH f2 rest) by lia. reflexivity.
      * simpl in *. rewrite (IH f2 t) by lia. reflexivity.
Qed.

Lemma image_sub_cons (c : char) (t : str) :
  image_sub (c :: t) =
  match match_image (c :: t) with
  | Some (alt, rest) => py "[IMAGE: " ++ alt ++ py "]" ++ image_sub rest
  | None => c :: image_sub t
  end.
Proof.
  unfold image_sub at 1. cbn [length image_sub_fuel].
  destruct (match_image (c :: t)) as [[alt rest] |] eqn:E.
  - apply match_image_shorter in E. simpl in E.
    unfold image_sub. rewrite (image_sub_fuel_enough (length t) (length rest)) by lia.
    reflexivity.
  - reflexivity.
Qed.

Lemma image_sub_line (a b : str) :
  image_sub (a ++ c_newline :: b) = image_sub a ++ c_newline :: image_sub b.
Proof.
  remember (length a) as n eqn:Hn. revert a Hn.
  induction n as [n IH] using lt_wf_ind. intros a Hn.
  destruct a as [| c t].
  - cbn [app]. rewrite image_sub_cons.
    rewrite match_image_needs_bang by discriminate. reflexivity.
  - change ((c :: t) ++ c_newline :: b) with (c :: (t ++ c_newline :: b)).
    rewrite image_sub_cons.
    change (c :: (t ++ c_newline :: b)) with ((c :: t) ++ c_newline :: b).
    rewrite match_image_line, (image_sub_cons c t).
    destruct (match_image (c :: t)) as [[alt rest] |] eqn:E.
    + apply match_image_shorter in E.
      rewrite (IH (length rest)) by (subst n; simpl in *; lia || reflexivity).
      now rewrite <- !app_assoc.
    + simpl in Hn. rewrite (IH (length t)) by (subst n; lia || reflexivity).
      reflexivity.
Qed.

Lemma image_sub_after (p s : str) :
  ~ In c_bang p -> image_sub (p ++ s) = p ++ image_sub s.
Proof.
  induction p as [| c p IH]; intros H; [reflexivity |].
  cbn [app]. rewrite image_sub_cons, match_image_needs_bang.
  - rewrite IH; [reflexivity | intros Hin; apply H; now right].
  - intros ->. apply H. now left.
Qed.

Lemma image_sub_plain (s : str) : ~ In c_bang s -> image_sub s = s.
Proof.
  intros H. rewrite <- (app_nil_r s) at 1. rewrite image_sub_after by assumption.
  now rewrite app_nil_r.
Qed.

(** The rendered page keeps its two markers. *)
Lemma page_text_envelope (U : Unicode) (markdown_text : str) :
  exists body,
    page_text markdown_text = py "[Start of page]" ++ body ++ py "[End of page]".
Proof.
  unfold page_text. cbv zeta.
  set (lines := join blank_line (page_lines (splitlines markdown_text))).
  rewrite image_sub_after
    by (apply has_char_false_iff; reflexivity).
  change (blank_line ++ lines ++ blank_line ++ py "[End of page]")
    with (c_newline :: c_newline :: (lines ++ c_newline :: c_newline :: py "[End of page]")).
  replace (c_newline :: c_newline :: (lines ++ c_newline :: c_newline :: py "[End of page]"))
    with ((c_newline :: c_newline :: lines ++ [c_newline])
            ++ c_newline :: py "[End of page]")
    by (simpl; now rewrite <- app_assoc).
  rewrite image_sub_line.
  rewrite (image_sub_plain (py "[End of page]"))
    by (apply has_char_false_iff; reflexivity).
  exists (image_sub (c_newline :: c_newline :: lines ++ [c_newline]) ++ [c_newline]).
  now rewrite <- !app_assoc.
Qed.

(** C5: a text that [get_text] returns has at most 8192 characters and
    starts with "[Start of page]"; it is the first 8192 characters of a
    text that ends with "[End of page]". *)
Theorem get_text_envelope (U : Unicode) (C : Converter) (W : Type)
  (D : Driver W) (w w' : W) (result : str) :
  get_text w = (Ret (Some result), w') ->
  length result <= max_page_chars /\
  startswith result (py "[Start of page]") = true /\
  exists markdown_text,
    result = firstn max_page_chars (page_text markdown_text) /\
    endswith (page_text markdown_text) (py "[End of page]") = true.
Proof.
  unfold get_text, try_, bind, lift, ret. intros H.
  destruct (page_source w) as [[source | e] w1].
  - destruct (markdown_of_source source) as [markdown_text | e].
    + assert (result = firstn max_page_chars (page_text markdown_text)) as ->
        by congruence.
      destruct (page_text_envelope U markdown_text) as [body E].
      split; [apply firstn_le_length |]. split.
      * rewrite E, firstn_app.
        rewrite (firstn_all2 (py "[Start of page]"))
          by (apply Nat.leb_le; vm_compute; reflexivity).
        apply startswith_app.
      * exists markdown_text. split; [reflexivity |].
        rewrite E, app_assoc. apply endswith_app.
    + simpl in H. destruct (isinstance e Exception); simpl in H; discriminate.
  - simpl in H. destruct (isinstance e Exception); simpl in H; discriminate.
Qed.

(** A page of one sentence with an image. *)
Lemma get_text_envelope_witness :
  @get_text ascii_tables Sim.plain_text _ Sim.driver Sim.image_page
  = (Ret (Some Sim.image_page_text), Sim.image_page) /\
  startswith Sim.image_page_text (py "[Start of page]") = true.
Proof.
  assert (@get_text ascii_tables Sim.plain_text _ Sim.driver Sim.image_page
          = (Ret (Some Sim.image_page_text), Sim.image_page)) as H
    by (vm_compute; reflexivity).
  split; [exact H |].
  exact (proj1 (proj2 (get_text_envelope ascii_tables Sim.plain_text Sim.world
                         Sim.driver Sim.image_page Sim.image_page _ H))).
Defined.

(** ** Running a method *)

Section Run.
Context {W : Type}.

Lemma bind_ret_eq {A B} (m : M W A) (k : A -> M W B) {w w1 : W} {a : A} :
  m w = (Ret a, w1) -> bind m k w = k a w1.
Proof. intros H. unfold bind. now rewrite H. Qed.

Lemma bind_raise_eq {A B} (m : M W A) (k : A -> M W B) {w w1 : W} {e : exn} :
  m w = (Raise e, w1) -> bind m k w = (Raise e, w1).
Proof. intros H. unfold bind. now rewrite H. Qed.

Lemma try_ret_eq {A} (body : M W A) (clauses : list (clause W A)) {w w1 : W} {a : A} :
  body w = (Ret a, w1) -> try_ body clauses w = (Ret a, w1).
Proof. intros H. unfold try_. now rewrite H. Qed.

Lemma try_raise_eq {A} (body : M W A) (clauses : list (clause W A))
  {w w1 : W} {e : exn} :
  body w = (Raise e, w1) ->
  try_ body clauses w =
  match select_clause clauses e with
  | Some handler => handler w1
  | None => (Raise e, w1)
  end.
Proof. intros H. unfold try_. now rewrite H. Qed.

(** The clauses [except TimeoutException: return a] and
    [except Exception: return a] let no Exception out... *)
Lemma absorbing_try_raises {A} (body : M W A) (a1 a2 : A) (w w' : W) (e : exn) :
  try_ body [Except TimeoutException (fun _ => ret a1);
             Except Exception (fun _ => ret a2)] w = (Raise e, w') ->
  isinstance e Exception = false.
Proof.
  unfold try_. destruct (body w) as [[a | e0] w1]; [discriminate |].
  cbn [select_clause].
  destruct (isinstance e0 TimeoutException); [discriminate |].
  destruct (isinstance e0 Exception) eqn:E; [discriminate |].
  intros H. injection H as <- _. exact E.
Qed.

(** ... and answer [a] when the body raises one. *)
Lemma absorbing_try_answers {A} (body : M W A) (a : A) {w w1 : W} {e : exn} :
  body w = (Raise e, w1) -> isinstance e Exception = true ->
  try_ body [Except TimeoutException (fun _ => ret a);
             Except Exception (fun _ => ret a)] w = (Ret a, w1).
Proof.
  intros H E. rewrite (try_raise_eq _ _ H). cbn [select_clause].
  rewrite E. now destruct (isinstance e TimeoutException).
Qed.

End Run.

Lemma timeout_is_webdriver (e : exn) :
  isinstance e TimeoutException = true -> isinstance e WebDriverException = true.
Proof. destruct e; vm_compute; congruence. Qed.

Lemma webdriver_is_exception (e : exn) :
  isinstance e WebDriverException = true -> isinstance e Exception = true.
Proof. destruct e; vm_compute; congruence. Qed.

(** ** [go_to] *)

Section Waiting.
Context {U : Unicode} {W : Type} {D : Driver W}.

(** A condition that never holds, however long it is polled, ends the wait
    with TimeoutException. *)
Lemma until_loop_never {A} (method : M W (option A)) (Inv : W -> Prop) :
  (forall v, Inv v -> exists v', method v = (Ret None, v') /\ Inv v') ->
  forall more w, Inv w ->
    exists w', until_loop more method w = (Raise TimeoutException, w') /\ Inv w'.
Proof.
  intros Hnever. induction more as [| n IH]; intros w Hw;
    destruct (Hnever w Hw) as [v [Hv Hinv]]; cbn [until_loop]; rewrite Hv.
  - exists v. auto.
  - apply IH. exact Hinv.
Qed.

(** A wait ends with a value, or raises. *)
Lemma until_loop_total {A} (method : M W (option A)) (more : nat) (w : W) :
  exists r w', until_loop more method w = (r, w').
Proof. destruct (until_loop more method w) as [r w']. eauto. Qed.

End Waiting.

Section GoTo.
Context {U : Unicode} {W : Type} {D : Driver W}.

Lemma go_to_driver_failure (url : str) (w w' : W) (e : exn) :
  go_to_body url w = (Raise e, w') ->
  isinstance e WebDriverException = true ->
  go_to url w = (Ret false, w').
Proof.
  intros Hbody He. unfold go_to.
  rewrite (try_raise_eq _ _ Hbody). cbn [select_clause]. rewrite He.
  now destruct (isinstance e TimeoutException).
Qed.

Lemma go_to_wait_times_out (url : str) (w w0 w1 w2 : W) :
  window_handles w = (Ret tt, w0) ->
  get url w0 = (Ret tt, w1) ->
  until 30 page_settled w1 = (Raise TimeoutException, w2) ->
  go_to url w = (Ret false, w2).
Proof.
  intros H0 H1 H2. apply (go_to_driver_failure url w w2 TimeoutException);
    [| reflexivity].
  unfold go_to_body.
  rewrite (bind_ret_eq _ _ H0), (bind_ret_eq _ _ H1).
  now rewrite (bind_raise_eq _ _ H2).
Qed.

(** A page on which the condition of the wait never holds: whatever the
    number of polls, [go_to] returns False. *)
Lemma go_to_never_settles (url : str) (w w0 w1 : W) (Inv : W -> Prop) :
  window_handles w = (Ret tt, w0) ->
  get url w0 = (Ret tt, w1) ->
  Inv w1 ->
  (forall v, Inv v -> exists v', page_settled v = (Ret None, v') /\ Inv v') ->
  exists w2, go_to url w = (Ret false, w2).
Proof.
  intros H0 H1 Hinv Hnever.
  destruct (until_loop_never page_settled Inv Hnever (polls 30) w1 Hinv)
    as [w2 [Hwait _]].
  exists w2. exact (go_to_wait_times_out url w w0 w1 w2 H0 H1 Hwait).
Qed.

End GoTo.

(** C3: [go_to] returns False when its bounded wait times out and when the
    driver raises a WebDriverException; every other exception leaves
    [go_to] as it was raised. *)
Theorem go_to_failures (U : Unicode) (W : Type) (D : Driver W)
  (url : str) (w : W) :
  (forall w0 w1 w2,
     window_handles w = (Ret tt, w0) ->
     get url w0 = (Ret tt, w1) ->
     until 30 page_settled w1 = (Raise TimeoutException, w2) ->
     go_to url w = (Ret false, w2)) /\
  (forall e w',
     go_to_body url w = (Raise e, w') ->
     isinstance e WebDriverException = true ->
     go_to url w = (Ret false, w')) /\
  (forall e w',
     go_to_body url w = (Raise e, w') ->
     isinstance e WebDriverException = false ->
     go_to url w = (Raise e, w')).
Proof.
  split; [| split].
  - intros w0 w1 w2. apply go_to_wait_times_out.
  - intros e w'. apply go_to_driver_failure.
  - intros e w' Hbody He. unfold go_to.
    rewrite (try_raise_eq _ _ Hbody). cbn [select_clause]. rewrite He.
    destruct (isinstance e TimeoutException) eqn:Et.
    + apply timeout_is_webdriver in Et. congruence.
    + now destruct (isinstance e Exception).
Qed.

(** A verification screen that stays, a driver that is offline, and a
    missing script file. *)
Lemma go_to_failures_witness :
  fst (@go_to ascii_tables _ Sim.driver (py "http://a.com/") Sim.challenge_page)
  = Ret false /\
  fst (@go_to ascii_tables _ Sim.driver (py "http://a.com/") Sim.offline)
  = Ret false /\
  fst (@go_to ascii_tables _ Sim.driver (py "http://a.com/") Sim.no_scripts)
  = Raise Exception.
Proof.
  set (url := py "http://a.com/").
  pose (w1 := snd (@get _ Sim.driver url Sim.challenge_page)).
  pose (w2 := snd (@until _ Sim.driver _ 30 (@page_settled ascii_tables _ Sim.driver) w1)).
  pose (v := snd (@go_to_body ascii_tables _ Sim.driver url Sim.offline)).
  pose (u := snd (@go_to_body ascii_tables _ Sim.driver url Sim.no_scripts)).
  split; [| split].
  - rewrite (proj1 (go_to_failures ascii_tables Sim.world Sim.driver url
                      Sim.challenge_page) Sim.challenge_page w1 w2);
      vm_compute; reflexivity.
  - rewrite (proj1 (proj2 (go_to_failures ascii_tables Sim.world Sim.driver url
                             Sim.offline)) WebDriverException v);
      vm_compute; reflexivity.
  - rewrite (proj2 (proj2 (go_to_failures ascii_tables Sim.world Sim.driver url
                             Sim.no_scripts)) Exception u);
      vm_compute; reflexivity.
Defined.

(** ** [click_element] and [find_and_click_btn] *)

Section Clicking.
Context {U : Unicode} {W : Type} {D : Driver W}.

(** Whatever the scroll or the click raises, the unbound class name of the
    inner clause turns it into NameError, which the outer clause absorbs. *)
Lemma click_element_click_raises (xpath : str) (w w1 w2 w3 w4 : W)
  (element : elem) (e : exn) :
  until 10 (element_to_be_clickable XPATH xpath) w = (Ret element, w1) ->
  is_displayed element w1 = (Ret true, w2) ->
  is_enabled element w2 = (Ret true, w3) ->
  (execute_script
     (py "arguments[0].scrollIntoView({block: 'center', behavior: 'smooth'});")
     [element] ;;; click element ;;; ret true) w3 = (Raise e, w4) ->
  click_element xpath w = (Ret false, w4).
Proof.
  intros Hwait Hshown Hon Hclick. unfold click_element.
  apply (absorbing_try_answers _ false (e := NameError)); [| reflexivity].
  rewrite (bind_ret_eq _ _ Hwait), (bind_ret_eq _ _ Hshown). cbn [negb].
  rewrite (bind_ret_eq _ _ Hon). cbn [negb].
  rewrite (try_raise_eq _ _ Hclick). reflexivity.
Qed.

Lemma click_first_match_raises (btn_type : str) (timeout : nat)
  (buttons : list (str * str)) (w w' : W) (e : exn) :
  click_first_match btn_type timeout buttons w = (Raise e, w') ->
  isinstance e Exception = false.
Proof.
  induction buttons as [| [button_text xpath] rest IH]; cbn [click_first_match].
  - discriminate.
  - destruct (btn_matches btn_type button_text); [| exact IH].
    apply absorbing_try_raises.
Qed.

(** The first candidate whose label matches is the one tried. *)
Lemma click_first_match_skips (btn_type : str) (timeout : nat)
  (before_ : list (str * str)) (rest : list (str * str)) :
  (forall label xpath, In (label, xpath) before_ -> btn_matches btn_type label = false) ->
  click_first_match btn_type timeout (before_ ++ rest)
  = click_first_match btn_type timeout rest.
Proof.
  induction before_ as [| [label xpath] l IH]; intros H; [reflexivity |].
  cbn [app click_first_match].
  rewrite (H label xpath (or_introl eq_refl)).
  apply IH. intros l' x' Hin. apply (H l' x'). now right.
Qed.

End Clicking.

(** C6, as amended: [click_element] returns False when the clickability
    wait times out, when the target is not displayed or not enabled, and
    when the click is intercepted; it also returns False on every other
    Exception, so it raises none.  [find_and_click_btn] returns what
    [click_element] returns for the first matching candidate, False when its
    own wait raises an Exception, and lets an Exception out only when one is
    raised while the buttons are enumerated. *)
Theorem click_element_absorbs (U : Unicode) (W : Type) (D : Driver W)
  (xpath : str) (w : W) :
  (forall e w', click_element xpath w = (Raise e, w') ->
                isinstance e Exception = false) /\
  (forall e w1,
     until 10 (element_to_be_clickable XPATH xpath) w = (Raise e, w1) ->
     isinstance e Exception = true ->
     click_element xpath w = (Ret false, w1)) /\
  (forall element w1 w2,
     until 10 (element_to_be_clickable XPATH xpath) w = (Ret element, w1) ->
     is_displayed element w1 = (Ret false, w2) ->
     click_element xpath w = (Ret false, w2)) /\
  (forall element w1 w2 w3,
     until 10 (element_to_be_clickable XPATH xpath) w = (Ret element, w1) ->
     is_displayed element w1 = (Ret true, w2) ->
     is_enabled element w2 = (Ret false, w3) ->
     click_element xpath w = (Ret false, w3)) /\
  (forall element w1 w2 w3 v w4 e w5,
     until 10 (element_to_be_clickable XPATH xpath) w = (Ret element, w1) ->
     is_displayed element w1 = (Ret true, w2) ->
     is_enabled element w2 = (Ret true, w3) ->
     execute_script
       (py "arguments[0].scrollIntoView({block: 'center', behavior: 'smooth'});")
       [element] w3 = (Ret v, w4) ->
     click element w4 = (Raise e, w5) ->
     click_element xpath w = (Ret false, w5)) /\
  (forall btn_type timeout buttons w1 e w',
     get_buttons_xpath w = (Ret buttons, w1) ->
     find_and_click_btn btn_type timeout w = (Raise e, w') ->
     isinstance e Exception = false) /\
  (forall btn_type timeout e w1,
     get_buttons_xpath w = (Raise e, w1) ->
     find_and_click_btn btn_type timeout w = (Raise e, w1)) /\
  (forall btn_type timeout before_ label after_ w1,
     get_buttons_xpath w = (Ret (before_ ++ (label, xpath) :: after_), w1) ->
     (forall l x, In (l, x) before_ -> btn_matches btn_type l = false) ->
     btn_matches btn_type label = true ->
     (forall element w2 clicked w3,
        until timeout (element_to_be_clickable XPATH xpath) w1 = (Ret element, w2) ->
        click_element xpath w2 = (Ret clicked, w3) ->
        find_and_click_btn btn_type timeout w = (Ret clicked, w3)) /\
     (forall e w2,
        until timeout (element_to_be_clickable XPATH xpath) w1 = (Raise e, w2) ->
        isinstance e Exception = true ->
        find_and_click_btn btn_type timeout w = (Ret false, w2))).
Proof.
  repeat apply conj.
  - intros e w'. unfold click_element. apply absorbing_try_raises.
  - intros e w1 Hwait He. unfold click_element.
    apply (absorbing_try_answers _ false (e := e)); [| exact He].
    now rewrite (bind_raise_eq _ _ Hwait).
  - intros element w1 w2 Hwait Hshown. unfold click_element.
    apply try_ret_eq.
    now rewrite (bind_ret_eq _ _ Hwait), (bind_ret_eq _ _ Hshown).
  - intros element w1 w2 w3 Hwait Hshown Hon. unfold click_element.
    apply try_ret_eq.
    rewrite (bind_ret_eq _ _ Hwait), (bind_ret_eq _ _ Hshown). cbn [negb].
    now rewrite (bind_ret_eq _ _ Hon).
  - intros element w1 w2 w3 v w4 e w5 Hwait Hshown Hon Hscroll Hclick.
    apply (click_element_click_raises xpath w w1 w2 w3 w5 element e);
      try assumption.
    rewrite (bind_ret_eq _ _ Hscroll). now rewrite (bind_raise_eq _ _ Hclick).
  - intros btn_type timeout buttons w1 e w' Hlist. unfold find_and_click_btn.
    rewrite (bind_ret_eq _ _ Hlist).
    destruct buttons as [| b rest]; [discriminate |].
    apply click_first_match_raises.
  - intros btn_type timeout e w1 Hlist. unfold find_and_click_btn.
    now rewrite (bind_raise_eq _ _ Hlist).
  - intros btn_type timeout before_ label after_ w1 Hlist Hskip Hmatch.
    assert (find_and_click_btn btn_type timeout w
            = click_first_match btn_type timeout ((label, xpath) :: after_) w1) as ->.
    { unfold find_and_click_btn. rewrite (bind_ret_eq _ _ Hlist).
      transitivity (click_first_match btn_type timeout
                      (before_ ++ (label, xpath) :: after_) w1).
      - destruct before_; reflexivity.
      - now rewrite (click_first_match_skips btn_type timeout before_ _ Hskip). }
    cbn [click_first_match]. rewrite Hmatch. split.
    + intros element w2 clicked w3 Hwait Hclick. apply try_ret_eq.
      rewrite (bind_ret_eq _ _ Hwait), (bind_ret_eq _ _ Hclick).
      now destruct clicked.
    + intros e w2 Hwait He.
      apply (absorbing_try_answers _ false (e := e)); [| exact He].
      now rewrite (bind_raise_eq _ _ Hwait).
Qed.

(** A hidden button, and a button whose click is intercepted. *)
Lemma click_element_absorbs_witness :
  fst (@click_element Sim.world Sim.driver (button_xpath 0) Sim.covered_button_page)
  = Ret false.
Proof.
  set (w := Sim.covered_button_page).
  set (xpath := button_xpath 0).
  pose (w1 := snd (@until _ Sim.driver _ 10
                     (@element_to_be_clickable _ Sim.driver XPATH xpath) w)).
  pose (w4 := snd (@execute_script _ Sim.driver
     (py "arguments[0].scrollIntoView({block: 'center', behavior: 'smooth'});")
     [0] w1)).
  rewrite (proj1 (proj2 (proj2 (proj2 (proj2
             (click_element_absorbs ascii_tables Sim.world Sim.driver xpath w)))))
             0 w1 w1 w1 JsNone w4 ElementClickInterceptedException w4);
    vm_compute; reflexivity.
Defined.

(** C6, as stated, fails: when the driver itself fails on the click (a
    WebDriverException that is none of the listed outcomes) nothing is
    raised to the caller: both methods return False. *)
Lemma click_element_swallows_driver_error :
  @click_element Sim.world Sim.driver (button_xpath 0) Sim.crashing_button_page
  <> (Raise WebDriverException,
      snd (@click_element Sim.world Sim.driver (button_xpath 0)
             Sim.crashing_button_page)) /\
  fst (@click_element Sim.world Sim.driver (button_xpath 0) Sim.crashing_button_page)
  = Ret false /\
  fst (@find_and_click_btn ascii_tables Sim.world Sim.driver (py "ok") 10
         Sim.crashing_button_page) = Ret false.
Proof.
  split; [vm_compute; discriminate |].
  split; vm_compute; reflexivity.
Qed.

(** ** Button labels *)

Lemma has_char_true_iff (c : char) (s : str) : has_char c s = true <-> In c s.
Proof.
  unfold has_char. rewrite existsb_exists. split.
  - intros [x [Hx Hc]]. apply N.eqb_eq in Hc. now subst.
  - intros H. exists c. split; [assumption | apply N.eqb_refl].
Qed.

Lemma remove_char_gone (c : char) (s : str) : has_char c (remove_char c s) = false.
Proof.
  apply has_char_false_iff. unfold remove_char. intros H.
  apply filter_In in H. destruct H as [_ H]. now rewrite N.eqb_refl in H.
Qed.

Lemma startswith_chars (s p : str) :
  startswith s p = true -> forall c, In c p -> In c s.
Proof.
  revert s. induction p as [| d p IH]; intros s H c Hc; [contradiction |].
  destruct s as [| x s]; [discriminate |]. simpl in H.
  apply andb_true_iff in H. destruct H as [Hx Hp]. apply N.eqb_eq in Hx. subst x.
  destruct Hc as [-> | Hc]; [now left | right; eauto].
Qed.

Lemma contains_chars (s sub : str) :
  contains s sub = true -> forall c, In c sub -> In c s.
Proof.
  induction s as [| x s IH]; intros H c Hc; cbn [contains] in H.
  - rewrite orb_false_r in H. exact (startswith_chars _ _ H c Hc).
  - apply orb_true_iff in H. destruct H as [H | H].
    + exact (startswith_chars _ _ H c Hc).
    + right. eauto.
Qed.

Section Run2.
Context {W : Type}.

Lemma bind_inv {A B} (m : M W A) (k : A -> M W B) (w w' : W) (b : B) :
  bind m k w = (Ret b, w') ->
  exists a w1, m w = (Ret a, w1) /\ k a w1 = (Ret b, w').
Proof.
  unfold bind. destruct (m w) as [[a | e] w1]; [eauto | discriminate].
Qed.

End Run2.

Section Labels.
Context {U : Unicode} {W : Type} {D : Driver W}.

Lemma insert_by_len_in (x y : str * str) (l : list (str * str)) :
  In y (insert_by_len x l) <-> y = x \/ In y l.
Proof.
  induction l as [| z r IH]; simpl; [intuition |].
  destruct (length (fst x) <=? length (fst z)); simpl; [intuition |].
  rewrite IH. intuition.
Qed.

Lemma sort_by_len_in (y : str * str) (l : list (str * str)) :
  In y (sort_by_len l) <-> In y l.
Proof.
  induction l as [| x r IH]; simpl; [reflexivity |].
  rewrite insert_by_len_in, IH. intuition.
Qed.

(** Every entry [scan_buttons] produces carries the normalized label of one
    of the buttons. *)
Lemma scan_buttons_labels (buttons : list elem) :
  forall i w result w',
    scan_buttons i buttons w = (Ret result, w') ->
    forall label xpath, In (label, xpath) result ->
      exists button raw,
        In button buttons /\ reads_label button raw /\ label = button_label raw.
Proof.
  induction buttons as [| b rest IH]; intros i w result w' H label xpath Hin.
  - injection H as <- _. contradiction.
  - cbn [scan_buttons] in H.
    apply bind_inv in H. destruct H as [displayed [w1 [_ H]]].
    apply bind_inv in H. destruct H as [enabled [w2 [_ H]]].
    destruct (negb displayed || negb enabled).
    + destruct (IH _ _ _ _ H label xpath Hin) as [b' [raw [Hb [Hr Hl]]]].
      exists b', raw. auto using in_cons.
    + apply bind_inv in H. destruct H as [t [w3 [Ht H]]].
      apply bind_inv in H. destruct H as [raw [w4 [Hraw H]]].
      apply bind_inv in H. destruct H as [others [w5 [Hrest H]]].
      injection H as <- _. destruct Hin as [Hin | Hin].
      * injection Hin as <- _. exists b, raw. split; [now left |]. split; [| reflexivity].
        exists w2, w3. destruct (nonempty t) eqn:Et.
        -- injection Hraw as <- _. left. auto.
        -- right. destruct t; [| discriminate]. split; [assumption |].
           apply bind_inv in Hraw. destruct Hraw as [v [w6 [Hv Hraw]]].
           injection Hraw as <- _. eauto.
      * destruct (IH _ _ _ _ Hrest label xpath Hin) as [b' [raw' [Hb [Hr Hl]]]].
        exists b', raw'. auto using in_cons.
Qed.

End Labels.

Section Candidates.
Context {U : Unicode} {W : Type} {D : Driver W}.

(** Each entry of [scan_buttons] belongs to one button of the list: it
    holds the XPath expression with the button's number, and the label read
    off that button, in the state the scan had reached, after the button was
    found displayed and enabled. *)
Lemma scan_buttons_entries (buttons : list elem) :
  forall i w result w',
    scan_buttons i buttons w = (Ret result, w') ->
    forall label xpath, In (label, xpath) result ->
      exists k button scanned v0 v1 v2 raw v3,
        nth_error buttons k = Some button /\
        xpath = button_xpath (i + k) /\
        scan_buttons i (firstn k buttons) w = (Ret scanned, v0) /\
        is_displayed button v0 = (Ret true, v1) /\
        is_enabled button v1 = (Ret true, v2) /\
        raw_label button v2 = (Ret raw, v3) /\
        label = remove_char c_space (lower raw).
Proof.
  induction buttons as [| b rest IH]; intros i w result w' H label xpath Hin.
  - injection H as <- _. contradiction.
  - cbn [scan_buttons] in H.
    apply bind_inv in H. destruct H as [displayed [w1 [Hd H]]].
    apply bind_inv in H. destruct H as [enabled [w2 [He H]]].
    destruct (negb displayed || negb enabled) eqn:Eskip.
    + destruct (IH _ _ _ _ H label xpath Hin)
        as [k [button [scanned [v0 [v1 [v2 [raw [v3 [Hk [Hx [Hpre Hrest]]]]]]]]]]].
      exists (S k), button, scanned, v0, v1, v2, raw, v3.
      split; [exact Hk |]. split; [now rewrite Nat.add_succ_r |].
      split; [| exact Hrest].
      cbn [firstn scan_buttons].
      rewrite (bind_ret_eq _ _ Hd), (bind_ret_eq _ _ He), Eskip. exact Hpre.
    + apply orb_false_iff in Eskip. destruct Eskip as [Ed Ee].
      apply negb_false_iff in Ed, Ee. subst displayed enabled.
      apply bind_inv in H. destruct H as [t [w3 [Ht H]]].
      apply bind_inv in H. destruct H as [raw [w4 [Hraw H]]].
      apply bind_inv in H. destruct H as [others [w5 [Hothers H]]].
      injection H as <- _. destruct Hin as [Hin | Hin].
      * injection Hin as <- <-.
        exists 0, b, [], w, w1, w2, raw, w4.
        split; [reflexivity |]. split; [now rewrite Nat.add_0_r |].
        split; [reflexivity |]. split; [exact Hd |]. split; [exact He |].
        split; [| reflexivity].
        unfold raw_label. now rewrite (bind_ret_eq _ _ Ht).
      * destruct (IH _ _ _ _ Hothers label xpath Hin)
          as [k [button [scanned [v0 [v1 [v2 [raw' [v3 [Hk [Hx [Hpre Hrest]]]]]]]]]]].
        exists (S k), button, ((button_label raw, button_xpath i) :: scanned),
          v0, v1, v2, raw', v3.
        split; [exact Hk |]. split; [now rewrite Nat.add_succ_r |].
        split; [| exact Hrest].
        cbn [firstn scan_buttons].
        rewrite (bind_ret_eq _ _ Hd), (bind_ret_eq _ _ He). cbn [negb orb].
        rewrite (bind_ret_eq _ _ Ht), (bind_ret_eq _ _ Hraw), (bind_ret_eq _ _ Hpre).
        reflexivity.
Qed.

Lemma find_and_click_btn_no_match (timeout : nat) (btn_type : str) (w w1 : W)
  (buttons : list (str * str)) :
  get_buttons_xpath w = (Ret buttons, w1) ->
  (forall label xpath, In (label, xpath) buttons ->
     contains (lower label) (lower btn_type) = false) ->
  find_and_click_btn btn_type timeout w = (Ret false, w1).
Proof.
  intros Hlist Hnone. unfold find_and_click_btn. rewrite (bind_ret_eq _ _ Hlist).
  destruct buttons as [| b rest]; [reflexivity |].
  rewrite <- (app_nil_r (b :: rest)).
  rewrite click_first_match_skips; [reflexivity |].
  intros l x Hin. exact (Hnone l x Hin).
Qed.

(** The first candidate whose label holds the kind decides the answer. *)
Lemma find_and_click_btn_first_match (timeout : nat) (btn_type : str) (w w1 : W)
  (skipped later : list (str * str)) (label xpath : str) :
  get_buttons_xpath w = (Ret (skipped ++ (label, xpath) :: later), w1) ->
  (forall l x, In (l, x) skipped -> contains (lower l) (lower btn_type) = false) ->
  contains (lower label) (lower btn_type) = true ->
  (forall element w2 clicked w3,
     until timeout (element_to_be_clickable XPATH xpath) w1 = (Ret element, w2) ->
     click_element xpath w2 = (Ret clicked, w3) ->
     find_and_click_btn btn_type timeout w = (Ret clicked, w3)) /\
  (forall e w2,
     until timeout (element_to_be_clickable XPATH xpath) w1 = (Raise e, w2) ->
     isinstance e Exception = true ->
     find_and_click_btn btn_type timeout w = (Ret false, w2)).
Proof.
  intros Hlist Hskip Hmatch.
  assert (find_and_click_btn btn_type timeout w
          = click_first_match btn_type timeout ((label, xpath) :: later) w1) as ->.
  { unfold find_and_click_btn. rewrite (bind_ret_eq _ _ Hlist).
    transitivity (click_first_match btn_type timeout
                    (skipped ++ (label, xpath) :: later) w1).
    - destruct skipped; reflexivity.
    - now rewrite (click_first_match_skips btn_type timeout skipped _ Hskip). }
  cbn [click_first_match]. unfold btn_matches. rewrite Hmatch. split.
  - intros element w2 clicked w3 Hwait Hclick. apply try_ret_eq.
    rewrite (bind_ret_eq _ _ Hwait), (bind_ret_eq _ _ Hclick).
    now destruct clicked.
  - intros e w2 Hwait He.
    apply (absorbing_try_answers _ false (e := e)); [| exact He].
    now rewrite (bind_raise_eq _ _ Hwait).
Qed.

End Candidates.

(** C10: each candidate of [get_buttons_xpath] belongs to one button of the
    list it scans (the buttons, then the submit inputs): its XPath holds
    that button's number, and its label is the text of that button, or its
    value attribute when the text is empty, lowercased and with every
    space removed.  [find_and_click_btn] takes the first candidate whose
    label, lowercased, holds the lowercased kind: the answer is that of the
    wait and the click on it, and False in the state after the listing when
    no label holds the kind.  So a kind with a space in it matches no
    button: "sign up" does not match the button "Sign Up", stored as
    "signup", and "signup" does. *)
Theorem spaced_kind_never_matches (U : Unicode) (HU : UnicodeLaws U)
  (W : Type) (D : Driver W) :
  (forall w result w',
     get_buttons_xpath w = (Ret result, w') ->
     exists buttons submits w1 w2,
       find_elements TAG_NAME (py "button") w = (Ret buttons, w1) /\
       find_elements XPATH (py "//input[@type='submit']") w1 = (Ret submits, w2) /\
       forall label xpath, In (label, xpath) result ->
         exists k button scanned v0 v1 v2 raw v3,
           nth_error (buttons ++ submits) k = Some button /\
           xpath = button_xpath k /\
           scan_buttons 0 (firstn k (buttons ++ submits)) w2 = (Ret scanned, v0) /\
           is_displayed button v0 = (Ret true, v1) /\
           is_enabled button v1 = (Ret true, v2) /\
           raw_label button v2 = (Ret raw, v3) /\
           label = remove_char c_space (lower raw)) /\
  (forall btn_type timeout w result w1,
     get_buttons_xpath w = (Ret result, w1) ->
     ((forall label xpath, In (label, xpath) result ->
         contains (lower label) (lower btn_type) = false) ->
      find_and_click_btn btn_type timeout w = (Ret false, w1)) /\
     (forall skipped label xpath later,
        result = skipped ++ (label, xpath) :: later ->
        (forall l x, In (l, x) skipped ->
           contains (lower l) (lower btn_type) = false) ->
        contains (lower label) (lower btn_type) = true ->
        (forall element w2 clicked w3,
           until timeout (element_to_be_clickable XPATH xpath) w1 = (Ret element, w2) ->
           click_element xpath w2 = (Ret clicked, w3) ->
           find_and_click_btn btn_type timeout w = (Ret clicked, w3)) /\
        (forall e w2,
           until timeout (element_to_be_clickable XPATH xpath) w1 = (Raise e, w2) ->
           isinstance e Exception = true ->
           find_and_click_btn btn_type timeout w = (Ret false, w2)))) /\
  (forall btn_type timeout w result w1,
     has_char c_space btn_type = true ->
     get_buttons_xpath w = (Ret result, w1) ->
     find_and_click_btn btn_type timeout w = (Ret false, w1)) /\
  remove_char c_space (lower (py "Sign Up")) = py "signup" /\
  (forall timeout w xpath w1,
     get_buttons_xpath w
     = (Ret [(remove_char c_space (lower (py "Sign Up")), xpath)], w1) ->
     find_and_click_btn (py "sign up") timeout w = (Ret false, w1) /\
     forall element w2 clicked w3,
       until timeout (element_to_be_clickable XPATH xpath) w1 = (Ret element, w2) ->
       click_element xpath w2 = (Ret clicked, w3) ->
       find_and_click_btn (py "signup") timeout w = (Ret clicked, w3)).
Proof.
  assert (forall w result w',
     get_buttons_xpath w = (Ret result, w') ->
     exists buttons submits w1 w2,
       find_elements TAG_NAME (py "button") w = (Ret buttons, w1) /\
       find_elements XPATH (py "//input[@type='submit']") w1 = (Ret submits, w2) /\
       forall label xpath, In (label, xpath) result ->
         exists k button scanned v0 v1 v2 raw v3,
           nth_error (buttons ++ submits) k = Some button /\
           xpath = button_xpath k /\
           scan_buttons 0 (firstn k (buttons ++ submits)) w2 = (Ret scanned, v0) /\
           is_displayed button v0 = (Ret true, v1) /\
           is_enabled button v1 = (Ret true, v2) /\
           raw_label button v2 = (Ret raw, v3) /\
           label = remove_char c_space (lower raw)) as Hlabels.
  { intros w result w' H. unfold get_buttons_xpath in H.
    apply bind_inv in H. destruct H as [bs [w1 [Hb H]]].
    apply bind_inv in H. destruct H as [ss [w2 [Hs H]]].
    apply bind_inv in H. destruct H as [scanned [w3 [Hscan H]]].
    injection H as <- _. exists bs, ss, w1, w2.
    split; [exact Hb |]. split; [exact Hs |].
    intros label xpath Hin. apply (proj1 (sort_by_len_in _ _)) in Hin.
    exact (scan_buttons_entries _ _ _ _ _ Hscan label xpath Hin). }
  assert (forall btn_type raw,
     has_char c_space btn_type = true ->
     contains (lower (remove_char c_space (lower raw))) (lower btn_type) = false)
    as Hnever.
  { intros btn_type raw Hsp.
    destruct (contains _ _) eqn:E; [| reflexivity].
    assert (In c_space (lower btn_type)) as Hin.
    { apply has_char_true_iff. now rewrite (lower_space HU). }
    apply (contains_chars _ _ E) in Hin. apply has_char_true_iff in Hin.
    rewrite (lower_space HU), remove_char_gone in Hin. discriminate. }
  assert (remove_char c_space (lower (py "Sign Up")) = py "signup") as Hsign
    by (rewrite (lower_ascii HU) by reflexivity; reflexivity).
  repeat apply conj.
  - exact Hlabels.
  - intros btn_type timeout w result w1 Hlist. split.
    + exact (find_and_click_btn_no_match timeout btn_type w w1 result Hlist).
    + intros skipped label xpath later -> Hskip Hmatch.
      exact (find_and_click_btn_first_match timeout btn_type w w1 skipped later
               label xpath Hlist Hskip Hmatch).
  - intros btn_type timeout w result w1 Hsp Hlist.
    apply (find_and_click_btn_no_match timeout btn_type w w1 result Hlist).
    intros label xpath Hin.
    destruct (Hlabels _ _ _ Hlist) as [bs [ss [v1 [v2 [_ [_ Hall]]]]]].
    destruct (Hall label xpath Hin)
      as [k [b [sc [s0 [s1 [s2 [raw [s3 [_ [_ [_ [_ [_ [_ ->]]]]]]]]]]]]]].
    now apply Hnever.
  - exact Hsign.
  - intros timeout w xpath w1 Hlist. split.
    + apply (find_and_click_btn_no_match timeout _ w w1 _ Hlist).
      intros label x [[= <- <-] | []]. now apply Hnever.
    + intros element w2 clicked w3 Hwait Hclick.
      refine (proj1 (find_and_click_btn_first_match timeout (py "signup") w w1 []
                       [] _ xpath Hlist _ _) element w2 clicked w3 Hwait Hclick).
      * intros l x [].
      * rewrite Hsign. rewrite !(lower_ascii HU) by reflexivity. reflexivity.
Qed.

(** The page with the one button "Sign Up": asked for "sign up" nothing is
    clicked, asked for "signup" the button is. *)
Lemma spaced_kind_never_matches_witness :
  UnicodeLaws ascii_tables /\
  @find_and_click_btn ascii_tables _ Sim.driver (py "sign up") 10 Sim.sign_up_page
  = (Ret false, Sim.sign_up_page) /\
  fst (@find_and_click_btn ascii_tables _ Sim.driver (py "signup") 10 Sim.sign_up_page)
  = Ret true /\
  Sim.events (snd (@find_and_click_btn ascii_tables _ Sim.driver (py "signup") 10
                     Sim.sign_up_page))
  = [Sim.Ran (py "arguments[0].scrollIntoView({block: 'center', behavior: 'smooth'});");
     Sim.Clicked 0].
Proof.
  split; [exact ascii_tables_laws |].
  split; [| split; vm_compute; reflexivity].
  apply (proj1 (proj2 (proj2
           (spaced_kind_never_matches ascii_tables ascii_tables_laws
              Sim.world Sim.driver)))
           (py "sign up") 10 Sim.sign_up_page
           [(py "signup", button_xpath 0)] Sim.sign_up_page);
    vm_compute; reflexivity.
Defined.

(** ** [get_navigable] *)

(** What [clean_url] returns is no longer than what it was given. *)
Lemma before_length (c : char) (s : str) : length (before c s) <= length s.
Proof.
  induction s as [| d t IH]; simpl; [lia |].
  destruct (N.eqb d c); simpl; lia.
Qed.

Lemma before_after (c : char) (s : str) :
  match after c s with
  | Some rest => s = before c s ++ c :: rest
  | None => s = before c s
  end.
Proof.
  induction s as [| d t IH]; simpl; [reflexivity |].
  destruct (N.eqb_spec d c) as [-> | Hd]; [reflexivity |].
  destruct (after c t); simpl; now rewrite <- IH.
Qed.

Lemma split_join_back (c : char) (s : str) : join [c] (split c s) = s.
Proof.
  induction s as [| d t IH]; [reflexivity |]. cbn [split].
  destruct (N.eqb_spec d c) as [-> | Hd].
  - destruct (split c t) as [| h r] eqn:E.
    + exfalso. eapply split_nonempty; eassumption.
    + change (join [c] ([] :: h :: r)) with (c :: join [c] (h :: r)).
      now rewrite IH.
  - destruct (split c t) as [| h r] eqn:E.
    + exfalso. eapply split_nonempty; eassumption.
    + rewrite <- IH. destruct r; reflexivity.
Qed.

Lemma join_cons (sep : str) (x : str) (l : list str) :
  length (join sep (x :: l)) <= length x + length sep + length (join sep l).
Proof.
  destruct l as [| y r]; cbn [join]; [simpl; lia |].
  rewrite !length_app. lia.
Qed.

Lemma join_cons_exact (sep : str) (x y : str) (l : list str) :
  length (join sep (x :: y :: l)) = length x + length sep + length (join sep (y :: l)).
Proof. cbn [join]. rewrite !length_app. lia. Qed.

Lemma essential_params_length (params : list str) :
  length (join (py "&") (essential_params params)) <= length (join (py "&") params).
Proof.
  induction params as [| p rest IH]; [simpl; lia |].
  cbn [essential_params].
  assert (length (join (py "&") rest) <= length (join (py "&") (p :: rest))) as Hrest.
  { destruct rest as [| q r]; [simpl; lia |]. rewrite join_cons_exact. lia. }
  destruct (is_essential_param p).
  - destruct rest as [| q r].
    + simpl. lia.
    + etransitivity; [apply join_cons |]. rewrite join_cons_exact. lia.
  - destruct (is_noise_param p); [simpl; lia | lia].
Qed.

Lemma clean_url_length (url : str) : length (clean_url url) <= length url.
Proof.
  unfold clean_url. cbv zeta. rewrite hd_split_before, split1_before_after.
  pose proof (before_length c_hash url) as Hh.
  pose proof (before_after c_quest (before c_hash url)) as Hq.
  destruct (after c_quest (before c_hash url)) as [query |]; cbn [hd tl].
  - pose proof (essential_params_length (split c_amp query)) as He.
    change (py "&") with [c_amp] in He. rewrite split_join_back in He.
    rewrite Hq in Hh. rewrite length_app in Hh. simpl in Hh.
    destruct (essential_params (split c_amp query)) as [| p ps] eqn:E.
    + lia.
    + rewrite length_app.
      change (length (py "?" ++ join (py "&") (p :: ps)))
        with (S (length (join [c_amp] (p :: ps)))).
      lia.
  - rewrite <- Hq. exact Hh.
Qed.

(** C1, at the input where the code departs from it: the link
    "http://a.com/x.png#a" is displayed and passes [is_link_valid], whose
    extension test reads the whole URL, fragment included; [get_navigable]
    returns it cleaned, as "http://a.com/x.png", a URL with a blocked
    extension that [is_link_valid] itself rejects.  The same happens with a
    query in place of the fragment. *)
Theorem get_navigable_returns_image_link (K : NetlocChecks) :
  @is_link_valid ascii_tables K (py "http://a.com/x.png#a") = Ret true /\
  @get_navigable ascii_tables K _ Sim.driver Sim.gallery_page
  = (Ret [py "http://a.com/x.png"], Sim.gallery_page) /\
  @has_blocked_extension ascii_tables (py "http://a.com/x.png") = true /\
  @is_link_valid ascii_tables K (py "http://a.com/x.png") = Ret false /\
  @is_link_valid ascii_tables K (py "http://a.com/logo.png?v=2") = Ret true /\
  clean_url (py "http://a.com/logo.png?v=2") = py "http://a.com/logo.png".
Proof. repeat split; vm_compute; reflexivity. Qed.

(** ** [find_and_click_submission] *)


(** The single button "Register Now" is clicked, and with no button there
    is nothing to click. *)
Lemma find_and_click_submission_examples :
  fst (@find_and_click_submission ascii_tables _ Sim.driver 10 Sim.register_page)
  = Ret true /\
  Sim.events (snd (@find_and_click_btn ascii_tables _ Sim.driver (py "register") 10
                     Sim.register_page))
  = [Sim.Ran (py "arguments[0].scrollIntoView({block: 'center', behavior: 'smooth'});");
     Sim.Clicked 0] /\
  fst (@find_and_click_submission ascii_tables _ Sim.driver 10 (Sim.loaded [] []))
  = Ret false.
Proof. repeat split; vm_compute; reflexivity. Qed.

Section Submission.
Context {U : Unicode} {W : Type} {D : Driver W}.
Variable timeout : nat.




End Submission.



(** ** [fill_form_inputs] on the small browser *)

Module SimFacts.
Import Sim.

Lemma advance_same (w : world) : advance w (page w) [] = w.
Proof. destruct w. unfold advance. simpl. now rewrite app_nil_r. Qed.

Lemma keeps_with_selected (b : bool) : keeps_skeleton (with_selected b).
Proof. intros e. repeat split. Qed.

Lemma keeps_with_value (v : str) : keeps_skeleton (with_value v).
Proof. intros e. repeat split. Qed.

Lemma positions_update (q : element -> bool) (f : element -> element) :
  (forall e, q (f e) = q e) ->
  forall p i k, positions q k (update i f p) = positions q k p.
Proof.
  intros H. induction p as [| e r IH]; intros i k; [now destruct i |].
  destruct i as [| j]; simpl.
  - now rewrite H.
  - now rewrite IH.
Qed.

Lemma fields_of_update (f : element -> element) (p : list element) (i : nat) :
  keeps_skeleton f -> fields_of (update i f p) = fields_of p.
Proof.
  intros H. unfold fields_of. revert i.
  induction p as [| e r IH]; intros i; [now destruct i |].
  destruct (H e) as [Ht [Hty [Hl [Hx Hd]]]].
  destruct i as [| j]; simpl.
  - rewrite Ht. destruct (str_eqb (el_tag e) (py "input")); [| reflexivity].
    simpl. f_equal. unfold field_of. now rewrite Hl, Hx, Hty, Hd.
  - destruct (str_eqb (el_tag e) (py "input")); simpl; now rewrite IH.
Qed.

Lemma resolve_update (f : element -> element) (p : list element) (i : nat)
  (xpath : str) :
  keeps_skeleton f -> resolve (update i f p) xpath = resolve p xpath.
Proof.
  intros H. unfold resolve. rewrite !positions_update; [reflexivity | |].
  - intros e. destruct (H e) as [_ [_ [_ [Hx _]]]]. now rewrite Hx.
  - intros e. destruct (H e) as [Ht [Hty _]].
    unfold is_button, is_submit, kind. now rewrite Ht, Hty.
Qed.

Lemma target_update (U : Unicode) (f : element -> element) (p : list element)
  (i : nat) (name : str) :
  keeps_skeleton f -> target name (update i f p) = target name p.
Proof.
  intros H. unfold target. rewrite fields_of_update by assumption.
  destruct (first_field (fields_of p) name) as [[| c t] |]; try reflexivity.
  now rewrite resolve_update.
Qed.

Lemma nth_error_update (f : element -> element) (p : list element) (i : nat)
  (e : element) :
  nth_error p i = Some e -> nth_error (update i f p) i = Some (f e).
Proof.
  revert i. induction p as [| x r IH]; intros i H; [now destruct i |].
  destruct i as [| j]; simpl in *; [congruence | auto].
Qed.

Lemma update_twice (f g : element -> element) (p : list element) (i : nat) :
  update i f (update i g p) = update i (fun e => f (g e)) p.
Proof.
  revert i. induction p as [| x r IH]; intros i; [now destruct i |].
  destruct i as [| j]; simpl; [reflexivity | now rewrite IH].
Qed.

(** *** The methods, run *)

Lemma find_all_inputs_loaded (U : Unicode) (w : world) :
  files w = scripts ->
  @find_all_inputs _ driver 3 w
  = (Ret (JsInputs (fields_of (page w))), record (Ran find_inputs_js) (tick w)).
Proof.
  destruct w as [p src clk rdy gr fs evs]. simpl. intros ->. reflexivity.
Qed.

Lemma fill_one_run (U : Unicode) (input_str : str) (v : world) :
  @fill_one U _ driver (JsInputs (fields_of (page v))) input_str v
  = let '(o, p, evs) := fill_run input_str (page v) in (o, advance v p evs).
Proof.
  assert (forall A (a : A), (a, v) = (a, advance v (page v) [])) as Hsame
    by (intros; now rewrite advance_same).
  unfold fill_one, fill_run, target.
  destruct (match_fill_command input_str) as [[name value] |]; [| apply Hsame].
  unfold bind at 1. unfold lift. cbn [find_input_xpath_by_name].
  destruct (first_field (fields_of (page v)) (strip name)) as [[| c xp] |];
    [apply Hsame | | apply Hsame].
  unfold bind at 1. cbn [find_element driver]. unfold do_find_element.
  destruct (resolve (page v) (c :: xp)) as [i |]; [| apply Hsame].
  unfold bind at 1. cbn [get_attribute driver]. unfold do_get_attribute, on_element.
  destruct (nth_error (page v) i) as [e |] eqn:Hn; [| apply Hsame].
  change (str_eqb (py "type") (py "href")) with false.
  change (str_eqb (py "type") (py "type")) with true.
  cbv iota. unfold ret at 1.
  change (lower match el_type e with
                | Some (c0 :: t) => c0 :: t
                | _ => py "text"
                end) with (input_type_of e).
  change (str_eqb (input_type_of e) (py "checkbox")
          || str_eqb (input_type_of e) (py "radio")) with (is_boolean_control e).
  destruct (is_boolean_control e).
  - unfold bind at 1. cbn [is_selected driver]. unfold on_element. rewrite Hn.
    unfold ret at 1.
    change (str_eqb (lower (strip value)) (py "checked")) with (requested (strip value)).
    destruct (Bool.eqb (el_selected e) (requested (strip value))); cbn [negb].
    + apply Hsame.
    + cbn [click driver]. unfold do_click, on_element, clicked. rewrite Hn.
      destruct (el_click_raises e); [apply Hsame |].
      destruct (negb (el_displayed e)); [apply Hsame | reflexivity].
  - unfold bind at 1. cbn [clear driver]. unfold do_clear, on_element, typed.
    rewrite Hn. destruct (editable e) eqn:He; [| apply Hsame].
    cbn [send_keys driver]. unfold do_send_keys, on_element.
    cbn [page record with_page].
    rewrite (nth_error_update (with_value []) _ _ _ Hn).
    change (editable (with_value [] e)) with (editable e). rewrite He.
    cbn [el_value with_value app page record with_page].
    rewrite update_twice. unfold advance, record, with_page. cbn.
    now rewrite <- app_assoc.
Qed.

Lemma fill_form_inputs_run (U : Unicode) (input_str : str) (w : world) :
  files w = scripts ->
  @fill_form_inputs U _ driver [input_str] w
  = let '(o, p, evs) := fill_run input_str (page w) in
    (answer o, advance (record (Ran find_inputs_js) (tick w)) p evs).
Proof.
  intros Hfiles. unfold fill_form_inputs.
  rewrite (bind_ret_eq _ _ (find_all_inputs_loaded U w Hfiles)).
  set (v := record (Ran find_inputs_js) (tick w)).
  pose proof (fill_one_run U input_str v) as Hrun.
  change (page v) with (page w) in Hrun.
  unfold try_, fill_all. unfold bind at 1. unfold bind at 1. rewrite Hrun.
  destruct (fill_run input_str (page w)) as [[[u | e] p] evs]; cbn.
  - reflexivity.
  - now destruct (isinstance e Exception).
Qed.

(** Re-running an instruction on the page it produced changes nothing and
    ends the same way. *)
Lemma fill_run_again (U : Unicode) (input_str : str) (p : list element) :
  let '(o, p1, _) := fill_run input_str p in
  let '(o2, p2, _) := fill_run input_str p1 in
  p2 = p1 /\ o2 = o.
Proof.
  destruct (fill_run input_str p) as [[o p1] evs] eqn:Hr.
  assert (p1 = p -> let '(o2, p2, _) := fill_run input_str p1 in p2 = p1 /\ o2 = o)
    as Hsame.
  { intros ->. rewrite Hr. auto. }
  unfold fill_run in Hr.
  destruct (match_fill_command input_str) as [[name value] |] eqn:Hparse;
    [| injection Hr as _ <- _; now apply Hsame].
  destruct (target (strip name) p) as [[xp [i |]] |] eqn:Ht;
    [| injection Hr as _ <- _; now apply Hsame
     | injection Hr as _ <- _; now apply Hsame].
  destruct (nth_error p i) as [e |] eqn:Hn;
    [| injection Hr as _ <- _; now apply Hsame].
  destruct (is_boolean_control e) eqn:Hb.
  - destruct (Bool.eqb (el_selected e) (requested (strip value))) eqn:Heq;
      [injection Hr as _ <- _; now apply Hsame |].
    unfold clicked in Hr.
    destruct (el_click_raises e) eqn:Hraise;
      [injection Hr as _ <- _; now apply Hsame |].
    destruct (negb (el_displayed e)) eqn:Hd;
      [injection Hr as _ <- _; now apply Hsame |].
    injection Hr as <- <- _.
    destruct (str_eqb (kind e) (py "checkbox")) eqn:Hk.
    + unfold toggled. rewrite Hk. unfold fill_run.
      rewrite Hparse, target_update, Ht by apply keeps_with_selected.
      rewrite (nth_error_update _ _ _ _ Hn).
      change (is_boolean_control (with_selected (negb (el_selected e)) e))
        with (is_boolean_control e).
      rewrite Hb. cbn [el_selected with_selected].
      destruct (el_selected e), (requested (strip value));
        try discriminate; cbn; auto.
    + destruct (str_eqb (kind e) (py "radio")) eqn:Hk2;
        [| apply Hsame; unfold toggled; now rewrite Hk, Hk2].
      unfold toggled. rewrite Hk, Hk2. unfold fill_run.
      rewrite Hparse, target_update, Ht by apply keeps_with_selected.
      rewrite (nth_error_update _ _ _ _ Hn).
      change (is_boolean_control (with_selected true e)) with (is_boolean_control e).
      rewrite Hb. cbn [el_selected with_selected].
      destruct (requested (strip value)); cbn [Bool.eqb]; [auto |].
      unfold clicked. cbn [el_click_raises el_displayed with_selected].
      rewrite Hraise, Hd. unfold toggled.
      change (kind (with_selected true e)) with (kind e). rewrite Hk, Hk2.
      rewrite update_twice. split; reflexivity.
  - unfold typed in Hr.
    destruct (editable e) eqn:He; [| injection Hr as _ <- _; now apply Hsame].
    injection Hr as <- <- _. unfold fill_run.
    rewrite Hparse, target_update, Ht by apply keeps_with_value.
    rewrite (nth_error_update _ _ _ _ Hn).
    change (is_boolean_control (with_value (strip value) e))
      with (is_boolean_control e).
    rewrite Hb. unfold typed.
    change (editable (with_value (strip value) e)) with (editable e). rewrite He.
    rewrite update_twice. split; reflexivity.
Qed.

End SimFacts.

Lemma strip_ascii (U : Unicode) (HU : UnicodeLaws U) (s : str) :
  forallb is_ascii s = true -> @strip U s = @strip ascii_tables s.
Proof. intros Hs. apply strip_agree. now apply agree_ascii. Qed.

Lemma skipn_past {A} (a b : list A) : skipn (length a) (a ++ b) = b.
Proof. induction a as [| x a IH]; [reflexivity | exact IH]. Qed.

(** C8: on the small browser with its scripts in place, filling one
    instruction a second time changes no element and ends as the first
    time.  A boolean control is clicked only when its checked state differs
    from the requested one, and is clicked then if it can be.  A text
    control is cleared before the value is typed, so it holds exactly the
    value.  The instruction "[email](a@b.com)" names the field "email" and
    the value "a@b.com". *)
Theorem fill_form_inputs_idempotent (U : Unicode)
  (w : Sim.world) (input_str : str) :
  Sim.files w = Sim.scripts ->
  let first := @fill_form_inputs U _ Sim.driver [input_str] w in
  let again := @fill_form_inputs U _ Sim.driver [input_str] (snd first) in
  let recorded := skipn (length (Sim.events w)) (Sim.events (snd first)) in
  (Sim.page (snd again) = Sim.page (snd first) /\ fst again = fst first) /\
  (forall name value xpath i e,
     match_fill_command input_str = Some (name, value) ->
     Sim.target (strip name) (Sim.page w) = Some (xpath, Some i) ->
     nth_error (Sim.page w) i = Some e ->
     (Sim.is_boolean_control e = true ->
        (forall j, In (Sim.Clicked j) recorded ->
                   j = i /\ Sim.el_selected e = negb (Sim.requested (strip value))) /\
        (Sim.el_selected e = negb (Sim.requested (strip value)) ->
         Sim.el_click_raises e = None -> Sim.el_displayed e = true ->
         In (Sim.Clicked i) recorded)) /\
     (Sim.is_boolean_control e = false -> Sim.editable e = true ->
        fst first = Ret true /\
        recorded = [Sim.Ran Sim.find_inputs_js; Sim.Cleared i; Sim.Typed i (strip value)] /\
        option_map Sim.el_value (nth_error (Sim.page (snd first)) i)
        = Some (strip value))) /\
  match_fill_command (py "[email](a@b.com)") = Some (py "email", py "a@b.com") /\
  (UnicodeLaws U ->
   strip (py "email") = py "email" /\ strip (py "a@b.com") = py "a@b.com").
Proof.
  intros Hfiles first again recorded.
  assert (first = let '(o, p, evs) := Sim.fill_run input_str (Sim.page w) in
                  (Sim.answer o,
                   Sim.advance (Sim.record (Sim.Ran Sim.find_inputs_js) (Sim.tick w)) p evs))
    as Hfirst by (apply SimFacts.fill_form_inputs_run; exact Hfiles).
  repeat apply conj.
  - subst again. rewrite Hfirst.
    pose proof (SimFacts.fill_run_again U input_str (Sim.page w)) as Hagain.
    destruct (Sim.fill_run input_str (Sim.page w)) as [[o p] evs].
    rewrite SimFacts.fill_form_inputs_run by exact Hfiles.
    cbn [snd fst Sim.page Sim.advance].
    destruct (Sim.fill_run input_str p) as [[o2 p2] evs2].
    destruct Hagain as [-> ->]. reflexivity.
  - subst again. rewrite Hfirst.
    pose proof (SimFacts.fill_run_again U input_str (Sim.page w)) as Hagain.
    destruct (Sim.fill_run input_str (Sim.page w)) as [[o p] evs].
    rewrite SimFacts.fill_form_inputs_run by exact Hfiles.
    cbn [snd fst Sim.page Sim.advance].
    destruct (Sim.fill_run input_str p) as [[o2 p2] evs2].
    destruct Hagain as [_ ->]. reflexivity.
  - intros name value xpath i e Hparse Ht Hn.
    assert (recorded = Sim.Ran Sim.find_inputs_js
                       :: snd (Sim.fill_run input_str (Sim.page w))) as Hrec.
    { subst recorded. rewrite Hfirst.
      destruct (Sim.fill_run input_str (Sim.page w)) as [[o p] evs].
      cbn [snd Sim.events Sim.advance Sim.record Sim.tick].
      rewrite <- app_assoc. apply skipn_past. }
    assert (Sim.fill_run input_str (Sim.page w)
            = if Sim.is_boolean_control e
              then if Bool.eqb (Sim.el_selected e) (Sim.requested (strip value))
                   then (Ret tt, Sim.page w, [])
                   else Sim.clicked i e (Sim.page w)
              else Sim.typed i e (strip value) (Sim.page w)) as Hrun.
    { unfold Sim.fill_run. now rewrite Hparse, Ht, Hn. }
    split.
    + intros Hb. rewrite Hb in Hrun. rewrite Hrec, Hrun. split.
      * intros j Hj. destruct Hj as [Hj | Hj]; [discriminate |].
        destruct (Bool.eqb (Sim.el_selected e) (Sim.requested (strip value))) eqn:Heq;
          [contradiction |].
        unfold Sim.clicked in Hj.
        destruct (Sim.el_click_raises e); [contradiction |].
        destruct (negb (Sim.el_displayed e)); [contradiction |].
        destruct Hj as [Hj | []]. injection Hj as <-. split; [reflexivity |].
        destruct (Sim.el_selected e), (Sim.requested (strip value));
          try discriminate; reflexivity.
      * intros Hdiff Hraise Hshown. rewrite Hdiff.
        destruct (Sim.requested (strip value)); cbn [negb Bool.eqb];
          unfold Sim.clicked; rewrite Hraise, Hshown; cbn; auto.
    + intros Hb He. rewrite Hb in Hrun. unfold Sim.typed in Hrun. rewrite He in Hrun.
      rewrite Hrec, Hfirst, Hrun. cbn [fst snd Sim.answer Sim.page Sim.advance].
      repeat split.
      rewrite (SimFacts.nth_error_update _ _ _ _ Hn). reflexivity.
  - reflexivity.
  - intros HU. split; rewrite (strip_ascii U HU) by reflexivity; reflexivity.
Qed.

(** The form with the field "email" (holding "old") and the checkbox
    "subscribe": after "[email](a@b.com)" the field holds "a@b.com", and
    filling again leaves the page as it is. *)
Lemma fill_form_inputs_idempotent_witness :
  Sim.files Sim.signup_form = Sim.scripts /\
  (let first := @fill_form_inputs ascii_tables _ Sim.driver
                  [py "[email](a@b.com)"] Sim.signup_form in
   let again := @fill_form_inputs ascii_tables _ Sim.driver
                  [py "[email](a@b.com)"] (snd first) in
   Sim.page (snd again) = Sim.page (snd first) /\ fst again = fst first) /\
  option_map Sim.el_value
    (nth_error (Sim.page (snd (@fill_form_inputs ascii_tables _ Sim.driver
                                 [py "[email](a@b.com)"] Sim.signup_form))) 0)
  = Some (py "a@b.com") /\
  option_map Sim.el_selected
    (nth_error (Sim.page (snd (@fill_form_inputs ascii_tables _ Sim.driver
                                 [py "[subscribe](checked)"] Sim.signup_form))) 1)
  = Some true.
Proof.
  split; [reflexivity |]. split; [| split; vm_compute; reflexivity].
  exact (proj1 (fill_form_inputs_idempotent ascii_tables
                  Sim.signup_form (py "[email](a@b.com)") eq_refl)).
Defined.

(** ** What [get_navigable] does guarantee *)

Section Navigable.
Context {U : Unicode} {K : NetlocChecks} {W : Type} {D : Driver W}.

(** Every URL of the comprehension is the cleaned URL of a displayed link
    that passed [is_link_valid] as it stood on the page. *)
Lemma navigable_of_sound (links : list link) (urls : list str) :
  navigable_of links = Ret urls ->
  forall url, In url urls ->
    exists l, In l links /\ link_is_displayed l = true /\
              is_link_valid (link_url l) = Ret true /\
              url = clean_url (link_url l).
Proof.
  revert urls. induction links as [| l rest IH]; intros urls H url Hin.
  - injection H as <-. contradiction.
  - cbn [navigable_of] in H.
    destruct (link_is_displayed l) eqn:Hd.
    + destruct (is_link_valid (link_url l)) as [valid | e] eqn:Hv; [| discriminate].
      destruct (navigable_of rest) as [others | e]; [| discriminate].
      injection H as <-. destruct valid.
      * destruct Hin as [<- | Hin].
        -- exists l. repeat split; auto. now left.
        -- destruct (IH others eq_refl url Hin) as [l' [Hl' Hrest]].
           exists l'. split; [now right | exact Hrest].
      * destruct (IH others eq_refl url Hin) as [l' [Hl' Hrest]].
        exists l'. split; [now right | exact Hrest].
    + destruct (IH urls H url Hin) as [l' [Hl' Hrest]].
      exists l'. split; [now right | exact Hrest].
Qed.

Lemma is_link_valid_length (url : str) :
  is_link_valid url = Ret true -> length url <= 64.
Proof.
  unfold is_link_valid. destruct (64 <? length url) eqn:E; [discriminate |].
  intros _. apply Nat.ltb_ge in E. exact E.
Qed.

(** [get_navigable] raises no Exception, and each URL it returns has at
    most 64 characters. *)
Lemma get_navigable_lengths (w w' : W) (urls : list str) :
  get_navigable w = (Ret urls, w') ->
  forall url, In url urls -> length url <= 64.
Proof.
  unfold get_navigable, try_. intros H url Hin.
  destruct ((elements <- find_elements TAG_NAME (py "a") ;;
             links <- collect_links elements ;; lift (navigable_of links)) w)
    as [[found | e] w1] eqn:Hbody.
  - injection H as <- _.
    apply bind_inv in Hbody. destruct Hbody as [elements [w2 [_ Hbody]]].
    apply bind_inv in Hbody. destruct Hbody as [links [w3 [_ Hbody]]].
    unfold lift in Hbody. injection Hbody as Hnav _.
    destruct (navigable_of_sound _ _ Hnav url Hin) as [l [_ [_ [Hv ->]]]].
    apply is_link_valid_length in Hv.
    pose proof (clean_url_length (link_url l)). lia.
  - cbn [select_clause] in H. destruct (isinstance e Exception).
    + injection H as <- _. contradiction.
    + discriminate.
Qed.

End Navigable.

(* ================================================================== *)
(** * Part III: further properties of the code                        *)
(* ================================================================== *)

(** ** Inverting a run *)

Section Run3.
Context {W : Type}.

Lemma try_inv_ret {A} (body : M W A) (clauses : list (clause W A))
  (w w' : W) (a : A) :
  try_ body clauses w = (Ret a, w') ->
  body w = (Ret a, w') \/
  exists e w1 handler,
    body w = (Raise e, w1) /\ select_clause clauses e = Some handler /\
    handler w1 = (Ret a, w').
Proof.
  unfold try_. destruct (body w) as [[b | e] w1]; [now left |].
  destruct (select_clause clauses e) as [handler |] eqn:E; [| discriminate].
  intros H. right. exists e, w1, handler. auto.
Qed.

Lemma try_inv_raise {A} (body : M W A) (clauses : list (clause W A))
  (w w' : W) (x : exn) :
  try_ body clauses w = (Raise x, w') ->
  exists e w1, body w = (Raise e, w1) /\
    match select_clause clauses e with
    | Some handler => handler w1 = (Raise x, w')
    | None => x = e /\ w' = w1
    end.
Proof.
  unfold try_. destruct (body w) as [[b | e] w1]; [discriminate |].
  intros H. exists e, w1. split; [reflexivity |].
  destruct (select_clause clauses e); [exact H |].
  injection H as -> ->. auto.
Qed.

End Run3.

(** ** [load_js] *)

(** X1: [load_js] returns the text of the script file; a missing file is
    raised as a plain Exception, every other failure as it was raised; so
    FileNotFoundError never leaves [load_js]. *)
Theorem load_js_reports (W : Type) (D : Driver W) (file_name : str) (w w' : W) :
  (forall content,
     read_file (js_scripts_folder ++ file_name) w = (Ret content, w') ->
     load_js file_name w = (Ret content, w')) /\
  (forall e,
     read_file (js_scripts_folder ++ file_name) w = (Raise e, w') ->
     isinstance e FileNotFoundError = true ->
     load_js file_name w = (Raise Exception, w')) /\
  (forall e,
     read_file (js_scripts_folder ++ file_name) w = (Raise e, w') ->
     isinstance e FileNotFoundError = false ->
     load_js file_name w = (Raise e, w')) /\
  (forall e, load_js file_name w = (Raise e, w') ->
             isinstance e FileNotFoundError = false).
Proof.
  repeat apply conj.
  - intros content H. unfold load_js. now apply try_ret_eq.
  - intros e H He. unfold load_js. rewrite (try_raise_eq _ _ H).
    cbn [select_clause]. now rewrite He.
  - intros e H He. unfold load_js. rewrite (try_raise_eq _ _ H).
    cbn [select_clause]. rewrite He. now destruct (isinstance e Exception).
  - intros e H. unfold load_js in H. apply try_inv_raise in H.
    destruct H as [e0 [w1 [_ H]]]. cbn [select_clause] in H.
    destruct (isinstance e0 FileNotFoundError) eqn:E0.
    + injection H as <- _. reflexivity.
    + destruct (isinstance e0 Exception).
      * injection H as <- _. exact E0.
      * destruct H as [-> _]. exact E0.
Qed.

Lemma load_js_reports_witness :
  @read_file _ Sim.driver (py "./sources/web_scripts/find_inputs.js") Sim.no_scripts
  = (Raise FileNotFoundError, Sim.no_scripts) /\
  @load_js _ Sim.driver (py "find_inputs.js") Sim.no_scripts
  = (Raise Exception, Sim.no_scripts).
Proof.
  split; [reflexivity |].
  apply (proj1 (proj2 (load_js_reports Sim.world Sim.driver (py "find_inputs.js")
                         Sim.no_scripts Sim.no_scripts)) FileNotFoundError);
    reflexivity.
Defined.

(** ** A page without a body *)

Section NoBody.
Context {U : Unicode} {W : Type} {D : Driver W}.

Lemma fill_all_nothing_listed (input_list : list str) (w : W) :
  fill_all (JsInputs []) input_list w = (Ret tt, w).
Proof.
  induction input_list as [| input_str rest IH]; [reflexivity |].
  cbn [fill_all]. unfold bind at 1.
  assert (fill_one (JsInputs []) input_str w = (Ret tt, w)) as ->.
  { unfold fill_one. destruct (match_fill_command input_str) as [[name value] |];
      reflexivity. }
  exact IH.
Qed.

End NoBody.

(** X2: when the wait for the document body raises an Exception (a
    timeout included), [find_all_inputs] returns the empty list without
    reading the script, [get_form_inputs] reports that the page has no
    form, and [fill_form_inputs] returns True although it filled nothing. *)
Theorem nothing_found_without_body (U : Unicode) (W : Type) (D : Driver W)
  (field_id : input_field -> option str) (input_list : list str)
  (timeout : nat) (w w1 w3 : W) (e e3 : exn) :
  until timeout (presence_of_element_located TAG_NAME (py "body")) w = (Raise e, w1) ->
  isinstance e Exception = true ->
  until 3 (presence_of_element_located TAG_NAME (py "body")) w = (Raise e3, w3) ->
  isinstance e3 Exception = true ->
  find_all_inputs timeout w = (Ret (JsInputs []), w1) /\
  get_form_inputs field_id w = (inl [no_forms_message], w3) /\
  fill_form_inputs input_list w = (Ret true, w3).
Proof.
  intros Hwait He Hwait3 He3.
  assert (forall t v x, until t (presence_of_element_located TAG_NAME (py "body")) w
                        = (Raise x, v) ->
                        isinstance x Exception = true ->
                        find_all_inputs t w = (Ret (JsInputs []), v)) as Hfind.
  { intros t v x Hw Hx. unfold find_all_inputs.
    assert (try_ (until t (presence_of_element_located TAG_NAME (py "body")) ;;;
                  ret true) [Except Exception (fun _ => ret false)] w
            = (Ret false, v)) as Htry.
    { rewrite (try_raise_eq _ _ (bind_raise_eq _ _ Hw)). cbn [select_clause].
      now rewrite Hx. }
    now rewrite (bind_ret_eq _ _ Htry). }
  repeat apply conj.
  - exact (Hfind timeout w1 e Hwait He).
  - unfold get_form_inputs. now rewrite (Hfind 3 w3 e3 Hwait3 He3).
  - unfold fill_form_inputs. rewrite (bind_ret_eq _ _ (Hfind 3 w3 e3 Hwait3 He3)).
    apply try_ret_eq. unfold bind. now rewrite fill_all_nothing_listed.
Qed.

Lemma nothing_found_without_body_witness :
  @until _ Pages.bodyless _ 3
     (@presence_of_element_located _ Pages.bodyless TAG_NAME (py "body"))
     Sim.signup_form
  = (Raise TimeoutException, Sim.tick (Sim.tick (Sim.tick (Sim.tick Sim.signup_form)))) /\
  @fill_form_inputs ascii_tables _ Pages.bodyless [py "[email](a@b.com)"] Sim.signup_form
  = (Ret true, Sim.tick (Sim.tick (Sim.tick (Sim.tick Sim.signup_form)))).
Proof.
  assert (@until _ Pages.bodyless _ 3
            (@presence_of_element_located _ Pages.bodyless TAG_NAME (py "body"))
            Sim.signup_form
          = (Raise TimeoutException,
             Sim.tick (Sim.tick (Sim.tick (Sim.tick Sim.signup_form))))) as H
    by reflexivity.
  split; [exact H |].
  exact (proj2 (proj2 (nothing_found_without_body ascii_tables Sim.world
                         Pages.bodyless (fun _ => None) [py "[email](a@b.com)"] 3
                         Sim.signup_form _ _ TimeoutException TimeoutException
                         H eq_refl H eq_refl))).
Defined.

(** ** [go_to], the safety script *)

(** X3: [go_to] answers True only after the page was loaded, the wait
    ended, and the safety script was read and run. *)
Theorem go_to_true_ran_safety_script (U : Unicode) (W : Type) (D : Driver W)
  (url : str) (w w' : W) :
  go_to url w = (Ret true, w') ->
  exists w0 w1 w2 script w3 v,
    window_handles w = (Ret tt, w0) /\
    get url w0 = (Ret tt, w1) /\
    until 30 page_settled w1 = (Ret tt, w2) /\
    load_js (py "inject_safety_script.js") w2 = (Ret script, w3) /\
    execute_script script [] w3 = (Ret v, w').
Proof.
  intros H. unfold go_to in H. apply try_inv_ret in H.
  destruct H as [H | [e [w1 [handler [_ [Hsel H]]]]]].
  - unfold go_to_body in H.
    apply bind_inv in H. destruct H as [[] [w0 [H0 H]]].
    apply bind_inv in H. destruct H as [[] [w1 [H1 H]]].
    apply bind_inv in H. destruct H as [[] [w2 [H2 H]]].
    apply bind_inv in H. destruct H as [[] [w4 [H3 H]]].
    injection H as <-. unfold apply_web_safety in H3.
    apply bind_inv in H3. destruct H3 as [script [w3 [Hload H3]]].
    apply bind_inv in H3. destruct H3 as [v [w5 [Hrun H3]]].
    injection H3 as <-.
    exists w0, w1, w2, script, w3, v. auto.
  - cbn [select_clause] in Hsel.
    destruct (isinstance e TimeoutException);
      [injection Hsel as <-; discriminate |].
    destruct (isinstance e WebDriverException);
      [injection Hsel as <-; discriminate |].
    destruct (isinstance e Exception); [| discriminate].
    injection Hsel as <-. discriminate.
Qed.

Lemma go_to_true_ran_safety_script_witness :
  fst (@go_to ascii_tables _ Sim.driver (py "http://a.com/")
         (Sim.loaded [] (py "<body>hello</body>"))) = Ret true /\
  exists w0 w1 w2 script w3 v,
    @window_handles _ Sim.driver (Sim.loaded [] (py "<body>hello</body>")) = (Ret tt, w0) /\
    @get _ Sim.driver (py "http://a.com/") w0 = (Ret tt, w1) /\
    @until _ Sim.driver _ 30 (@page_settled ascii_tables _ Sim.driver) w1 = (Ret tt, w2) /\
    @load_js _ Sim.driver (py "inject_safety_script.js") w2 = (Ret script, w3) /\
    @execute_script _ Sim.driver script [] w3
    = (Ret v, snd (@go_to ascii_tables _ Sim.driver (py "http://a.com/")
                     (Sim.loaded [] (py "<body>hello</body>")))).
Proof.
  split; [vm_compute; reflexivity |].
  apply (go_to_true_ran_safety_script ascii_tables Sim.world Sim.driver).
  vm_compute. reflexivity.
Defined.

(** X4: a page that loads and settles is still a fatal failure of [go_to]
    when the safety script file is missing: the Exception of [load_js] is
    raised to the caller, not answered with False. *)
Theorem go_to_needs_safety_script (U : Unicode) (W : Type) (D : Driver W)
  (url : str) (w w0 w1 w2 w3 : W) (e : exn) :
  window_handles w = (Ret tt, w0) ->
  get url w0 = (Ret tt, w1) ->
  until 30 page_settled w1 = (Ret tt, w2) ->
  read_file (js_scripts_folder ++ py "inject_safety_script.js") w2 = (Raise e, w3) ->
  isinstance e FileNotFoundError = true ->
  go_to url w = (Raise Exception, w3).
Proof.
  intros H0 H1 H2 Hfile He.
  assert (load_js (py "inject_safety_script.js") w2 = (Raise Exception, w3)) as Hload.
  { unfold load_js. rewrite (try_raise_eq _ _ Hfile). cbn [select_clause].
    now rewrite He. }
  assert (go_to_body url w = (Raise Exception, w3)) as Hbody.
  { unfold go_to_body.
    rewrite (bind_ret_eq _ _ H0), (bind_ret_eq _ _ H1), (bind_ret_eq _ _ H2).
    apply bind_raise_eq. unfold apply_web_safety. now apply bind_raise_eq. }
  unfold go_to. rewrite (try_raise_eq _ _ Hbody). reflexivity.
Qed.

Lemma go_to_needs_safety_script_witness :
  fst (@go_to ascii_tables _ Sim.driver (py "http://a.com/") Sim.no_scripts)
  = Raise Exception.
Proof.
  set (url := py "http://a.com/").
  pose (w1 := snd (@get _ Sim.driver url Sim.no_scripts)).
  pose (w2 := snd (@until _ Sim.driver _ 30 (@page_settled ascii_tables _ Sim.driver) w1)).
  rewrite (go_to_needs_safety_script ascii_tables Sim.world Sim.driver url
             Sim.no_scripts Sim.no_scripts w1 w2 w2 FileNotFoundError);
    vm_compute; reflexivity.
Defined.

(** ** Clicking *)

(** X5: [click_element] answers True only after the wait gave an element
    that was displayed and enabled, the scroll ran, and the click on that
    element returned. *)
Theorem click_element_true_clicked (W : Type) (D : Driver W)
  (xpath : str) (w w' : W) :
  click_element xpath w = (Ret true, w') ->
  exists element w1 w2 w3 v w4,
    until 10 (element_to_be_clickable XPATH xpath) w = (Ret element, w1) /\
    is_displayed element w1 = (Ret true, w2) /\
    is_enabled element w2 = (Ret true, w3) /\
    execute_script
      (py "arguments[0].scrollIntoView({block: 'center', behavior: 'smooth'});")
      [element] w3 = (Ret v, w4) /\
    click element w4 = (Ret tt, w').
Proof.
  intros H. unfold click_element in H. apply try_inv_ret in H.
  destruct H as [H | [e [w1 [handler [_ [Hsel H]]]]]].
  - apply bind_inv in H. destruct H as [element [w1 [Hwait H]]].
    apply bind_inv in H. destruct H as [displayed [w2 [Hshown H]]].
    destruct displayed; cbn [negb] in H; [| discriminate].
    apply bind_inv in H. destruct H as [enabled [w3 [Hon H]]].
    destruct enabled; cbn [negb] in H; [| discriminate].
    apply try_inv_ret in H.
    destruct H as [H | [e [w4 [handler [_ [Hsel H]]]]]].
    + apply bind_inv in H. destruct H as [v [w4 [Hscroll H]]].
      apply bind_inv in H. destruct H as [[] [w5 [Hclick H]]].
      injection H as <-.
      exists element, w1, w2, w3, v, w4. auto.
    + cbn [select_clause] in Hsel. injection Hsel as <-. discriminate.
  - cbn [select_clause] in Hsel.
    destruct (isinstance e TimeoutException);
      [injection Hsel as <-; discriminate |].
    destruct (isinstance e Exception); [| discriminate].
    injection Hsel as <-. discriminate.
Qed.

Lemma click_element_true_clicked_witness :
  fst (@click_element _ Sim.driver (button_xpath 0) Sim.register_page) = Ret true /\
  exists element w1 w2 w3 v w4,
    @until _ Sim.driver _ 10 (@element_to_be_clickable _ Sim.driver XPATH (button_xpath 0))
      Sim.register_page = (Ret element, w1) /\
    @is_displayed _ Sim.driver element w1 = (Ret true, w2) /\
    @is_enabled _ Sim.driver element w2 = (Ret true, w3) /\
    @execute_script _ Sim.driver
      (py "arguments[0].scrollIntoView({block: 'center', behavior: 'smooth'});")
      [element] w3 = (Ret v, w4) /\
    @click _ Sim.driver element w4
    = (Ret tt, snd (@click_element _ Sim.driver (button_xpath 0) Sim.register_page)).
Proof.
  split; [vm_compute; reflexivity |].
  apply (click_element_true_clicked Sim.world Sim.driver).
  vm_compute. reflexivity.
Defined.

Section Submission.
Context {U : Unicode} {W : Type} {D : Driver W}.

Lemma click_any_true (submissions : list str) (timeout : nat) (w w' : W) :
  click_any submissions timeout w = (Ret true, w') ->
  exists label v, In label submissions /\
                  find_and_click_btn label timeout v = (Ret true, w').
Proof.
  revert w. induction submissions as [| s rest IH]; intros w H; [discriminate |].
  cbn [click_any] in H. apply bind_inv in H.
  destruct H as [clicked [w1 [Hbtn H]]]. destruct clicked.
  - injection H as <-. exists s, w. split; [now left | exact Hbtn].
  - destruct (IH _ H) as [label [v [Hin Hv]]].
    exists label, v. split; [now right | exact Hv].
Qed.

End Submission.

(** X6: [find_and_click_submission] is not free of exceptions: what is
    raised while the buttons are listed for the first label leaves the
    method as raised.  And it answers True only when [find_and_click_btn]
    answered True for one of its labels. *)
Theorem find_and_click_submission_outcomes (U : Unicode) (W : Type) (D : Driver W)
  (timeout : nat) (w : W) :
  (forall e w1, get_buttons_xpath w = (Raise e, w1) ->
                find_and_click_submission timeout w = (Raise e, w1)) /\
  (forall w', find_and_click_submission timeout w = (Ret true, w') ->
     exists label v, In label possible_submissions /\
                     find_and_click_btn label timeout v = (Ret true, w')).
Proof.
  split.
  - intros e w1 H. unfold find_and_click_submission, possible_submissions.
    cbn [click_any]. apply bind_raise_eq. unfold find_and_click_btn.
    now apply bind_raise_eq.
  - intros w'. apply click_any_true.
Qed.

Lemma find_and_click_submission_outcomes_witness :
  @find_and_click_submission ascii_tables _ Pages.crashed 10 Sim.register_page
  = (Raise WebDriverException, Sim.register_page).
Proof.
  apply (proj1 (find_and_click_submission_outcomes ascii_tables Sim.world
                  Pages.crashed 10 Sim.register_page)).
  reflexivity.
Defined.

(** ** Links *)

Lemma contains_inside (a p b : str) : contains (a ++ p ++ b) p = true.
Proof.
  induction a as [| c a IH].
  - cbn [app]. destruct (p ++ b) eqn:E; cbn [contains]; rewrite <- E;
      now rewrite startswith_app.
  - cbn [app contains]. rewrite IH. apply orb_true_r.
Qed.

Lemma index_of_cuts (c : char) (s : str) (n : nat) :
  index_of c s = Some n -> s = firstn n s ++ c :: skipn (S n) s.
Proof.
  revert n. induction s as [| d t IH]; intros n H; [discriminate |].
  cbn [index_of] in H. destruct (N.eqb_spec d c) as [-> | Hd].
  - injection H as <-. reflexivity.
  - destruct (index_of c t) as [i |]; [| discriminate].
    injection H as <-. cbn [firstn skipn app]. f_equal. now apply IH.
Qed.

Lemma startswith_cuts (s p : str) :
  startswith s p = true -> s = p ++ skipn (length p) s.
Proof.
  revert s. induction p as [| c p IH]; intros s H; [reflexivity |].
  destruct s as [| d s]; [discriminate |]. cbn [startswith] in H.
  apply andb_true_iff in H. destruct H as [Hc Hp]. apply N.eqb_eq in Hc. subst d.
  cbn [length skipn app]. f_equal. now apply IH.
Qed.

Section LinkShape.
Context {U : Unicode} {K : NetlocChecks}.

Lemma split_scheme_found (url sch url1 : str) :
  split_scheme url = (sch, url1) -> sch <> [] ->
  exists n, index_of c_colon url = Some n /\ url1 = skipn (S n) url.
Proof.
  unfold split_scheme. intros H Hs.
  destruct (index_of c_colon url) as [[| i] |];
    try (injection H as <- _; congruence).
  destruct url as [| c0 rest]; [injection H as <- _; congruence |].
  destruct (ascii_isalpha c0 && _); [| injection H as <- _; congruence].
  injection H as _ <-. exists (S i). auto.
Qed.

Lemma urlparse_scheme_netloc (url : str) (parsed : ParseResult) :
  urlparse url = Ret parsed ->
  scheme parsed <> [] -> netloc parsed <> [] ->
  contains (url_sanitized url) (py "://") = true.
Proof.
  unfold urlparse. generalize (url_sanitized url). clear url. intros url.
  destruct (split_scheme url) as [sch url1] eqn:Es.
  destruct (startswith url1 (py "//")) eqn:Esl.
  - destruct (splitnetloc (skipn 2 url1)) as [loc url2].
    destruct (xorb _ _); [discriminate |].
    destruct (_ && negb (bracketed_host_allowed loc)); [discriminate |].
    destruct (if has_char c_hash url2 then _ else _) as [url3 frag].
    destruct (if has_char c_quest url3 then _ else _) as [url4 qry].
    destruct (_ && negb (normalized_netloc_allowed loc)); [discriminate |].
    destruct (if _ && _ then _ else _) as [pth prm].
    intros H Hs _. injection H as <-. cbn [scheme] in Hs.
    destruct (split_scheme_found url sch url1 Es Hs) as [n [Hn Hrest]].
    pose proof (index_of_cuts _ _ _ Hn) as Hurl. rewrite <- Hrest in Hurl.
    pose proof (startswith_cuts _ _ Esl) as Hslashes.
    pose proof (contains_inside (firstn n url) (py "://") (skipn 2 url1)) as Hc.
    change (firstn n url ++ py "://" ++ skipn 2 url1)
      with (firstn n url ++ c_colon :: (py "//" ++ skipn (length (py "//")) url1)) in Hc.
    rewrite <- Hslashes, <- Hurl in Hc. exact Hc.
  - destruct (xorb _ _); [discriminate |].
    destruct (_ && negb (bracketed_host_allowed [])); [discriminate |].
    destruct (if has_char c_hash url1 then _ else _) as [url3 frag].
    destruct (if has_char c_quest url3 then _ else _) as [url4 qry].
    destruct (_ && negb (normalized_netloc_allowed [])); [discriminate |].
    destruct (if _ && _ then _ else _) as [pth prm].
    intros H _ Hn. injection H as <-. now cbn [netloc] in Hn.
Qed.

(** [urlparse] raises nothing but ValueError. *)
Lemma urlparse_raises (url : str) (e : exn) :
  urlparse url = Raise e -> e = ValueError.
Proof.
  unfold urlparse.
  destruct (split_scheme (url_sanitized url)) as [sch url1].
  destruct (if startswith url1 (py "//") then _ else _) as [loc url2].
  destruct (xorb _ _); [now intros [= <-] |].
  destruct (_ && negb (bracketed_host_allowed loc)); [now intros [= <-] |].
  destruct (if has_char c_hash url2 then _ else _) as [url3 frag].
  destruct (if has_char c_quest url3 then _ else _) as [url4 qry].
  destruct (_ && negb (normalized_netloc_allowed loc)); [now intros [= <-] |].
  destruct (if _ && _ then _ else _) as [pth prm]. discriminate.
Qed.

Lemma is_link_valid_raises (url : str) (e : exn) :
  is_link_valid url = Raise e -> e = ValueError.
Proof.
  unfold is_link_valid. destruct (64 <? length url); [discriminate |].
  destruct (urlparse url) as [parsed | x] eqn:E.
  - destruct (scheme parsed); [discriminate |].
    destruct (netloc parsed); [discriminate |].
    destruct (search_numeric_tail _); [discriminate |].
    destruct (has_blocked_extension url); discriminate.
  - intros H. injection H as <-. exact (urlparse_raises _ _ E).
Qed.

End LinkShape.

(** X7: a URL that [is_link_valid] accepts has at most 64 characters and
    no blocked extension at its end; it parses to a scheme and a network
    location that are not empty and to a path that does not end in a slash
    and digits; and, read as [urlparse] reads it (stripped of leading
    control characters and spaces, tabs and line breaks removed) it holds
    "://".  The only exception [is_link_valid] raises is the ValueError of
    [urlparse]. *)
Theorem is_link_valid_accepts (U : Unicode) (K : NetlocChecks) (url : str) :
  (is_link_valid url = Ret true ->
   length url <= 64 /\ contains (url_sanitized url) (py "://") = true /\
   has_blocked_extension url = false /\
   exists parsed, urlparse url = Ret parsed /\
                  scheme parsed <> [] /\ netloc parsed <> [] /\
                  search_numeric_tail (path parsed) = false) /\
  (forall e, is_link_valid url = Raise e -> e = ValueError).
Proof.
  split; [| apply is_link_valid_raises].
  unfold is_link_valid. destruct (64 <? length url) eqn:El; [discriminate |].
  apply Nat.ltb_ge in El.
  destruct (urlparse url) as [parsed | x] eqn:E; [| discriminate].
  destruct (scheme parsed) as [| s0 st] eqn:Es; [discriminate |].
  destruct (netloc parsed) as [| n0 nt] eqn:En; [discriminate |].
  destruct (search_numeric_tail (path parsed)) eqn:Et; [discriminate |].
  destruct (has_blocked_extension url) eqn:Eb; [discriminate |].
  intros _. split; [exact El |]. split; [| split; [reflexivity |]].
  - apply (urlparse_scheme_netloc url parsed E); congruence.
  - exists parsed. split; [reflexivity |].
    split; [congruence |]. split; [congruence | exact Et].
Qed.

(** A line feed inside the slashes is removed before the URL is split. *)
Lemma is_link_valid_accepts_witness :
  @is_link_valid ascii_tables Pages.plain_hosts
    (py "http:/" ++ [c_newline] ++ py "/a.com/docs") = Ret true /\
  contains (url_sanitized (py "http:/" ++ [c_newline] ++ py "/a.com/docs")) (py "://")
  = true /\
  contains (py "http:/" ++ [c_newline] ++ py "/a.com/docs") (py "://") = false.
Proof.
  assert (@is_link_valid ascii_tables Pages.plain_hosts
            (py "http:/" ++ [c_newline] ++ py "/a.com/docs") = Ret true) as H
    by (vm_compute; reflexivity).
  split; [exact H |]. split; [| vm_compute; reflexivity].
  exact (proj1 (proj2 (proj1 (is_link_valid_accepts ascii_tables Pages.plain_hosts
                                (py "http:/" ++ [c_newline] ++ py "/a.com/docs")) H))).
Defined.

(** ** [get_navigable], continued *)

Section Navigable2.
Context {U : Unicode} {K : NetlocChecks} {W : Type} {D : Driver W}.

Lemma navigable_of_raising (links : list link) (l : link) (e : exn) :
  In l links -> link_is_displayed l = true ->
  is_link_valid (link_url l) = Raise e ->
  navigable_of links = Raise ValueError.
Proof.
  induction links as [| x rest IH]; intros Hin Hd Hv; [contradiction |].
  cbn [navigable_of]. destruct Hin as [-> | Hin].
  - rewrite Hd, Hv. now rewrite (is_link_valid_raises _ _ Hv).
  - specialize (IH Hin Hd Hv). rewrite IH.
    destruct (link_is_displayed x); [| reflexivity].
    destruct (is_link_valid (link_url x)) as [valid | x0] eqn:Ex; [reflexivity |].
    now rewrite (is_link_valid_raises _ _ Ex).
Qed.

Lemma https_is_http (h : str) :
  startswith h (py "http") || startswith h (py "https") = true ->
  startswith h (py "http") = true.
Proof.
  destruct (startswith h (py "http")) eqn:E; [reflexivity |].
  cbn [orb]. intros H. rewrite (startswith_cuts _ _ H) in E.
  now rewrite <- E.
Qed.

Lemma collect_links_http (elements : list elem) :
  forall w links w',
    collect_links elements w = (Ret links, w') ->
    forall l, In l links -> startswith (link_url l) (py "http") = true.
Proof.
  induction elements as [| element rest IH]; intros w links w' H l Hin.
  - injection H as <- _. contradiction.
  - cbn [collect_links] in H. apply bind_inv in H.
    destruct H as [href [w1 [_ H]]].
    destruct href as [h |]; [| exact (IH _ _ _ H l Hin)].
    destruct (nonempty h && _) eqn:Eh; [| exact (IH _ _ _ H l Hin)].
    apply bind_inv in H. destruct H as [t [w2 [_ H]]].
    apply bind_inv in H. destruct H as [d [w3 [_ H]]].
    apply bind_inv in H. destruct H as [others [w4 [Hrest H]]].
    injection H as <- _. destruct Hin as [<- | Hin].
    + cbn [link_url]. apply andb_true_iff in Eh. now apply https_is_http.
    + exact (IH _ _ _ Hrest l Hin).
Qed.

End Navigable2.

(** X8: [get_navigable] lets no Exception out.  When [urlparse] rejects the
    href of a single displayed link (a ValueError), the method returns the
    empty list: the valid links of the page are lost with it. *)
Theorem get_navigable_absorbs (U : Unicode) (K : NetlocChecks) (W : Type)
  (D : Driver W) (w : W) :
  (forall e w', get_navigable w = (Raise e, w') -> isinstance e Exception = false) /\
  (forall elements w1 links w2 l e,
     find_elements TAG_NAME (py "a") w = (Ret elements, w1) ->
     collect_links elements w1 = (Ret links, w2) ->
     In l links -> link_is_displayed l = true ->
     is_link_valid (link_url l) = Raise e ->
     get_navigable w = (Ret [], w2)).
Proof.
  split.
  - intros e w' H. unfold get_navigable in H. apply try_inv_raise in H.
    destruct H as [e0 [w1 [_ H]]]. cbn [select_clause] in H.
    destruct (isinstance e0 Exception) eqn:E0; [discriminate |].
    destruct H as [-> _]. exact E0.
  - intros elements w1 links w2 l e Hfind Hlinks Hin Hd Hv. unfold get_navigable.
    assert ((elements <- find_elements TAG_NAME (py "a") ;;
             links <- collect_links elements ;; lift (navigable_of links)) w
            = (Raise ValueError, w2)) as Hbody.
    { rewrite (bind_ret_eq _ _ Hfind), (bind_ret_eq _ _ Hlinks). unfold lift.
      now rewrite (navigable_of_raising links l e Hin Hd Hv). }
    now rewrite (try_raise_eq _ _ Hbody).
Qed.

Lemma get_navigable_absorbs_witness :
  @is_link_valid ascii_tables Pages.plain_hosts (py "http://[a") = Raise ValueError /\
  @is_link_valid ascii_tables Pages.plain_hosts (py "http://a.com/page?q=1") = Ret true /\
  @get_navigable ascii_tables Pages.plain_hosts _ Sim.driver Pages.bracket_page
  = (Ret [], Pages.bracket_page).
Proof.
  split; [vm_compute; reflexivity |]. split; [vm_compute; reflexivity |].
  apply (proj2 (get_navigable_absorbs ascii_tables Pages.plain_hosts Sim.world Sim.driver
                  Pages.bracket_page)
           [0; 1] Pages.bracket_page
           [{| link_url := py "http://a.com/page?q=1"; link_text := py "page";
               link_is_displayed := true |};
            {| link_url := py "http://[a"; link_text := py "broken";
               link_is_displayed := true |}]
           Pages.bracket_page
           {| link_url := py "http://[a"; link_text := py "broken";
              link_is_displayed := true |}
           ValueError);
    try (vm_compute; reflexivity).
  right. left. reflexivity.
Defined.

(** X9: every URL [get_navigable] returns is the cleaned form of an href
    that starts with "http" and passed [is_link_valid]; it has at most 64
    characters and no '#'. *)
Theorem get_navigable_sound (U : Unicode) (K : NetlocChecks) (W : Type) (D : Driver W)
  (w w' : W) (urls : list str) :
  get_navigable w = (Ret urls, w') ->
  forall url, In url urls ->
    length url <= 64 /\ ~ In c_hash url /\
    exists href, startswith href (py "http") = true /\
                 is_link_valid href = Ret true /\ url = clean_url href.
Proof.
  intros H url Hin. unfold get_navigable in H. apply try_inv_ret in H.
  destruct H as [H | [e [w1 [handler [_ [Hsel H]]]]]].
  - apply bind_inv in H. destruct H as [elements [w1 [_ H]]].
    apply bind_inv in H. destruct H as [links [w2 [Hlinks H]]].
    unfold lift in H. injection H as Hnav _.
    destruct (navigable_of_sound _ _ Hnav url Hin) as [l [Hl [_ [Hv ->]]]].
    repeat split.
    + pose proof (is_link_valid_length _ Hv).
      pose proof (clean_url_length (link_url l)). lia.
    + destruct (clean_url_shape (link_url l))
        as [base [Hh [Hq [-> | [ps [Hne [Hps ->]]]]]]]; [exact Hh |].
      intros Hc. apply in_app_or in Hc. destruct Hc as [Hc | Hc]; [contradiction |].
      simpl in Hc. destruct Hc as [Hc | Hc]; [discriminate |].
      apply join_chars in Hc. destruct Hc as [[Hc | []] | [p [Hp Hc]]]; [discriminate |].
      now destruct (Hps p Hp) as [_ [_ Hnp]].
    + exists (link_url l). repeat split; try assumption.
      exact (collect_links_http _ _ _ _ Hlinks l Hl).
  - cbn [select_clause] in Hsel. destruct (isinstance e Exception); [| discriminate].
    injection Hsel as <-. injection H as <- _. contradiction.
Qed.

Lemma get_navigable_sound_witness :
  @get_navigable ascii_tables Pages.plain_hosts _ Sim.driver Pages.links_page
  = (Ret [py "http://a.com/page?q=1"], Pages.links_page) /\
  length (py "http://a.com/page?q=1") <= 64.
Proof.
  assert (@get_navigable ascii_tables Pages.plain_hosts _ Sim.driver Pages.links_page
          = (Ret [py "http://a.com/page?q=1"], Pages.links_page)) as H
    by (vm_compute; reflexivity).
  split; [exact H |].
  exact (proj1 (get_navigable_sound ascii_tables Pages.plain_hosts Sim.world Sim.driver _ _ _ H
                  (py "http://a.com/page?q=1") (or_introl eq_refl))).
Defined.

(** ** [clean_url], continued *)

Lemma before_absent (c : char) (s : str) : ~ In c s -> before c s = s.
Proof.
  induction s as [| d t IH]; intros H; [reflexivity |]. cbn [before].
  destruct (N.eqb_spec d c) as [-> | Hd]; [exfalso; apply H; now left |].
  rewrite IH; [reflexivity | intros Hin; apply H; now right].
Qed.

Lemma after_absent (c : char) (s : str) : ~ In c s -> after c s = None.
Proof.
  induction s as [| d t IH]; intros H; [reflexivity |]. cbn [after].
  destruct (N.eqb_spec d c) as [-> | Hd]; [exfalso; apply H; now left |].
  apply IH. intros Hin. apply H. now right.
Qed.

(** X10: [clean_url] never lengthens a URL; its result has no '#', starts
    with the text before the first '#' and '?', and has a '?' only when it
    kept a parameter; a URL without '#' and '?' is returned unchanged. *)
Theorem clean_url_shrinks (url : str) :
  length (clean_url url) <= length url /\
  ~ In c_hash (clean_url url) /\
  startswith (clean_url url) (before c_quest (before c_hash url)) = true /\
  (In c_quest (clean_url url) ->
   exists query, after c_quest (before c_hash url) = Some query /\
                 essential_params (split c_amp query) <> []) /\
  (~ In c_hash url -> ~ In c_quest url -> clean_url url = url).
Proof.
  repeat apply conj.
  - apply clean_url_length.
  - destruct (clean_url_shape url) as [base [Hh [Hq [-> | [ps [Hne [Hps ->]]]]]]];
      [exact Hh |].
    intros Hc. apply in_app_or in Hc. destruct Hc as [Hc | Hc]; [contradiction |].
    simpl in Hc. destruct Hc as [Hc | Hc]; [discriminate |].
    apply join_chars in Hc. destruct Hc as [[Hc | []] | [p [Hp Hc]]]; [discriminate |].
    now destruct (Hps p Hp) as [_ [_ Hnp]].
  - unfold clean_url. cbv zeta. rewrite hd_split_before, split1_before_after.
    destruct (after c_quest (before c_hash url)) as [query |]; cbn [hd tl].
    + destruct (essential_params (split c_amp query)).
      * rewrite <- (app_nil_r (before c_quest (before c_hash url))) at 1.
        apply startswith_app.
      * apply startswith_app.
    + rewrite <- (app_nil_r (before c_quest (before c_hash url))) at 1.
      apply startswith_app.
  - unfold clean_url. cbv zeta. rewrite hd_split_before, split1_before_after.
    assert (~ In c_quest (before c_quest (before c_hash url))) as Hbase.
    { generalize (before c_hash url). intros s. induction s as [| d t IH]; [auto |].
      cbn [before]. destruct (N.eqb_spec d c_quest) as [-> | Hd]; [auto |].
      intros [Hc | Hc]; [congruence | contradiction]. }
    destruct (after c_quest (before c_hash url)) as [query |]; cbn [hd tl].
    + destruct (essential_params (split c_amp query)) eqn:E.
      * intros Hc. contradiction.
      * intros _. exists query. split; [reflexivity | rewrite E; discriminate].
    + intros Hc. contradiction.
  - intros Hh Hq. unfold clean_url. cbv zeta.
    rewrite hd_split_before, split1_before_after.
    rewrite (before_absent _ _ Hh), (after_absent _ _ Hq). cbn [hd tl].
    now apply before_absent.
Qed.

(** ** [get_buttons_xpath]: the order of the candidates *)

Lemma insert_by_len_sorted (x : str * str) (l : list (str * str)) :
  Sorted shorter_label l -> Sorted shorter_label (insert_by_len x l).
Proof.
  induction l as [| y r IH]; intros H; cbn [insert_by_len].
  - constructor; constructor.
  - destruct (length (fst x) <=? length (fst y)) eqn:E.
    + apply Nat.leb_le in E. constructor; [exact H |]. now constructor.
    + apply Nat.leb_gt in E. inversion H as [| ? ? Hr Hhd]; subst.
      constructor; [now apply IH |].
      destruct r as [| z r']; cbn [insert_by_len].
      * constructor. unfold shorter_label. lia.
      * destruct (length (fst x) <=? length (fst z)).
        -- constructor. unfold shorter_label. lia.
        -- inversion Hhd; subst. now constructor.
Qed.

Lemma insert_by_len_perm (x : str * str) (l : list (str * str)) :
  Permutation (x :: l) (insert_by_len x l).
Proof.
  induction l as [| y r IH]; cbn [insert_by_len]; [reflexivity |].
  destruct (length (fst x) <=? length (fst y)); [reflexivity |].
  etransitivity; [apply perm_swap |]. now apply perm_skip.
Qed.

(** Among the entries of one label length the order of insertion is kept. *)
Lemma insert_by_len_stable (n : nat) (x : str * str) (l : list (str * str)) :
  filter (fun b => length (fst b) =? n) (insert_by_len x l)
  = filter (fun b => length (fst b) =? n) (x :: l).
Proof.
  induction l as [| y r IH]; cbn [insert_by_len]; [reflexivity |].
  destruct (length (fst x) <=? length (fst y)) eqn:E; [reflexivity |].
  apply Nat.leb_gt in E. cbn [filter] in *. rewrite IH. unfold str in *.
  destruct (length (fst x) =? n) eqn:Hx;
    destruct (length (fst y) =? n) eqn:Hy; try reflexivity.
  apply Nat.eqb_eq in Hx, Hy. lia.
Qed.

Lemma sort_by_len_facts (l : list (str * str)) :
  Sorted shorter_label (sort_by_len l) /\
  Permutation l (sort_by_len l) /\
  forall n, filter (fun b => length (fst b) =? n) (sort_by_len l)
            = filter (fun b => length (fst b) =? n) l.
Proof.
  induction l as [| x r [Hs [Hp Hst]]]; cbn [sort_by_len fold_right].
  - repeat split; constructor.
  - fold (sort_by_len r). repeat split.
    + now apply insert_by_len_sorted.
    + etransitivity; [apply perm_skip; exact Hp | apply insert_by_len_perm].
    + intros n. rewrite insert_by_len_stable. cbn [filter]. now rewrite Hst.
Qed.

(** X11: the candidates of [get_buttons_xpath] come out by ascending label
    length; they are the buttons the scan of the page kept, and buttons
    with labels of one length keep the order of the scan (the buttons, then
    the submit inputs). *)
Theorem get_buttons_xpath_sorted (U : Unicode) (W : Type) (D : Driver W)
  (w w' : W) (result : list (str * str)) :
  get_buttons_xpath w = (Ret result, w') ->
  StronglySorted shorter_label result /\
  exists buttons submits w1 w2 scanned,
    find_elements TAG_NAME (py "button") w = (Ret buttons, w1) /\
    find_elements XPATH (py "//input[@type='submit']") w1 = (Ret submits, w2) /\
    scan_buttons 0 (buttons ++ submits) w2 = (Ret scanned, w') /\
    Permutation scanned result /\
    forall n, filter (fun b => length (fst b) =? n) result
              = filter (fun b => length (fst b) =? n) scanned.
Proof.
  intros H. unfold get_buttons_xpath in H.
  apply bind_inv in H. destruct H as [buttons [w1 [Hb H]]].
  apply bind_inv in H. destruct H as [submits [w2 [Hs H]]].
  apply bind_inv in H. destruct H as [scanned [w3 [Hscan H]]].
  injection H as <- <-.
  destruct (sort_by_len_facts scanned) as [Hsorted [Hperm Hstable]].
  split.
  - apply Sorted_StronglySorted; [| exact Hsorted].
    intros a b c Hab Hbc. unfold shorter_label in *. lia.
  - exists buttons, submits, w1, w2, scanned. repeat split; assumption.
Qed.

Lemma get_buttons_xpath_sorted_witness :
  @get_buttons_xpath ascii_tables _ Sim.driver Pages.buttons_page
  = (Ret [(py "next", @button_xpath 1); (py "back", @button_xpath 2);
          (py "submitorder", @button_xpath 0)], Pages.buttons_page) /\
  StronglySorted shorter_label
    [(py "next", @button_xpath 1); (py "back", @button_xpath 2);
     (py "submitorder", @button_xpath 0)].
Proof.
  assert (@get_buttons_xpath ascii_tables _ Sim.driver Pages.buttons_page
          = (Ret [(py "next", @button_xpath 1); (py "back", @button_xpath 2);
                  (py "submitorder", @button_xpath 0)], Pages.buttons_page)) as H
    by (vm_compute; reflexivity).
  split; [exact H |].
  exact (proj1 (get_buttons_xpath_sorted ascii_tables Sim.world Sim.driver _ _ _ H)).
Defined.

(** ** [find_input_xpath_by_name] and [fill_form_inputs], continued *)

(** X12: [find_input_xpath_by_name] answers with the xpath of the first
    field, in the order of the page, whose label contains the name as a
    substring, and with None exactly when no label contains it. *)
Theorem find_input_xpath_by_name_first (fields : list input_field) (name : str) :
  (forall xpath,
     find_input_xpath_by_name (JsInputs fields) name = Ret (Some xpath) <->
     exists earlier field later,
       fields = earlier ++ field :: later /\
       (forall f, In f earlier -> contains (field_text f) name = false) /\
       contains (field_text field) name = true /\
       xpath = field_xpath field) /\
  (find_input_xpath_by_name (JsInputs fields) name = Ret None <->
   forall f, In f fields -> contains (field_text f) name = false).
Proof.
  cbn [find_input_xpath_by_name]. split.
  - intros xpath. split.
    + induction fields as [| f rest IH]; cbn [first_field]; [discriminate |].
      destruct (contains (field_text f) name) eqn:E.
      * intros H. injection H as <-. exists [], f, rest.
        repeat split; [intros ? [] | exact E].
      * intros H. destruct (IH H) as [earlier [field [later [-> [Hno [Hyes ->]]]]]].
        exists (f :: earlier), field, later. repeat split; [| exact Hyes].
        intros g [<- | Hg]; [exact E | now apply Hno].
    + intros [earlier [field [later [-> [Hno [Hyes ->]]]]]].
      induction earlier as [| f rest IH]; cbn [first_field app].
      * now rewrite Hyes.
      * rewrite (Hno f (or_introl eq_refl)). apply IH.
        intros g Hg. apply Hno. now right.
  - split.
    + induction fields as [| f rest IH]; cbn [first_field]; [intros _ ? [] |].
      destruct (contains (field_text f) name) eqn:E; [discriminate |].
      intros H g [<- | Hg]; [exact E | now apply IH].
    + induction fields as [| f rest IH]; cbn [first_field]; [reflexivity |].
      intros H. rewrite (H f (or_introl eq_refl)). apply IH.
      intros g Hg. apply H. now right.
Qed.

Section Fill2.
Context {U : Unicode} {W : Type} {D : Driver W}.

Lemma fill_all_stops (inputs : js_value) (done : list str) :
  forall (w1 w2 w3 : W) (failing : str) (rest : list str) (e : exn),
    fill_all inputs done w1 = (Ret tt, w2) ->
    fill_one inputs failing w2 = (Raise e, w3) ->
    fill_all inputs (done ++ failing :: rest) w1 = (Raise e, w3).
Proof.
  induction done as [| s l IH]; intros w1 w2 w3 failing rest e Hdone Hfail.
  - injection Hdone as ->. cbn [app fill_all].
    now rewrite (bind_raise_eq _ _ Hfail).
  - cbn [app fill_all] in *. apply bind_inv in Hdone.
    destruct Hdone as [[] [w' [Hs Hl]]].
    rewrite (bind_ret_eq _ _ Hs). exact (IH _ _ _ _ _ _ Hl Hfail).
Qed.

Lemma fill_all_skips (fields : list input_field) (input_list : list str) (w : W) :
  (forall s, In s input_list ->
     match match_fill_command s with
     | None => True
     | Some (name, _) => first_field fields (strip name) = None
     end) ->
  fill_all (JsInputs fields) input_list w = (Ret tt, w).
Proof.
  induction input_list as [| s l IH]; intros H; [reflexivity |].
  cbn [fill_all]. unfold bind at 1.
  assert (fill_one (JsInputs fields) s w = (Ret tt, w)) as ->.
  { unfold fill_one. pose proof (H s (or_introl eq_refl)) as Hs.
    destruct (match_fill_command s) as [[name value] |]; [| reflexivity].
    unfold bind, lift. cbn [find_input_xpath_by_name]. now rewrite Hs. }
  apply IH. intros t Ht. apply H. now right.
Qed.

End Fill2.

(** X13: [fill_form_inputs] is not atomic.  When one instruction raises,
    the method answers False in the state that instruction left: what the
    instructions before it did to the page stays, and the instructions
    after it are not attempted. *)
Theorem fill_form_inputs_stops_at_failure (U : Unicode) (W : Type) (D : Driver W)
  (w w1 w2 w3 : W) (inputs : js_value) (done rest : list str) (failing : str)
  (e : exn) :
  find_all_inputs 3 w = (Ret inputs, w1) ->
  fill_all inputs done w1 = (Ret tt, w2) ->
  fill_one inputs failing w2 = (Raise e, w3) ->
  isinstance e Exception = true ->
  fill_form_inputs (done ++ failing :: rest) w = (Ret false, w3).
Proof.
  intros Hfind Hdone Hfail He. unfold fill_form_inputs.
  rewrite (bind_ret_eq _ _ Hfind).
  assert ((fill_all inputs (done ++ failing :: rest) ;;; ret true) w1
          = (Raise e, w3)) as Hbody.
  { now rewrite (bind_raise_eq _ _ (fill_all_stops _ _ _ _ _ _ rest _ Hdone Hfail)). }
  rewrite (try_raise_eq _ _ Hbody). cbn [select_clause]. now rewrite He.
Qed.

Lemma fill_form_inputs_stops_at_failure_witness :
  fst (@fill_form_inputs ascii_tables _ Sim.driver
         [py "[first name](Ann)"; py "[account](x)"; py "[city](Paris)"]
         Pages.locked_form) = Ret false /\
  map Sim.el_value
    (Sim.page (snd (@fill_form_inputs ascii_tables _ Sim.driver
                      [py "[first name](Ann)"; py "[account](x)"; py "[city](Paris)"]
                      Pages.locked_form)))
  = [py "Ann"; py "fixed"; []].
Proof.
  pose (inputs := JsInputs (Sim.fields_of (Sim.page Pages.locked_form))).
  pose (w1 := snd (@find_all_inputs _ Sim.driver 3 Pages.locked_form)).
  pose (w2 := snd (@fill_all ascii_tables _ Sim.driver inputs
                     [py "[first name](Ann)"] w1)).
  pose (w3 := snd (@fill_one ascii_tables _ Sim.driver inputs (py "[account](x)") w2)).
  assert (@fill_form_inputs ascii_tables _ Sim.driver
            ([py "[first name](Ann)"] ++ py "[account](x)" :: [py "[city](Paris)"])
            Pages.locked_form = (Ret false, w3)) as H.
  { apply (fill_form_inputs_stops_at_failure ascii_tables Sim.world Sim.driver
             Pages.locked_form w1 w2 w3 inputs
             [py "[first name](Ann)"] [py "[city](Paris)"] (py "[account](x)")
             InvalidElementStateException);
      vm_compute; reflexivity. }
  cbn [app] in H. rewrite H. split; [reflexivity | vm_compute; reflexivity].
Defined.

(** X14: instructions that are not of the form [name](value), or whose name
    is in no label of the page, are passed over without an error:
    [fill_form_inputs] answers True and touches nothing. *)
Theorem fill_form_inputs_skips (U : Unicode) (W : Type) (D : Driver W)
  (w w1 : W) (fields : list input_field) (input_list : list str) :
  find_all_inputs 3 w = (Ret (JsInputs fields), w1) ->
  (forall s, In s input_list ->
     match match_fill_command s with
     | None => True
     | Some (name, _) => first_field fields (strip name) = None
     end) ->
  fill_form_inputs input_list w = (Ret true, w1).
Proof.
  intros Hfind H. unfold fill_form_inputs. rewrite (bind_ret_eq _ _ Hfind).
  assert ((fill_all (JsInputs fields) input_list ;;; ret true) w1 = (Ret true, w1))
    as Hbody.
  { unfold bind at 1. now rewrite (fill_all_skips fields input_list w1 H). }
  now rewrite (try_ret_eq _ _ Hbody).
Qed.

Lemma fill_form_inputs_skips_witness :
  @fill_form_inputs ascii_tables _ Sim.driver
    [py "first name: Ann"; py "[phone](555)"; py "[city(Paris)"]
    Pages.locked_form
  = (Ret true, snd (@find_all_inputs _ Sim.driver 3 Pages.locked_form)).
Proof.
  apply (fill_form_inputs_skips ascii_tables Sim.world Sim.driver
           Pages.locked_form
           (snd (@find_all_inputs _ Sim.driver 3 Pages.locked_form))
           (Sim.fields_of (Sim.page Pages.locked_form))).
  - vm_compute; reflexivity.
  - intros s [<- | [<- | [<- | []]]]; vm_compute; exact I || reflexivity.
Defined.

(** ** [get_form_inputs] *)

Section Forms2.
Variable field_id : input_field -> option str.

Lemma form_strings_listed (input_elements : list input_field) :
  form_strings field_id input_elements
  = inl (map (fun element => py "[" ++ input_name_of field_id element ++ py "]()")
             (filter is_listed input_elements)).
Proof.
  induction input_elements as [| element rest IH]; [reflexivity |].
  cbn [form_strings filter]. unfold is_listed at 1.
  rewrite existsb_app. cbn [existsb]. rewrite orb_false_r.
  destruct (existsb (str_eqb (input_type_or_text element)) unlisted_types);
    cbn [orb negb andb]; [exact IH |].
  destruct (field_displayed element); cbn [negb]; [| rewrite andb_false_r; exact IH].
  rewrite andb_true_r.
  destruct (str_eqb (input_type_or_text element) (py "checkbox")
            || str_eqb (input_type_or_text element) (py "radio")); cbn [negb].
  - cbn [dict_is_selected is_exception]. exact IH.
  - rewrite IH. reflexivity.
Qed.

End Forms2.

(** X15: the loop of [get_form_inputs] raises nothing and reports exactly
    the displayed fields that are neither hidden, submit, button, image,
    checkbox nor radio, each as "[name]()": no checkbox or radio button is
    ever reported, and no value or checked state is. *)
Theorem get_form_inputs_reports (W : Type) (D : Driver W)
  (field_id : input_field -> option str) (w w' : W)
  (element : input_field) (rest : list input_field) :
  find_all_inputs 3 w = (Ret (JsInputs (element :: rest)), w') ->
  get_form_inputs field_id w
  = (inl (map (fun f => py "[" ++ input_name_of field_id f ++ py "]()")
              (filter is_listed (element :: rest))), w').
Proof.
  intros H. unfold get_form_inputs. rewrite H. now rewrite form_strings_listed.
Qed.

Lemma get_form_inputs_reports_witness :
  @get_form_inputs _ Sim.driver (fun _ => None) Sim.signup_form
  = (inl (map (fun f => py "[" ++ input_name_of (fun _ => None) f ++ py "]()")
              (filter is_listed (Sim.fields_of (Sim.page Sim.signup_form)))),
     snd (@find_all_inputs _ Sim.driver 3 Sim.signup_form)) /\
  form_strings (fun _ => None) Pages.mixed_fields
  = inl [py "[email]()"; py "[password]()"].
Proof.
  split; [| vm_compute; reflexivity].
  assert (@find_all_inputs _ Sim.driver 3 Sim.signup_form
          = (Ret (JsInputs (Sim.fields_of (Sim.page Sim.signup_form))),
             snd (@find_all_inputs _ Sim.driver 3 Sim.signup_form))) as H
    by (vm_compute; reflexivity).
  exact (get_form_inputs_reports Sim.world Sim.driver (fun _ => None)
           _ _ _ _ H).
Defined.

Lemma lazy_bracket_paren_closed (name rest : str) :
  ~ In c_rbrack name -> ~ In c_newline name ->
  lazy_bracket_paren (name ++ py "]()" ++ rest) = Some (name, [], rest).
Proof.
  induction name as [| c t IH]; intros Hb Hn.
  - reflexivity.
  - cbn [app lazy_bracket_paren].
    destruct (N.eqb_spec c c_rbrack) as [-> | _]; [exfalso; apply Hb; now left |].
    destruct (N.eqb_spec c c_newline) as [-> | _]; [exfalso; apply Hn; now left |].
    rewrite IH; [reflexivity | |]; intros Hin; [apply Hb | apply Hn]; now right.
Qed.

(** X16: an entry "[name]()" of [get_form_inputs], given back to
    [fill_form_inputs], is read as the instruction to fill the field [name]
    with the empty text, provided the name has no ']' and no newline. *)
Theorem form_entry_round_trip (field_id : input_field -> option str)
  (element : input_field) :
  ~ In c_rbrack (input_name_of field_id element) ->
  ~ In c_newline (input_name_of field_id element) ->
  match_fill_command (py "[" ++ input_name_of field_id element ++ py "]()")
  = Some (input_name_of field_id element, []).
Proof.
  intros Hb Hn. unfold match_fill_command.
  change (py "[" ++ input_name_of field_id element ++ py "]()")
    with (c_lbrack :: input_name_of field_id element ++ py "]()" ++ []).
  cbv beta iota. rewrite N.eqb_refl.
  now rewrite (lazy_bracket_paren_closed _ [] Hb Hn).
Qed.

Lemma form_entry_round_trip_witness :
  match_fill_command (py "[email]()") = Some (py "email", []).
Proof.
  exact (form_entry_round_trip (fun _ => None)
           {| field_text := py "email"; field_xpath := py "//input[1]";
              field_type := Some (py "email"); field_displayed := true |}
           (proj1 (has_char_false_iff c_rbrack (py "email")) eq_refl)
           (proj1 (has_char_false_iff c_newline (py "email")) eq_refl)).
Defined.

Lemma find_input_xpath_by_name_first_witness :
  find_input_xpath_by_name
    (JsInputs (Sim.fields_of (Sim.page Pages.locked_form))) (py "c")
  = Ret (Some (py "//input[2]")).
Proof.
  apply (proj2 (proj1 (find_input_xpath_by_name_first
                         (Sim.fields_of (Sim.page Pages.locked_form)) (py "c"))
                  (py "//input[2]"))).
  exists [Sim.field_of (Sim.input (py "text") (py "first name") (py "//input[1]") false [])].
  eexists. eexists. split; [vm_compute; reflexivity |].
  split; [| split; vm_compute; reflexivity].
  intros f [<- | []]. vm_compute. reflexivity.
Defined.

(** ** [get_chrome_path] and [create_driver] *)

Lemma first_usable_spec (h : host) (paths : list str) (path : str) :
  first_usable h paths = Some path <->
  exists earlier later,
    paths = earlier ++ path :: later /\
    (forall p, In p earlier -> usable h p = false) /\
    usable h path = true.
Proof.
  split.
  - induction paths as [| p rest IH]; cbn [first_usable]; [discriminate |].
    destruct (usable h p) eqn:E.
    + intros H. injection H as <-. exists [], rest. repeat split; [intros ? [] | exact E].
    + intros H. destruct (IH H) as [earlier [later [-> [Hno Hyes]]]].
      exists (p :: earlier), later. repeat split; [| exact Hyes].
      intros q [<- | Hq]; [exact E | now apply Hno].
  - intros [earlier [later [-> [Hno Hyes]]]].
    induction earlier as [| p rest IH]; cbn [first_usable app].
    + now rewrite Hyes.
    + rewrite (Hno p (or_introl eq_refl)). apply IH. intros q Hq. apply Hno. now right.
Qed.

Lemma first_usable_none (h : host) (paths : list str) :
  first_usable h paths = None <-> forall p, In p paths -> usable h p = false.
Proof.
  induction paths as [| p rest IH]; cbn [first_usable].
  - split; [intros _ ? [] | reflexivity].
  - destruct (usable h p) eqn:E.
    + split; [discriminate |]. intros H. specialize (H p (or_introl eq_refl)). congruence.
    + rewrite IH. split.
      * intros H q [<- | Hq]; [exact E | now apply H].
      * intros H q Hq. apply H. now right.
Qed.

(** X17: [get_chrome_path] answers with the first of the candidate paths
    of the platform that exists and is executable, whatever comes later in
    the list, and with None exactly when no candidate is both. *)
Theorem get_chrome_path_first (h : host) :
  (forall path,
     get_chrome_path h = Some path <->
     exists earlier later,
       chrome_candidates h = earlier ++ path :: later /\
       (forall p, In p earlier -> path_exists h p && access_x h p = false) /\
       path_exists h path = true /\ access_x h path = true) /\
  (get_chrome_path h = None <->
   forall p, In p (chrome_candidates h) -> path_exists h p && access_x h p = false) /\
  length (chrome_candidates h) <= 3.
Proof.
  unfold get_chrome_path. repeat split.
  - intros H. apply first_usable_spec in H.
    destruct H as [earlier [later [Hc [Hno Hyes]]]].
    apply andb_true_iff in Hyes. exists earlier, later. tauto.
  - intros [earlier [later [Hc [Hno [He Ha]]]]]. apply first_usable_spec.
    exists earlier, later. repeat split; [exact Hc | exact Hno |].
    unfold usable. now rewrite He, Ha.
  - apply first_usable_none.
  - apply first_usable_none.
  - unfold chrome_candidates.
    destruct (startswith (platform h) (py "win")); [cbn; lia |].
    destruct (startswith (platform h) (py "darwin")); cbn; lia.
Qed.

Lemma get_chrome_path_first_witness :
  get_chrome_path Pages.linux_box = Some (py "/usr/bin/chromium").
Proof.
  apply (proj2 (proj1 (get_chrome_path_first Pages.linux_box) (py "/usr/bin/chromium"))).
  exists [py "/usr/bin/google-chrome"; py "/usr/bin/chromium-browser"], [].
  split; [vm_compute; reflexivity |].
  split; [| split; vm_compute; reflexivity].
  intros p [<- | [<- | []]]; vm_compute; reflexivity.
Defined.

(** X18: [create_driver] makes its three checks before it starts
    anything: without a Chrome binary it raises FileNotFoundError whatever
    the libraries do.  What it raises is that FileNotFoundError (no Chrome,
    no extension file outside stealth mode, or no chromedriver), or what
    one of its library calls raised.  The driver it returns runs a binary
    [get_chrome_path] chose, is headless exactly on request, always runs
    without the sandbox, and carries the extension and the experimental
    options exactly outside stealth mode. *)
Theorem create_driver_checks (h : host) (headless stealth_mode : bool) :
  (nonempty_path (get_chrome_path h) = None ->
   create_driver h headless stealth_mode = Raise FileNotFoundError) /\
  match create_driver h headless stealth_mode with
  | Ret c =>
      get_chrome_path h = Some (binary_location c) /\ binary_location c <> [] /\
      path_exists h (binary_location c) = true /\
      access_x h (binary_location c) = true /\
      (In (py "--headless") (arguments c) <-> headless = true) /\
      In (py "--no-sandbox") (arguments c) /\
      service_path c <> [] /\
      (which_chromedriver h = Some (service_path c) \/
       nonempty_path (which_chromedriver h) = None /\
       autoinstall h = Ret (Some (service_path c))) /\
      new_service h (service_path c) = Ret tt /\
      stealth_applied c = stealth_mode /\
      (if stealth_mode
       then extensions c = [] /\ experimental_options c = []
       else path_exists h crx_path = true /\
            add_extension h crx_path = Ret tt /\
            extensions c = [crx_path] /\
            start_chrome h c = Ret tt /\
            map fst (experimental_options c)
            = [py "prefs"; py "excludeSwitches"; py "useAutomationExtension"])
  | Raise e =>
      (e = FileNotFoundError /\
       (nonempty_path (get_chrome_path h) = None \/
        (stealth_mode = false /\ path_exists h crx_path = false) \/
        (nonempty_path (which_chromedriver h) = None /\
         exists o, autoinstall h = Ret o /\ nonempty_path o = None))) \/
      raised_by_library h e
  end.
Proof.
  split.
  { intros H. unfold create_driver. now rewrite H. }
  assert (forall l, In (py "--headless")
                      ((if headless
                        then [py "--headless"; py "--disable-gpu"; py "--disable-webgl"]
                        else []) ++ l) <-> headless = true \/ In (py "--headless") l)
    as Hhead.
  { intros l. rewrite in_app_iff. destruct headless.
    - split; [now left | intros _; left; now left].
    - split; [intros [[] | H]; now right | intros [H | H]; [discriminate | now right]]. }
  assert (In (py "--headless") (chrome_arguments headless) <-> headless = true)
    as Hheadless.
  { unfold chrome_arguments. rewrite Hhead. split; [| now left].
    intros [H | H]; [exact H |].
    cbn in H. repeat (destruct H as [H | H]; [discriminate |]). contradiction. }
  assert (In (py "--no-sandbox") (chrome_arguments headless)) as Hsandbox.
  { unfold chrome_arguments. apply in_or_app. right. now left. }
  unfold create_driver, raised_by_library.
  destruct (get_chrome_path h) as [[| c0 t0] |] eqn:Ep; cbn [nonempty_path];
    try (left; split; [reflexivity | now left]).
  assert (path_exists h (c0 :: t0) = true /\ access_x h (c0 :: t0) = true) as [Hpe Hax].
  { unfold get_chrome_path in Ep. apply first_usable_spec in Ep.
    destruct Ep as [? [? [_ [_ Hu]]]]. now apply andb_true_iff in Hu. }
  assert (match
            match nonempty_path (which_chromedriver h) with
            | Some pth => Ret (Some pth)
            | None => and_then (autoinstall h) (fun o => Ret (nonempty_path o))
            end
          with
          | Ret (Some pth) =>
              pth <> [] /\
              (which_chromedriver h = Some pth \/
               nonempty_path (which_chromedriver h) = None /\
               autoinstall h = Ret (Some pth))
          | Ret None =>
              nonempty_path (which_chromedriver h) = None /\
              exists o, autoinstall h = Ret o /\ nonempty_path o = None
          | Raise e => autoinstall h = Raise e
          end) as Hdriver.
  { destruct (which_chromedriver h) as [[| c1 t1] |]; cbn [nonempty_path];
      try (split; [discriminate | now left]);
      (destruct (autoinstall h) as [[[| c2 t2] |] | e]; cbn [and_then nonempty_path];
       [ split; [reflexivity | now eexists]
       | split; [discriminate | right; now split]
       | split; [reflexivity | now eexists]
       | reflexivity ]). }
  destruct (match nonempty_path (which_chromedriver h) with
            | Some pth => Ret (Some pth)
            | None => and_then (autoinstall h) (fun o => Ret (nonempty_path o))
            end) as [[pth |] | e].
  - destruct Hdriver as [Hne Hfrom].
    destruct stealth_mode; cbn [negb and_then].
    + destruct (new_service h pth) eqn:Es; cbn [and_then];
        [| right; right; right; left; now exists pth].
      destruct a.
      destruct (start_undetected h _) eqn:Eu; cbn [and_then];
        [| right; right; right; right; eexists; left; exact Eu].
      destruct (apply_stealth h _) eqn:Ea; cbn [and_then];
        [| right; right; right; right; eexists; right; left; exact Ea].
      cbn [binary_location arguments extensions experimental_options service_path
           stealth_applied].
      repeat (split; [first [exact Ep | discriminate | exact Hpe | exact Hax
                             | exact Hsandbox | exact Hne | exact Hfrom
                             | exact Es | reflexivity
                             | exact Hheadless] |]).
      split; reflexivity.
    + destruct (path_exists h crx_path) eqn:Ex; cbn [negb and_then];
        [| left; split; [reflexivity | right; left; now split]].
      destruct (add_extension h crx_path) as [[] | e] eqn:Eadd; cbn [and_then];
        [| right; now left].
      destruct (new_service h pth) eqn:Es; cbn [and_then];
        [| right; right; right; left; now exists pth].
      destruct a.
      destruct (start_chrome h _) eqn:Ec; cbn [and_then];
        [| right; right; right; right; eexists; right; right; exact Ec].
      destruct a.
      cbn [binary_location arguments extensions experimental_options service_path
           stealth_applied].
      repeat (split; [first [exact Ep | discriminate | exact Hpe | exact Hax
                             | exact Hsandbox | exact Hne | exact Hfrom
                             | exact Es | reflexivity
                             | exact Hheadless] |]).
      repeat (split; [first [reflexivity | exact Ec] |]). reflexivity.
  - destruct stealth_mode; cbn [negb and_then].
    + left. split; [reflexivity | right; right; exact Hdriver].
    + destruct (path_exists h crx_path) eqn:Ex; cbn [negb and_then];
        [| left; split; [reflexivity | right; left; now split]].
      destruct (add_extension h crx_path) as [[] | e] eqn:Eadd; cbn [and_then];
        [| right; now left].
      left. split; [reflexivity | right; right; exact Hdriver].
  - destruct stealth_mode; cbn [negb and_then].
    + right. right. now left.
    + destruct (path_exists h crx_path) eqn:Ex; cbn [negb and_then];
        [| left; split; [reflexivity | right; left; now split]].
      destruct (add_extension h crx_path) as [[] | e'] eqn:Eadd; cbn [and_then];
        [| right; now left].
      right. right. now left.
Qed.

(** A machine whose Chrome does not start: the WebDriverException of the
    launch is what [create_driver] raises. *)
Lemma create_driver_checks_witness :
  create_driver Pages.broken_chrome true true = Raise WebDriverException /\
  match create_driver Pages.linux_box true true with
  | Ret c => get_chrome_path Pages.linux_box = Some (binary_location c)
  | Raise _ => False
  end.
Proof.
  split; [vm_compute; reflexivity |].
  pose proof (proj2 (create_driver_checks Pages.linux_box true true)) as H.
  vm_compute in H |- *. exact (proj1 H).
Defined.

Lemma clean_url_shrinks_witness :
  clean_url (py "http://a.com/page") = py "http://a.com/page".
Proof.
  apply (proj2 (proj2 (proj2 (proj2 (clean_url_shrinks (py "http://a.com/page")))))).
  - apply has_char_false_iff. vm_compute. reflexivity.
  - apply has_char_false_iff. vm_compute. reflexivity.
Defined.

(** ** The provider *)

Section ProviderFacts.
Import Provider.
Context {U : Unicode}.
Variable ip_address : str -> result unit.
Variable to_int : str -> result N.
Variable system : str.
Variable run : list str -> result nat.

Lemma check_parts_ok (address : str) :
  check_parts ip_address to_int address = Ok tt ->
  exists ip port n,
    rsplit1 c_colon address = [ip; port] /\
    str_isdigit port = true /\ to_int port = Ok n /\ (n <= 65535)%N /\
    (forallb (fun c => contains hex_chars (lower [c])) ip = true ->
     ip_address ip = Ok tt).
Proof.
  unfold check_parts.
  destruct (rsplit1 c_colon address) as [| ip [| port [| x l]]]; try discriminate.
  destruct (forallb _ ip) eqn:Ehex.
  - destruct (ip_address ip) as [[] | e] eqn:Eip; [| discriminate].
    destruct (str_isdigit port) eqn:Ed; cbn [negb]; [| discriminate].
    destruct (to_int port) as [n | e] eqn:En; [| discriminate].
    destruct (N.leb n 65535) eqn:El; [| discriminate].
    intros _. exists ip, port, n. apply N.leb_le in El.
    split; [reflexivity |]. split; [exact Ed |]. split; [exact En |].
    split; [exact El |]. intros _. exact Eip.
  - destruct (str_isdigit port) eqn:Ed; cbn [negb]; [| discriminate].
    destruct (to_int port) as [n | e] eqn:En; [| discriminate].
    destruct (N.leb n 65535) eqn:El; [| discriminate].
    intros _. exists ip, port, n. apply N.leb_le in El.
    split; [reflexivity |]. split; [exact Ed |]. split; [exact En |].
    split; [exact El |]. intros Hf. congruence.
Qed.

Lemma check_parts_err (address : str) (e : error) :
  (forall s x, ip_address s = Err x -> is_a x ValueError = true) ->
  (forall s x, to_int s = Err x -> is_a x ValueError = true) ->
  check_parts ip_address to_int address = Err e -> is_a e ValueError = true.
Proof.
  intros Hip Hint. unfold check_parts.
  destruct (rsplit1 c_colon address) as [| ip [| port [| x l]]];
    try (intros [= <-]; reflexivity).
  destruct (forallb _ ip).
  - destruct (ip_address ip) as [[] | x] eqn:Eip; [| intros [= <-]; eauto].
    destruct (str_isdigit port); cbn [negb]; [| intros [= <-]; reflexivity].
    destruct (to_int port) as [n | x] eqn:En; [| intros [= <-]; eauto].
    destruct (N.leb n 65535); [discriminate | intros [= <-]; reflexivity].
  - destruct (str_isdigit port); cbn [negb]; [| intros [= <-]; reflexivity].
    destruct (to_int port) as [n | x] eqn:En; [| intros [= <-]; eauto].
    destruct (N.leb n 65535); [discriminate | intros [= <-]; reflexivity].
Qed.

Lemma is_ip_online_raises (ip : str) (e : error) :
  is_ip_online system run ip = Err e -> is_a e Exception = false.
Proof.
  unfold is_ip_online. destruct (str_eqb ip (py "127.0.0.1")); [discriminate |].
  destruct (run _) as [code | x]; [discriminate |].
  destruct (is_a x TimeoutExpired); [discriminate |].
  destruct (is_a x Exception) eqn:E; [discriminate |]. now intros [= <-].
Qed.

End ProviderFacts.

(** X19: [check_address_format] returns the address with every "http://"
    removed, and only when its text after the last ':' is a string of
    digits worth at most 65535 and its host, if written in the characters
    of an IP address alone, is accepted by [ipaddress.ip_address].  As
    [ip_address] and [int] raise ValueError, every refusal is a plain
    Exception whose text is wrapped in "Invalid address format: " and
    ". Is port specified?". *)
Theorem provider_check_address_format (U : Unicode)
  (ip_address : str -> Provider.result unit) (to_int : str -> Provider.result N)
  (address : str) :
  (forall s x, ip_address s = Provider.Err x ->
               Provider.is_a x Provider.ValueError = true) ->
  (forall s x, to_int s = Provider.Err x ->
               Provider.is_a x Provider.ValueError = true) ->
  match Provider.check_address_format ip_address to_int address with
  | Provider.Ok a =>
      a = Provider.remove_all (py "http://") address /\
      exists ip port n,
        Provider.rsplit1 c_colon a = [ip; port] /\
        Provider.str_isdigit port = true /\
        to_int port = Provider.Ok n /\ (n <= 65535)%N /\
        (forallb (fun c => contains Provider.hex_chars (lower [c])) ip = true ->
         ip_address ip = Provider.Ok tt)
  | Provider.Err e =>
      Provider.kind e = Provider.Exception /\
      exists reason,
        Provider.message e
        = py "Invalid address format: " ++ reason ++ py ". Is port specified?"
  end.
Proof.
  intros Hip Hint. unfold Provider.check_address_format.
  destruct (Provider.check_parts ip_address to_int
              (Provider.remove_all (py "http://") address)) as [[] | e] eqn:E.
  - split; [reflexivity |]. exact (check_parts_ok _ _ _ E).
  - rewrite (check_parts_err _ _ _ _ Hip Hint E). cbn [Provider.kind Provider.err].
    split; [reflexivity |]. exists (Provider.message e). reflexivity.
Qed.

Lemma provider_check_address_format_witness :
  match Provider.check_address_format (U := ascii_tables)
          Provider.two_addresses Provider.ascii_int (py "http://192.168.1.20:11434") with
  | Provider.Ok a => a = py "192.168.1.20:11434"
  | Provider.Err _ => False
  end.
Proof.
  pose proof (provider_check_address_format ascii_tables
                Provider.two_addresses Provider.ascii_int
                (py "http://192.168.1.20:11434")) as H.
  assert (forall s x, Provider.two_addresses s = Provider.Err x ->
                      Provider.is_a x Provider.ValueError = true) as H1.
  { intros s x. unfold Provider.two_addresses.
    destruct (_ || _); [discriminate | intros [= <-]; reflexivity]. }
  assert (forall s x, Provider.ascii_int s = Provider.Err x ->
                      Provider.is_a x Provider.ValueError = true) as H2.
  { intros s x. unfold Provider.ascii_int.
    destruct (_ && _); [discriminate | intros [= <-]; reflexivity]. }
  specialize (H H1 H2).
  destruct (Provider.check_address_format Provider.two_addresses Provider.ascii_int
              (py "http://192.168.1.20:11434")) as [a | e] eqn:E.
  - destruct H as [-> _]. vm_compute. reflexivity.
  - vm_compute in E. discriminate.
Defined.

(** X20: [is_ip_online] answers for 127.0.0.1 without a ping, answers True
    for another address only when the ping returned 0, and turns every
    Exception of the ping, its timeout included, into False: what it
    raises is no Exception. *)
Theorem provider_is_ip_online (U : Unicode) (system : str)
  (run : list str -> Provider.result nat) (ip : str) :
  Provider.is_ip_online system run (py "127.0.0.1") = Provider.Ok true /\
  (Provider.is_ip_online system run ip = Provider.Ok true ->
   ip = py "127.0.0.1" \/
   exists param, (param = py "-n" \/ param = py "-c") /\
                 run [py "ping"; param; py "1"; ip] = Provider.Ok 0) /\
  (forall e, Provider.is_ip_online system run ip = Provider.Err e ->
             Provider.is_a e Provider.Exception = false) /\
  (forall e, ip <> py "127.0.0.1" ->
             (forall command, run command = Provider.Err e) ->
             Provider.is_a e Provider.Exception = true ->
             Provider.is_ip_online system run ip = Provider.Ok false).
Proof.
  split; [reflexivity |]. split; [| split].
  - unfold Provider.is_ip_online.
    destruct (str_eqb ip (py "127.0.0.1")) eqn:Eip;
      [left; now apply str_eqb_eq |].
    intros H. right.
    exists (if str_eqb (lower system) (py "windows") then py "-n" else py "-c").
    split; [destruct (str_eqb (lower system) _); auto |].
    destruct (run _) as [code | x]; [| destruct (Provider.is_a x Provider.TimeoutExpired);
      [discriminate | destruct (Provider.is_a x Provider.Exception); discriminate]].
    injection H as H. apply Nat.eqb_eq in H. now subst.
  - intros e. apply is_ip_online_raises.
  - intros e Hip Hrun He. unfold Provider.is_ip_online.
    destruct (str_eqb ip (py "127.0.0.1")) eqn:Eip;
      [apply str_eqb_eq in Eip; contradiction |].
    rewrite Hrun, He. now destruct (Provider.is_a e Provider.TimeoutExpired).
Qed.

Lemma provider_is_ip_online_witness :
  Provider.is_ip_online (U := ascii_tables) (py "Linux") Provider.all_silent
    (py "10.0.0.7")
  = Provider.Ok false.
Proof.
  apply (proj2 (proj2 (proj2 (provider_is_ip_online ascii_tables (py "Linux")
                                Provider.all_silent (py "10.0.0.7"))))
           (Provider.err Provider.TimeoutExpired (py "timed out after 15 seconds"))).
  - intros H. discriminate H.
  - intros command. reflexivity.
  - reflexivity.
Defined.

Ltac by_class k :=
  destruct k;
  cbv [Provider.respond Provider.is_a Provider.issubclass Provider.subclass_fuel
       Provider.cls_eqb Provider.base Provider.kind Provider.err orb] in *.

(** X21: [respond] hands back the text of the backend; a KeyboardInterrupt
    becomes a text that asks to exit; out of it come only ConnectionError,
    NotImplementedError, a plain Exception, or what is no Exception at all.
    An error of the ConnectionError family, RemoteDisconnected included, is
    raised again as ConnectionError whatever its text says. *)
Theorem provider_respond_classes (self : Provider.provider)
  (llm : Provider.result str) :
  (forall thought, llm = Provider.Ok thought ->
     Provider.respond self llm = Provider.Ok thought) /\
  (forall e, llm = Provider.Err e ->
     Provider.is_a e Provider.KeyboardInterrupt = true ->
     Provider.respond self llm
     = Provider.Ok (py "Operation interrupted by user. REQUEST_EXIT")) /\
  (forall e, llm = Provider.Err e ->
     Provider.is_a e Provider.ConnectionError = true ->
     Provider.respond self llm
     = Provider.Err (Provider.err Provider.ConnectionError
                       (Provider.message e ++ [c_newline] ++ py "Connection to "
                        ++ Provider.server_ip self ++ py " failed."))) /\
  (forall e', Provider.respond self llm = Provider.Err e' ->
     Provider.kind e' = Provider.ConnectionError \/
     Provider.kind e' = Provider.NotImplementedError \/
     Provider.kind e' = Provider.Exception \/
     (llm = Provider.Err e' /\ Provider.is_a e' Provider.Exception = false)).
Proof.
  split; [intros thought ->; reflexivity |].
  split; [intros e -> He; unfold Provider.respond; now rewrite He |].
  split.
  - intros [k m sc] -> He. by_class k; try discriminate He; reflexivity.
  - intros e' H. destruct llm as [thought | [k m sc]]; [discriminate |].
    by_class k; cbn [Provider.message] in H;
      try (destruct (contains m (py "RemoteDisconnected")); [discriminate |]);
      try discriminate;
      injection H as <-; cbn; tauto.
Qed.

Lemma provider_respond_classes_witness :
  Provider.respond
    {| Provider.provider_name := py "server"; Provider.model := py "m";
       Provider.is_local := false; Provider.server_ip := py "10.0.0.7:3333";
       Provider.api_key := None |}
    (Provider.Err (Provider.err Provider.RemoteDisconnected
                     (py "RemoteDisconnected: closed")))
  = Provider.Err (Provider.err Provider.ConnectionError
                    (py "RemoteDisconnected: closed" ++ [c_newline]
                     ++ py "Connection to 10.0.0.7:3333 failed.")).
Proof.
  exact (proj1 (proj2 (proj2 (provider_respond_classes
           {| Provider.provider_name := py "server"; Provider.model := py "m";
              Provider.is_local := false; Provider.server_ip := py "10.0.0.7:3333";
              Provider.api_key := None |}
           (Provider.Err (Provider.err Provider.RemoteDisconnected
                            (py "RemoteDisconnected: closed"))))))
           _ eq_refl eq_refl).
Defined.

(** X22: what [lm_studio_fn] returns is the content read off the decoded
    response of a server that answered the ping; what it raises is a plain
    Exception, or no Exception at all. *)
Theorem provider_lm_studio_fn (U : Unicode) (system : str)
  (run : list str -> Provider.result nat) (self : Provider.provider)
  (post : Provider.result Provider.json) :
  match Provider.lm_studio_fn system run self post with
  | Provider.Ok v =>
      Provider.is_ip_online system run
        (hd [] (split c_colon (Provider.server_ip self))) = Provider.Ok true /\
      exists response, post = Provider.Ok response /\
                       Provider.content_of response = Provider.Ok v
  | Provider.Err e =>
      Provider.kind e = Provider.Exception \/
      Provider.is_a e Provider.Exception = false
  end.
Proof.
  unfold Provider.lm_studio_fn.
  destruct (Provider.is_ip_online system run _) as [[|] | e] eqn:Eon.
  - destruct post as [response | e].
    + destruct (Provider.content_of response) as [v | e] eqn:Ec.
      * split; [reflexivity |]. now exists response.
      * destruct (Provider.is_a e Provider.RequestException); [now left |].
        destruct (Provider.is_a e Provider.Exception) eqn:Ee; [now left | now right].
    + destruct (Provider.is_a e Provider.RequestException); [now left |].
      destruct (Provider.is_a e Provider.Exception) eqn:Ee; [now left | now right].
  - now left.
  - right. exact (is_ip_online_raises _ _ _ _ Eon).
Qed.

(** X23: the chain of [get] calls of [lm_studio_fn] falls back on its
    defaults: a response without "choices", or whose first choice has no
    "message", gives the empty text; an empty list of choices raises
    IndexError; a response that is no dict raises AttributeError. *)
Theorem provider_content_of_defaults (response : Provider.json) :
  (forall d, response = Provider.JDict d ->
     Provider.dict_find (py "choices") d = None ->
     Provider.content_of response = Provider.Ok (Provider.JStr [])) /\
  (forall d choice others, response = Provider.JDict d ->
     Provider.dict_find (py "choices") d
     = Some (Provider.JList (Provider.JDict choice :: others)) ->
     Provider.dict_find (py "message") choice = None ->
     Provider.content_of response = Provider.Ok (Provider.JStr [])) /\
  (forall d, response = Provider.JDict d ->
     Provider.dict_find (py "choices") d = Some (Provider.JList []) ->
     exists e, Provider.content_of response = Provider.Err e /\
               Provider.kind e = Provider.IndexError) /\
  ((forall d, response <> Provider.JDict d) ->
   exists e, Provider.content_of response = Provider.Err e /\
             Provider.kind e = Provider.AttributeError).
Proof.
  repeat apply conj.
  - intros d -> H. unfold Provider.content_of. cbn [Provider.get_or]. rewrite H.
    reflexivity.
  - intros d choice others -> H Hm. unfold Provider.content_of.
    cbn [Provider.get_or]. rewrite H. cbn [Provider.first_item Provider.get_or].
    rewrite Hm. reflexivity.
  - intros d -> H. unfold Provider.content_of. cbn [Provider.get_or]. rewrite H.
    cbn [Provider.first_item]. eexists. split; reflexivity.
  - intros H. destruct response; try (eexists; split; reflexivity).
    exfalso. exact (H d eq_refl).
Qed.

Lemma provider_content_of_defaults_witness :
  Provider.content_of (Provider.JDict [(py "id", Provider.JNum 7)])
  = Provider.Ok (Provider.JStr []).
Proof.
  exact (proj1 (provider_content_of_defaults
                  (Provider.JDict [(py "id", Provider.JNum 7)]))
           [(py "id", Provider.JNum 7)] eq_refl eq_refl).
Defined.

(** X24: the text [ollama_fn] returns is that of its first call of the
    chat.  After a ResponseError the model may be pulled and the call made
    again, but the answer of that second call is dropped and an error is
    raised all the same. *)
Theorem provider_ollama_fn_answer (U : Unicode)
  (chat : nat -> Provider.result (list str)) (pull : nat -> Provider.result unit)
  (depth call : nat) (thought : str) :
  Provider.ollama_fn chat pull depth call = Provider.Ok thought <->
  depth <> 0 /\ exists chunks, chat call = Provider.Ok chunks /\ thought = concat chunks.
Proof.
  destruct depth as [| d]; cbn [Provider.ollama_fn].
  - split; [discriminate | intros [H _]; now contradiction H].
  - destruct (chat call) as [chunks | e].
    + split.
      * intros [= <-]. split; [discriminate | now exists chunks].
      * intros [_ [chunks' [[= <-] ->]]]. reflexivity.
    + split; [| intros [_ [chunks [H _]]]; discriminate H].
      destruct (Provider.is_a e Provider.ConnectError); [discriminate |].
      destruct (Provider.is_a e Provider.ResponseError); [| discriminate].
      destruct (Nat.eqb (Provider.status_code e) 404).
      * destruct (pull call); [| discriminate].
        destruct (Provider.ollama_fn chat pull d (S call)); [| discriminate].
        destruct (contains _ _); discriminate.
      * destruct (contains _ _); discriminate.
Qed.

Lemma provider_ollama_fn_answer_witness :
  Provider.ollama_fn (U := ascii_tables)
    (fun k => match k with
              | 0 => Provider.Err {| Provider.kind := Provider.ResponseError;
                                     Provider.message := py "model not found";
                                     Provider.status_code := 404 |}
              | _ => Provider.Ok [py "Hel"; py "lo"]
              end)
    (fun _ => Provider.Ok tt) 10 1 = Provider.Ok (py "Hello") /\
  Provider.ollama_fn (U := ascii_tables)
    (fun k => match k with
              | 0 => Provider.Err {| Provider.kind := Provider.ResponseError;
                                     Provider.message := py "model not found";
                                     Provider.status_code := 404 |}
              | _ => Provider.Ok [py "Hel"; py "lo"]
              end)
    (fun _ => Provider.Ok tt) 10 0
  = Provider.Err {| Provider.kind := Provider.ResponseError;
                    Provider.message := py "model not found";
                    Provider.status_code := 404 |}.
Proof.
  split; [| vm_compute; reflexivity].
  apply (proj2 (provider_ollama_fn_answer ascii_tables _ _ 10 1 (py "Hello"))).
  split; [discriminate |]. exists [py "Hel"; py "lo"]. split; reflexivity.
Defined.

(** X25: a provider that [__init__] builds has the lowercased name of one
    of the eight known backends, keeps the model and the locality it was
    given, holds the address with "http://" removed, which passed the
    address check, has an API key exactly when the backend is a cloud one,
    and its host answered the ping. *)
Theorem provider_init_checks (U : Unicode)
  (ip_address : str -> Provider.result unit) (to_int : str -> Provider.result N)
  (system : str) (run : list str -> Provider.result nat)
  (get_api_key : str -> Provider.result str)
  (name model_ server_address : str) (local : bool) (p : Provider.provider) :
  Provider.init ip_address to_int system run get_api_key
    name model_ server_address local = Provider.Ok p ->
  Provider.provider_name p = lower name /\
  In (lower name) Provider.available_providers /\
  Provider.model p = model_ /\ Provider.is_local p = local /\
  Provider.server_ip p = Provider.remove_all (py "http://") server_address /\
  Provider.check_address_format ip_address to_int server_address
  = Provider.Ok (Provider.server_ip p) /\
  Provider.is_ip_online system run
    (hd [] (split c_colon (Provider.server_ip p))) = Provider.Ok true /\
  match Provider.api_key p with
  | Some key => Provider.member (lower name) Provider.unsafe_providers = true /\
                get_api_key (lower name) = Provider.Ok key
  | None => Provider.member (lower name) Provider.unsafe_providers = false
  end.
Proof.
  unfold Provider.init.
  destruct (Provider.check_address_format ip_address to_int server_address)
    as [ip | e] eqn:Eaddr; [| discriminate].
  assert (ip = Provider.remove_all (py "http://") server_address) as Hip.
  { unfold Provider.check_address_format in Eaddr.
    destruct (Provider.check_parts _ _ _) as [[] | e]; [congruence |].
    destruct (Provider.is_a e Provider.ValueError); discriminate. }
  destruct (Provider.member (lower name) Provider.available_providers) eqn:Em;
    cbn [negb]; [| discriminate].
  assert (In (lower name) Provider.available_providers) as Hin.
  { unfold Provider.member in Em. apply existsb_exists in Em.
    destruct Em as [x [Hx Heq]]. apply str_eqb_eq in Heq. now subst. }
  destruct (Provider.member (lower name) Provider.unsafe_providers) eqn:Eu.
  - destruct (get_api_key (lower name)) as [key | e] eqn:Ek; [| discriminate].
    destruct (Provider.check_address_format ip_address to_int ip); [| discriminate].
    destruct (Provider.is_ip_online system run _) as [[|] | e] eqn:Eon;
      try discriminate.
    intros [= <-]. cbn. repeat split; try assumption; reflexivity.
  - destruct (Provider.check_address_format ip_address to_int ip); [| discriminate].
    destruct (Provider.is_ip_online system run _) as [[|] | e] eqn:Eon;
      try discriminate.
    intros [= <-]. cbn. repeat split; try assumption; reflexivity.
Qed.

Lemma provider_init_checks_witness :
  Provider.init (U := ascii_tables) Provider.two_addresses Provider.ascii_int
    (py "Linux") Provider.all_online Provider.no_key
    (py "Ollama") (py "llama3") (py "http://127.0.0.1:11434") true
  = Provider.Ok {| Provider.provider_name := py "ollama";
                   Provider.model := py "llama3"; Provider.is_local := true;
                   Provider.server_ip := py "127.0.0.1:11434";
                   Provider.api_key := None |} /\
  In (@lower ascii_tables (py "Ollama")) Provider.available_providers.
Proof.
  assert (Provider.init (U := ascii_tables) Provider.two_addresses Provider.ascii_int
            (py "Linux") Provider.all_online Provider.no_key
            (py "Ollama") (py "llama3") (py "http://127.0.0.1:11434") true
          = Provider.Ok {| Provider.provider_name := py "ollama";
                           Provider.model := py "llama3"; Provider.is_local := true;
                           Provider.server_ip := py "127.0.0.1:11434";
                           Provider.api_key := None |}) as H
    by (vm_compute; reflexivity).
  split; [exact H |].
  exact (proj1 (proj2 (provider_init_checks ascii_tables _ _ _ _ _ _ _ _ _ _ H))).
Defined.

(** ** [get_text], continued *)

Section Lines.
Context {U : Unicode}.

Lemma runs_words (p : char -> bool) (s : str) :
  forall cur, (forall c, In c cur -> p c = true) ->
  forall word, In word (runs p cur s) ->
    word <> [] /\ forall c, In c word -> p c = true.
Proof.
  induction s as [| c t IH]; intros cur Hcur word Hin; cbn [runs] in Hin.
  - destruct cur as [| d cur']; [contradiction |].
    destruct Hin as [<- | []]. split.
    + intros H. apply (f_equal (@length char)) in H.
      rewrite length_rev in H. discriminate.
    + intros x Hx. apply Hcur. now apply in_rev.
  - destruct (p c) eqn:Ec.
    + apply (IH (c :: cur)); [| exact Hin].
      intros x [<- | Hx]; [exact Ec | now apply Hcur].
    + destruct cur as [| d cur'].
      * apply (IH []); [intros ? [] | exact Hin].
      * destruct Hin as [<- | Hin].
        -- split.
           ++ intros H. apply (f_equal (@length char)) in H.
              rewrite length_rev in H. discriminate.
           ++ intros x Hx. apply Hcur. now apply in_rev.
        -- apply (IH []); [intros ? [] | exact Hin].
Qed.

Lemma page_lines_filter (lines : list str) :
  page_lines lines
  = map (fun line => join (py " ") (split_ws (strip line)))
        (filter (fun line => nonempty (strip line) && is_sentence (strip line)) lines).
Proof.
  induction lines as [| line rest IH]; [reflexivity |].
  cbn [page_lines filter]. destruct (strip line) as [| c t] eqn:E.
  - cbn [nonempty andb]. exact IH.
  - cbn [nonempty andb]. destruct (is_sentence (c :: t)); [| exact IH].
    cbn [map]. now rewrite E, IH.
Qed.

End Lines.

(** X26: the lines [get_text] keeps are, in the order of the page, the
    lines that are not blank and pass [is_sentence], each rewritten as its
    words joined by single spaces; a word is not empty and has no
    whitespace in it. *)
Theorem page_lines_normalised (U : Unicode) (lines : list str) :
  page_lines lines
  = map (fun line => join (py " ") (split_ws (strip line)))
        (filter (fun line => nonempty (strip line) && is_sentence (strip line)) lines) /\
  (forall kept, In kept (page_lines lines) ->
     exists line, In line lines /\ is_sentence (strip line) = true /\
                  kept = join (py " ") (split_ws (strip line))) /\
  (forall line word, In line lines -> In word (split_ws (strip line)) ->
     word <> [] /\ forall c, In c word -> isspace c = false).
Proof.
  split; [apply page_lines_filter |]. split.
  - intros kept Hin. rewrite page_lines_filter in Hin. apply in_map_iff in Hin.
    destruct Hin as [line [<- Hline]]. apply filter_In in Hline.
    destruct Hline as [Hline Hkeep]. apply andb_true_iff in Hkeep.
    exists line. repeat split; tauto.
  - intros line word _ Hword. unfold split_ws in Hword.
    destruct (runs_words _ _ [] (fun c (H : In c []) => match H with end) word Hword)
      as [Hne Hchars].
    split; [exact Hne |]. intros c Hc. specialize (Hchars c Hc).
    now apply negb_true_iff in Hchars.
Qed.

Lemma page_lines_normalised_witness :
  @page_lines ascii_tables
    [py "  The   quick brown fox jumps. "; py "menu"; py "   "]
  = [py "The quick brown fox jumps."] /\
  py "quick" <> [].
Proof.
  split; [vm_compute; reflexivity |].
  refine (proj1 (proj2 (proj2 (page_lines_normalised ascii_tables
                   [py "  The   quick brown fox jumps. "; py "menu"; py "   "]))
                   (py "  The   quick brown fox jumps. ") (py "quick") _ _)).
  - left. reflexivity.
  - vm_compute. right. left. reflexivity.
Defined.

(** X27: [get_text] lets no Exception out: when reading the page source or
    converting it to Markdown raises one, the answer is None. *)
Theorem get_text_absorbs (U : Unicode) (C : Converter) (W : Type) (D : Driver W)
  (w : W) :
  (forall e w', get_text w = (Raise e, w') -> isinstance e Exception = false) /\
  (forall e w1, page_source w = (Raise e, w1) -> isinstance e Exception = true ->
     get_text w = (Ret None, w1)) /\
  (forall source w1 e, page_source w = (Ret source, w1) ->
     markdown_of_source source = Raise e -> isinstance e Exception = true ->
     get_text w = (Ret None, w1)).
Proof.
  unfold get_text, try_, bind, lift, ret. repeat split.
  - intros e w'. destruct (page_source w) as [[source | e0] w1].
    + destruct (markdown_of_source source) as [markdown_text | e0]; [discriminate |].
      cbn [select_clause]. destruct (isinstance e0 Exception) eqn:E; [discriminate |].
      now intros [= <- _].
    + cbn [select_clause]. destruct (isinstance e0 Exception) eqn:E; [discriminate |].
      now intros [= <- _].
  - intros e w1 -> He. cbn [select_clause]. now rewrite He.
  - intros source w1 e -> -> He. cbn [select_clause]. now rewrite He.
Qed.

Lemma get_text_absorbs_witness :
  @get_text ascii_tables Pages.unparsable _ Sim.driver Sim.image_page
  = (Ret None, Sim.image_page).
Proof.
  exact (proj2 (proj2 (get_text_absorbs ascii_tables Pages.unparsable Sim.world
                         Sim.driver Sim.image_page))
           (Sim.source Sim.image_page) Sim.image_page Exception
           eq_refl eq_refl eq_refl).
Defined.

(** ** [find_and_click_btn], continued *)

(** X28: [find_and_click_btn] tries one candidate only, the first whose
    label contains the wanted text.  When that button does not become
    clickable in time the answer is False, whatever the later candidates
    are. *)
Theorem find_and_click_btn_first_match_only (U : Unicode) (W : Type)
  (D : Driver W) (btn_type : str) (timeout : nat) (w w1 w2 : W)
  (skipped later : list (str * str)) (label xpath : str) :
  get_buttons_xpath w = (Ret (skipped ++ (label, xpath) :: later), w1) ->
  (forall l x, In (l, x) skipped -> btn_matches btn_type l = false) ->
  btn_matches btn_type label = true ->
  until timeout (element_to_be_clickable XPATH xpath) w1
  = (Raise TimeoutException, w2) ->
  find_and_click_btn btn_type timeout w = (Ret false, w2).
Proof.
  intros Hbuttons Hskip Hmatch Hwait. unfold find_and_click_btn.
  rewrite (bind_ret_eq _ _ Hbuttons).
  assert (click_first_match btn_type timeout (skipped ++ (label, xpath) :: later) w1
          = (Ret false, w2)) as H.
  { rewrite (click_first_match_skips btn_type timeout skipped _ Hskip).
    cbn [click_first_match]. rewrite Hmatch.
    assert ((until timeout (element_to_be_clickable XPATH xpath) ;;;
             clicked <- click_element xpath ;;
             (if clicked then ret true else ret false)) w1
            = (Raise TimeoutException, w2)) as Hbody
      by now rewrite (bind_raise_eq _ _ Hwait).
    now rewrite (try_raise_eq _ _ Hbody). }
  destruct (skipped ++ (label, xpath) :: later) eqn:E; [| exact H].
  destruct skipped; discriminate.
Qed.

Lemma find_and_click_btn_first_match_only_witness :
  @find_and_click_btn ascii_tables _ Sim.driver (py "login") 1 Pages.two_logins
  = (Ret false,
     snd (@until _ Sim.driver _ 1 (@element_to_be_clickable _ Sim.driver XPATH (@button_xpath 0))
            Pages.two_logins)) /\
  @btn_matches ascii_tables (py "login") (py "loginnow") = true.
Proof.
  split; [| vm_compute; reflexivity].
  apply (find_and_click_btn_first_match_only ascii_tables Sim.world Sim.driver
           (py "login") 1 Pages.two_logins Pages.two_logins
           (snd (@until _ Sim.driver _ 1
                   (@element_to_be_clickable _ Sim.driver XPATH (@button_xpath 0))
                   Pages.two_logins))
           [] [(py "loginnow", @button_xpath 1)] (py "login") (@button_xpath 0)).
  - vm_compute. reflexivity.
  - intros l x [].
  - vm_compute. reflexivity.
  - vm_compute. reflexivity.
Defined.

(** ** [server_fn] and [dsk_deepseek] *)

Section ServerLoop.
Import Provider.
Variable get_update : nat -> result json.
Variable pretty_print : json -> result unit.
Variable sentences : nat -> json.

Lemma server_loop_round (k f : nat) (thought v : json) :
  get_update k = Ok v -> pending_update v (sentences k) ->
  server_loop get_update pretty_print (S f) k thought
  = server_loop get_update pretty_print f (S k) (sentences k).
Proof.
  intros Hget [Herr [Hs [c [Hc Ht]]]]. cbn [server_loop].
  now rewrite Hget, Herr, Hs, Hc, Ht.
Qed.

Lemma server_loop_skip (n : nat) :
  forall k thought fuel,
    (forall j, j < n -> exists v, get_update (k + j) = Ok v /\
                                  pending_update v (sentences (k + j))) ->
    server_loop get_update pretty_print (n + fuel) k thought
    = server_loop get_update pretty_print fuel (k + n)
        (match n with 0 => thought | S m => sentences (k + m) end).
Proof.
  induction n as [| n IH]; intros k thought fuel H.
  - now rewrite Nat.add_0_r.
  - destruct (H 0 (Nat.lt_0_succ n)) as [v [Hget Hpending]].
    rewrite Nat.add_0_r in Hget, Hpending.
    cbn [Nat.add]. rewrite (server_loop_round _ _ _ _ Hget Hpending).
    rewrite (IH (S k) (sentences k) fuel).
    + replace (S k + n) with (k + S n) by lia.
      destruct n as [| m]; [now rewrite Nat.add_0_r |].
      now replace (S k + m) with (k + S m) by lia.
    + intros j Hj. replace (S k + j) with (k + S j) by lia. apply H. lia.
Qed.

Lemma server_loop_short (fuel : nat) :
  forall n k thought,
    fuel <= n ->
    (forall j, j < n -> exists v, get_update (k + j) = Ok v /\
                                  pending_update v (sentences (k + j))) ->
    server_loop get_update pretty_print fuel k thought = None.
Proof.
  induction fuel as [| f IH]; intros n k thought Hle H; [reflexivity |].
  destruct n as [| n]; [lia |].
  destruct (H 0 (Nat.lt_0_succ n)) as [v [Hget Hpending]].
  rewrite Nat.add_0_r in Hget, Hpending.
  rewrite (server_loop_round _ _ _ _ Hget Hpending).
  apply (IH n); [lia |].
  intros j Hj. replace (S k + j) with (k + S j) by lia. apply H. lia.
Qed.

End ServerLoop.

(** X29: [server_fn] asks for updates until one is complete.  With n
    updates that are not complete before it, it has not returned after n
    rounds; it returns the sentence of the first complete update once it is
    given more; an update with the key "error" ends it with the sentence of
    the update before (the empty text if there is none); an update with no
    "sentence" ends it with an Exception that names the server route. *)
Theorem provider_server_fn_rounds (U : Unicode) (system : str)
  (run : list str -> Provider.result nat)
  (post_setup post_generate : Provider.result unit)
  (get_update : nat -> Provider.result Provider.json)
  (pretty_print : Provider.json -> Provider.result unit)
  (self : Provider.provider) (sentences : nat -> Provider.json) (n : nat) :
  Provider.is_ip_online system run
    (hd [] (split c_colon (Provider.server_ip self))) = Provider.Ok true ->
  post_setup = Provider.Ok tt -> post_generate = Provider.Ok tt ->
  (forall k, k < n -> exists v, get_update k = Provider.Ok v /\
                                pending_update v (sentences k)) ->
  (forall fuel, fuel <= n ->
     Provider.server_fn system run post_setup post_generate get_update pretty_print
       self fuel = None) /\
  (forall v sentence fuel,
     get_update n = Provider.Ok v -> final_update v sentence -> n < fuel ->
     Provider.server_fn system run post_setup post_generate get_update pretty_print
       self fuel = Some (Provider.Ok sentence)) /\
  (forall d text fuel,
     get_update n = Provider.Ok (Provider.JDict d) ->
     Provider.dict_find (py "error") d = Some text ->
     pretty_print text = Provider.Ok tt -> n < fuel ->
     Provider.server_fn system run post_setup post_generate get_update pretty_print
       self fuel
     = Some (Provider.Ok (match n with
                          | 0 => Provider.JStr []
                          | S m => sentences m
                          end))) /\
  (forall d fuel,
     get_update n = Provider.Ok (Provider.JDict d) ->
     Provider.dict_find (py "error") d = None ->
     Provider.dict_find (py "sentence") d = None -> n < fuel ->
     exists e,
       Provider.server_fn system run post_setup post_generate get_update pretty_print
         self fuel = Some (Provider.Err e) /\
       Provider.kind e = Provider.Exception /\
       startswith (Provider.message e) (py "'sentence'") = true).
Proof.
  intros Honline Hsetup Hgenerate Hpending.
  assert (forall j, j < n -> exists v, get_update (0 + j) = Provider.Ok v /\
                                       pending_update v (sentences (0 + j))) as H0
    by exact Hpending.
  unfold Provider.server_fn. rewrite Honline, Hsetup, Hgenerate.
  repeat apply conj.
  - intros fuel Hle.
    now rewrite (server_loop_short get_update pretty_print sentences fuel n 0 _ Hle H0).
  - intros v sentence fuel Hget [Herr [Hs [c [Hc Ht]]]] Hlt.
    replace fuel with (n + S (fuel - S n)) by lia.
    rewrite (server_loop_skip get_update pretty_print sentences n 0 _ _ H0).
    cbn [Nat.add Provider.server_loop]. now rewrite Hget, Herr, Hs, Hc, Ht.
  - intros d text fuel Hget Hfind Hprint Hlt.
    replace fuel with (n + S (fuel - S n)) by lia.
    rewrite (server_loop_skip get_update pretty_print sentences n 0 _ _ H0).
    cbn [Nat.add Provider.server_loop Provider.has_member Provider.subscript].
    rewrite Hget. cbn [Provider.has_member Provider.subscript].
    rewrite Hfind, Hprint. reflexivity.
  - intros d fuel Hget Herr Hs Hlt.
    replace fuel with (n + S (fuel - S n)) by lia.
    rewrite (server_loop_skip get_update pretty_print sentences n 0 _ _ H0).
    cbn [Nat.add Provider.server_loop]. rewrite Hget.
    cbn [Provider.has_member Provider.subscript]. rewrite Herr, Hs.
    eexists. split; [reflexivity |]. split; reflexivity.
Qed.

Lemma provider_server_fn_rounds_witness :
  Provider.server_fn (U := ascii_tables) (py "Linux") Provider.all_online
    (Provider.Ok tt) (Provider.Ok tt) three_updates (fun _ => Provider.Ok tt)
    {| Provider.provider_name := py "server"; Provider.model := py "m";
       Provider.is_local := false; Provider.server_ip := py "192.168.1.20:3333";
       Provider.api_key := None |} 2 = None /\
  Provider.server_fn (U := ascii_tables) (py "Linux") Provider.all_online
    (Provider.Ok tt) (Provider.Ok tt) three_updates (fun _ => Provider.Ok tt)
    {| Provider.provider_name := py "server"; Provider.model := py "m";
       Provider.is_local := false; Provider.server_ip := py "192.168.1.20:3333";
       Provider.api_key := None |} 3
  = Some (Provider.Ok (Provider.JStr (py "Hello world"))).
Proof.
  assert (forall k, k < 2 -> exists v, three_updates k = Provider.Ok v /\
                                       pending_update v (three_sentences k)) as Hpending.
  { intros k Hk. exists (Provider.JDict
                           [(py "sentence", three_sentences k);
                            (py "is_complete", Provider.JBool false)]).
    destruct k as [| [| k]]; [| | lia];
      (split; [reflexivity |]); (split; [reflexivity |]);
      (split; [reflexivity |]); exists (Provider.JBool false); split; reflexivity. }
  pose proof (provider_server_fn_rounds ascii_tables (py "Linux") Provider.all_online
                (Provider.Ok tt) (Provider.Ok tt) three_updates
                (fun _ => Provider.Ok tt)
                {| Provider.provider_name := py "server"; Provider.model := py "m";
                   Provider.is_local := false;
                   Provider.server_ip := py "192.168.1.20:3333";
                   Provider.api_key := None |}
                three_sentences 2 eq_refl eq_refl eq_refl Hpending) as [Hshort [Hfinal _]].
  split; [apply Hshort; lia |].
  apply (Hfinal (Provider.JDict
                   [(py "sentence", Provider.JStr (py "Hello world"));
                    (py "is_complete", Provider.JBool true)])).
  - reflexivity.
  - split; [reflexivity |]. split; [reflexivity |].
    exists (Provider.JBool true). split; reflexivity.
  - lia.
Defined.

(** X30: [dsk_deepseek] returns the 'content' of the chunks of type 'text',
    joined.  Its handlers for AuthenticationError, RateLimitError and
    NetworkError read the name [e], which they do not bind: a failure of
    one of these classes leaves the method as an UnboundLocalError, and the
    method raises none of the three classes. *)
Theorem provider_dsk_deepseek_raises
  (completion : str -> Provider.result (list (str * str))) (unbound_text : str)
  (history : list (str * str)) :
  (forall thought,
     Provider.dsk_deepseek (Provider.Ok tt) completion unbound_text history
     = Provider.Ok thought <->
     exists chunks,
       completion (Provider.history_message history) = Provider.Ok chunks /\
       thought = Provider.text_of_chunks chunks) /\
  (forall e, completion (Provider.history_message history) = Provider.Err e ->
     Provider.is_a e Provider.AuthenticationError = true \/
     Provider.is_a e Provider.RateLimitError = true \/
     Provider.is_a e Provider.NetworkError = true ->
     Provider.dsk_deepseek (Provider.Ok tt) completion unbound_text history
     = Provider.Err (Provider.err Provider.UnboundLocalError unbound_text)) /\
  (forall e',
     Provider.dsk_deepseek (Provider.Ok tt) completion unbound_text history
     = Provider.Err e' ->
     Provider.is_a e' Provider.AuthenticationError = false /\
     Provider.is_a e' Provider.RateLimitError = false /\
     Provider.is_a e' Provider.NetworkError = false).
Proof.
  unfold Provider.dsk_deepseek. repeat apply conj.
  - intros thought. destruct (completion _) as [chunks | e].
    + split; [intros [= <-]; now exists chunks |].
      intros [chunks' [[= <-] ->]]. reflexivity.
    + split; [| intros [chunks [H _]]; discriminate H].
      destruct (Provider.is_a e Provider.AuthenticationError); [discriminate |].
      destruct (Provider.is_a e Provider.RateLimitError); [discriminate |].
      destruct (Provider.is_a e Provider.CloudflareError); [discriminate |].
      destruct (Provider.is_a e Provider.NetworkError); [discriminate |].
      destruct (Provider.is_a e Provider.APIError); discriminate.
  - intros [k m sc] -> H. by_class k;
      destruct H as [H | [H | H]]; try discriminate H; reflexivity.
  - intros e'. destruct (completion _) as [chunks | e]; [discriminate |].
    destruct (Provider.is_a e Provider.AuthenticationError) eqn:E1;
      [intros [= <-]; repeat split; reflexivity |].
    destruct (Provider.is_a e Provider.RateLimitError) eqn:E2;
      [intros [= <-]; repeat split; reflexivity |].
    destruct (Provider.is_a e Provider.CloudflareError) eqn:E3;
      [intros [= <-]; repeat split; reflexivity |].
    destruct (Provider.is_a e Provider.NetworkError) eqn:E4;
      [intros [= <-]; repeat split; reflexivity |].
    destruct (Provider.is_a e Provider.APIError) eqn:E5;
      [intros [= <-]; repeat split; reflexivity |].
    intros [= <-]. repeat split; assumption.
Qed.

Lemma provider_dsk_deepseek_raises_witness :
  Provider.dsk_deepseek (Provider.Ok tt)
    (fun _ => Provider.Err (Provider.err Provider.AuthenticationError (py "bad token")))
    (py "cannot access local variable 'e'")
    [(py "user", py "Hello")]
  = Provider.Err (Provider.err Provider.UnboundLocalError
                    (py "cannot access local variable 'e'")).
Proof.
  exact (proj1 (proj2 (provider_dsk_deepseek_raises
           (fun _ => Provider.Err (Provider.err Provider.AuthenticationError
                                     (py "bad token")))
           (py "cannot access local variable 'e'") [(py "user", py "Hello")]))
           _ eq_refl (or_introl eq_refl)).
Defined.
